(** * Employee management domain layer: a shallow embedding of the Go sources

    The development follows the package [internal/domain]: value objects
    and enums, the [Employee], [User] and [AuditLog] aggregates, the domain
    events with their dispatcher, and the orchestration done by
    [EmployeeService] and [UserService].

    Conventions of the embedding:
    - a Go [string] is a Rocq [string] (a sequence of bytes), [len] is
      [String.length];
    - a [float64] is a primitive binary64 float;
    - a Go [error] is a value of the inductive type [error], [nil] is [None];
    - a pointer receiver that is mutated in place becomes a function that
      returns the new contents of the receiver; at the service level the
      receiver lives in a store and is read back through its address;
    - calls to collaborators behind interfaces (repositories, event store,
      handlers, clock, identifier source) are oracles over an abstract world,
      and every write to a collaborator is recorded in a trace. *)

From Stdlib Require Import Floats Ascii.
From stdpp Require Import gmap strings list fin_maps pretty.

Set Warnings "-register-all,-clear-no-such-hyp".
Open Scope string_scope.

(** ** Errors *)

(** [errors.New] and [fmt.Errorf] without [%w] give [New msg];
    [fmt.Errorf("prefix: %w", err)] gives [Wrap prefix err]; the package
    level sentinel values keep their own identity. *)
Inductive error : Type :=
  | New (msg : string)
  | Wrap (prefix : string) (inner : error)
  | ErrEmployeeNotFound
  | ErrEmailAlreadyExists
  | ErrManagerNotFound
  | ErrEmployeeHasDirectReports
  | ErrUserNotFound
  | ErrUsernameAlreadyExists
  | ErrInvalidCredentials
  | ErrUserNotActive.

Fixpoint Error (e : error) : string :=
  match e with
  | New msg => msg
  | Wrap prefix inner => prefix ++ ": " ++ Error inner
  | ErrEmployeeNotFound => "employee not found"
  | ErrEmailAlreadyExists => "email already exists"
  | ErrManagerNotFound => "manager not found"
  | ErrEmployeeHasDirectReports =>
      "employee has direct reports and cannot be deleted"
  | ErrUserNotFound => "user not found"
  | ErrUsernameAlreadyExists => "username already exists"
  | ErrInvalidCredentials => "invalid credentials"
  | ErrUserNotActive => "user is not active"
  end.

(** ** Basic Go types *)

(** A [rune] is a Unicode code point. *)
Definition rune := Z.
Definition rune_of (c : ascii) : rune := Z.of_N (N_of_ascii c).

(** [uuid.UUID] is a 16 byte array, read here as a number; [uuid.Nil] is the
    all-zero identifier. *)
Definition UUID := N.
Definition uuid_Nil : UUID := 0%N.

(** [time.Time] is an instant, in nanoseconds since the zero time
    (January 1, year 1, 00:00 UTC). *)
Definition Time := Z.
Definition Time_IsZero (t : Time) : bool := (t =? 0)%Z.
Definition Time_After (t u : Time) : bool := (u <? t)%Z.
Definition Time_Before (t u : Time) : bool := (t <? u)%Z.

(** Go writes [x > y] on floats; binary64 has no separate primitive for it. *)
Definition float_gtb (x y : float) : bool := (y <? x)%float.
Notation "x >? y" := (float_gtb x y) (at level 70) : float_scope.

(** Go's [int] on the 64-bit platforms the service is built for: a value
    between -2^63 and 2^63 - 1; arithmetic wraps around. *)
Definition int := Z.
Definition int_wrap (z : Z) : int := ((z + 2 ^ 63) `mod` 2 ^ 64 - 2 ^ 63)%Z.
Definition int_sub (x y : int) : int := int_wrap (x - y).
Definition int_mul (x y : int) : int := int_wrap (x * y).
Definition MaxInt : int := (2 ^ 63 - 1)%Z.
Definition MinInt : int := (- 2 ^ 63)%Z.

(** Addresses of heap objects reached through Go pointers. *)
Definition loc := nat.

(** Outcome of running Go code: it returns, or it panics. *)
Inductive run (A : Type) : Type :=
  | Done (a : A)
  | Panic (msg : string).
Arguments Done {A} a.
Arguments Panic {A} msg.

Definition run_bind {A B} (m : run A) (k : A → run B) : run B :=
  match m with
  | Done a => k a
  | Panic msg => Panic msg
  end.

(** ** Dynamic values: [interface{}]

    The dynamic types that the snapshots, audit values and event payloads
    of this package hold. *)
Inductive Value : Type :=
  | VNil
  | VString (s : string)
  | VBool (b : bool)
  | VFloat64 (f : float)
  | VUUID (u : UUID)
  | VTime (t : Time)
  | VStrings (l : list string)
  | VMap (m : gmap string Value).

(** [a == b] on two interface values: equal dynamic types and equal values,
    or both nil. Values of a slice or map type are not comparable, and
    comparing two of them panics at run time. *)
Definition interface_eq (a b : Value) : run bool :=
  match a, b with
  | VNil, VNil => Done true
  | VString x, VString y => Done (x =? y)%string
  | VBool x, VBool y => Done (Bool.eqb x y)
  | VFloat64 x, VFloat64 y => Done (x =? y)%float
  | VUUID x, VUUID y => Done (x =? y)%N
  | VTime x, VTime y => Done (x =? y)%Z
  | VStrings _, VStrings _ =>
      Panic "runtime error: comparing uncomparable type []string"
  | VMap _, VMap _ =>
      Panic "runtime error: comparing uncomparable type map[string]interface {}"
  | _, _ => Done false
  end.

Definition is_nil (a : Value) : bool :=
  match a with VNil => true | _ => false end.

(** ** The Go standard library and third-party packages

    Functions of packages outside this repository that the domain code
    calls. They are parameters of the development. *)
Class GoRuntime : Type := {
  (** the runes that [for _, r := range s] yields *)
  utf8_runes : string → list rune;
  unicode_IsLetter : rune → bool;
  unicode_IsSpace : rune → bool;
  strings_TrimSpace : string → string;
  strings_ToUpper : string → string;
  (** [t.AddDate(years, months, days)] *)
  time_AddDate : Time → Z → Z → Z → Time;
  uuid_Parse : string → UUID * option error;
  (** [bcrypt.CompareHashAndPassword(hash, password) == nil] *)
  bcrypt_matches : string → string → bool;
  (** [fmt.Sprintf("%v", a)] *)
  fmt_Sprint : Value → string;
}.

(** The tables of package [unicode] that the password rules consult. *)
Class GoUnicode : Type := {
  unicode_IsUpper : rune → bool;
  unicode_IsLower : rune → bool;
  unicode_IsNumber : rune → bool;
  unicode_IsPunct : rune → bool;
  unicode_IsSymbol : rune → bool;
}.

(** ** Regular expressions

    Every pattern of the package is anchored at both ends and uses ASCII
    classes only, so matching the bytes of the text decides it. Matching is
    by derivatives. *)
Module Regexp.

Inductive re : Type :=
  | Void
  | Eps
  | Cls (p : ascii → bool)
  | Seq (r s : re)
  | Or (r s : re)
  | Star (r : re).

Fixpoint nullable (r : re) : bool :=
  match r with
  | Void => false
  | Eps => true
  | Cls _ => false
  | Seq r s => nullable r && nullable s
  | Or r s => nullable r || nullable s
  | Star _ => true
  end.

Definition seq (r s : re) : re :=
  match r, s with
  | Void, _ => Void
  | _, Void => Void
  | _, _ => Seq r s
  end.

Definition or (r s : re) : re :=
  match r, s with
  | Void, _ => s
  | _, Void => r
  | _, _ => Or r s
  end.

Fixpoint deriv (c : ascii) (r : re) : re :=
  match r with
  | Void => Void
  | Eps => Void
  | Cls p => if p c then Eps else Void
  | Seq r s =>
      if nullable r then or (seq (deriv c r) s) (deriv c s)
      else seq (deriv c r) s
  | Or r s => or (deriv c r) (deriv c s)
  | Star r => seq (deriv c r) (Star r)
  end.

(** [regexp.MustCompile("^r$").MatchString(s)] *)
Fixpoint MatchString (r : re) (s : string) : bool :=
  match s with
  | EmptyString => nullable r
  | String c s' => MatchString (deriv c r) s'
  end.

Definition Plus (r : re) : re := Seq r (Star r).
Definition Opt (r : re) : re := Or r Eps.

Fixpoint Times (n : nat) (r : re) : re :=
  match n with
  | O => Eps
  | S n => Seq r (Times n r)
  end.

Fixpoint UpTo (n : nat) (r : re) : re :=
  match n with
  | O => Eps
  | S n => Opt (Seq r (UpTo n r))
  end.

Definition AtLeast (n : nat) (r : re) : re := Seq (Times n r) (Star r).
Definition Between (n m : nat) (r : re) : re :=
  Seq (Times n r) (UpTo (m - n) r).

Definition range (lo hi : ascii) : ascii → bool :=
  λ c, Ascii.leb lo c && Ascii.leb c hi.
Definition one (x : ascii) : ascii → bool := λ c, Ascii.eqb c x.
Definition any (ps : list (ascii → bool)) : ascii → bool :=
  λ c, existsb (λ p, p c) ps.
Definition Chr (x : ascii) : re := Cls (one x).

(** [\d] and [\s] of RE2 syntax *)
Definition digit : ascii → bool := range "0" "9".
Definition space : ascii → bool :=
  any [one "009"; one "010"; one "012"; one "013"; one " "].
Definition lower : ascii → bool := range "a" "z".
Definition upper : ascii → bool := range "A" "Z".
Definition alpha : ascii → bool := any [lower; upper].
Definition alnum : ascii → bool := any [lower; upper; digit].

End Regexp.

(** Early returns of a function that returns [error]. *)
Notation "'when' c 'fail' e ';;' k" := (if c then Some e else k)
  (at level 10, c at level 99, e at level 99, k at level 200,
   format "'[v' 'when'  c  'fail'  e  ';;' '/' k ']'").
Notation "'check' x ';;' k" :=
  (match x with Some err => Some err | None => k end)
  (at level 10, x at level 99, k at level 200,
   format "'[v' 'check'  x  ';;' '/' k ']'").

Definition len (s : string) : nat := String.length s.
Definition is_empty (s : string) : bool := (s =? "")%string.

(** The line feed, ["\n"] in Go. *)
Definition newline : string := String "010" EmptyString.

(** [s[i] == c]; every use is at an index below [len s]. *)
Definition byte_is (s : string) (i : nat) (c : ascii) : bool :=
  match String.get i s with
  | Some a => Ascii.eqb a c
  | None => false
  end.

(** ** EmployeeStatus *)

Definition EmployeeStatusActive : string := "ACTIVE".
Definition EmployeeStatusTerminated : string := "TERMINATED".
Definition EmployeeStatusOnLeave : string := "ON_LEAVE".

Module EmployeeStatus.

Definition t := string.

Definition IsValid (s : t) : bool :=
  (s =? EmployeeStatusActive)%string
  || (s =? EmployeeStatusTerminated)%string
  || (s =? EmployeeStatusOnLeave)%string.

Definition CanChangeTo (s target : t) : bool :=
  if (s =? EmployeeStatusTerminated)%string then false
  else IsValid target.

Definition ValidateTransition (s target : t) : option error :=
  when negb (CanChangeTo s target)
    fail New ("invalid status transition from " ++ s ++ " to " ++ target) ;;
  None.

Definition ParseEmployeeStatus (status : string) : string * option error :=
  if negb (IsValid status)
  then ("", Some (New ("invalid employee status: " ++ status)))
  else (status, None).

Definition AllEmployeeStatuses : list t :=
  [EmployeeStatusActive; EmployeeStatusTerminated; EmployeeStatusOnLeave].

(** [panic(err)] stops the program with the text of the error. *)
Definition MustParseEmployeeStatus (status : string) : run t :=
  match ParseEmployeeStatus status with
  | (_, Some err) => Panic (Error err)
  | (es, None) => Done es
  end.

End EmployeeStatus.

(** ** Address *)

Module Address.

Record t : Type := {
  Street : string;
  City : string;
  State : string;
  PostalCode : string;
  Country : string;
}.

(** [strings.ReplaceAll(s, " ", "")] *)
Fixpoint remove_spaces (s : string) : string :=
  match s with
  | EmptyString => EmptyString
  | String c s' =>
      if Ascii.eqb c " " then remove_spaces s' else String c (remove_spaces s')
  end.

Import Regexp.

Definition usZip : re :=
  Seq (Times 5 (Cls digit)) (Opt (Seq (Chr "-") (Times 4 (Cls digit)))).
Definition caPostal : re :=
  Seq (Cls upper) (Seq (Cls digit) (Seq (Cls upper)
    (Seq (Opt (Chr " ")) (Seq (Cls digit) (Seq (Cls upper) (Cls digit)))))).
Definition general : re := Between 3 10 (Cls (any [upper; digit])).

Section methods.
Context `{GoRuntime}.

Definition validatePostalCode (postalCode : string) : option error :=
  let normalized := strings_ToUpper (remove_spaces postalCode) in
  if MatchString usZip postalCode
     || MatchString caPostal postalCode
     || MatchString general normalized
  then None
  else Some (New "postal code format is invalid").

(** The receiver may be nil: a nil address is valid. *)
Definition Validate (a : option t) : option error :=
  match a with
  | None => None
  | Some a =>
    check (if negb (is_empty (Street a)) || negb (is_empty (City a))
              || negb (is_empty (State a)) || negb (is_empty (PostalCode a))
              || negb (is_empty (Country a))
           then
             when is_empty (Street a) fail New
               "street is required when other address fields are provided" ;;
             when is_empty (City a) fail New
               "city is required when other address fields are provided" ;;
             when is_empty (State a) fail New
               "state is required when other address fields are provided" ;;
             when is_empty (PostalCode a) fail New
               "postal code is required when other address fields are provided" ;;
             when is_empty (Country a) fail New
               "country is required when other address fields are provided" ;;
             None
           else None) ;;
    when negb (is_empty (Street a)) && (len (Street a) <? 5)%nat
      fail New "street must be at least 5 characters long" ;;
    when (200 <? len (Street a))%nat
      fail New "street cannot exceed 200 characters" ;;
    when negb (is_empty (City a)) && (len (City a) <? 2)%nat
      fail New "city must be at least 2 characters long" ;;
    when (100 <? len (City a))%nat
      fail New "city cannot exceed 100 characters" ;;
    when negb (is_empty (State a)) && (len (State a) <? 2)%nat
      fail New "state must be at least 2 characters long" ;;
    when (50 <? len (State a))%nat
      fail New "state cannot exceed 50 characters" ;;
    check (if negb (is_empty (PostalCode a))
           then match validatePostalCode (PostalCode a) with
                | Some err => Some (Wrap "invalid postal code" err)
                | None => None
                end
           else None) ;;
    when negb (is_empty (Country a)) && (len (Country a) <? 2)%nat
      fail New "country must be at least 2 characters long" ;;
    when (100 <? len (Country a))%nat
      fail New "country cannot exceed 100 characters" ;;
    None
  end.

Definition NewAddress (street city state postalCode country : string)
  : option t * option error :=
  let addr := {| Street := strings_TrimSpace street;
                 City := strings_TrimSpace city;
                 State := strings_TrimSpace state;
                 PostalCode := strings_TrimSpace postalCode;
                 Country := strings_TrimSpace country |} in
  match Validate (Some addr) with
  | Some err => (None, Some err)
  | None => (Some addr, None)
  end.

(** The receiver may be nil: a nil address is empty. *)
Definition IsEmpty (a : option t) : bool :=
  match a with
  | None => true
  | Some a =>
      is_empty (Street a) && is_empty (City a) && is_empty (State a)
      && is_empty (PostalCode a) && is_empty (Country a)
  end.

Definition Format (a : option t) : string :=
  match a with
  | None => ""
  | Some addr =>
      if IsEmpty a then ""
      else
        let parts : list string := [] in
        let parts :=
          if negb (is_empty (Street addr)) then (parts ++ [Street addr])%list
          else parts in
        let parts :=
          if negb (is_empty (City addr)) || negb (is_empty (State addr))
             || negb (is_empty (PostalCode addr))
          then
            let cityStateZip :=
              City addr ++ ", " ++ State addr ++ " " ++ PostalCode addr in
            (parts ++ [strings_TrimSpace cityStateZip])%list
          else parts in
        let parts :=
          if negb (is_empty (Country addr)) then (parts ++ [Country addr])%list
          else parts in
        String.concat newline parts
  end.

(** When one of the two pointers is nil, [a == other] holds iff both are. *)
Definition Equal (a other : option t) : bool :=
  match a, other with
  | Some a, Some other =>
      (Street a =? Street other)%string
      && (City a =? City other)%string
      && (State a =? State other)%string
      && (PostalCode a =? PostalCode other)%string
      && (Country a =? Country other)%string
  | None, None => true
  | _, _ => false
  end.

Definition Clone (a : option t) : option t :=
  match a with
  | None => None
  | Some a =>
      Some {| Street := Street a; City := City a; State := State a;
              PostalCode := PostalCode a; Country := Country a |}
  end.

End methods.
End Address.

(** ** Field validators of the Employee aggregate *)

Section validators.
Context `{GoRuntime}.
Import Regexp.

Definition validateName (name fieldName : string) : option error :=
  when is_empty name fail New (fieldName ++ " is required") ;;
  when (len name <? 2)%nat
    fail New (fieldName ++ " must be at least 2 characters long") ;;
  when (50 <? len name)%nat
    fail New (fieldName ++ " cannot exceed 50 characters") ;;
  when existsb (λ r, negb (unicode_IsLetter r) && negb (unicode_IsSpace r)
                     && negb (r =? rune_of "-")%Z && negb (r =? rune_of "'")%Z)
         (utf8_runes name)
    fail New (fieldName ++ " contains invalid characters") ;;
  None.

(** [^[a-zA-Z0-9._%+-]+@[a-zA-Z0-9.-]+\.[a-zA-Z]{2,}$] *)
Definition emailRegex : re :=
  Seq (Plus (Cls (any [alnum; one "."; one "_"; one "%"; one "+"; one "-"])))
    (Seq (Chr "@")
      (Seq (Plus (Cls (any [alnum; one "."; one "-"])))
        (Seq (Chr ".") (AtLeast 2 (Cls alpha))))).

Definition validateEmail (email : string) : option error :=
  when is_empty email fail New "email is required" ;;
  when (100 <? len email)%nat fail New "email cannot exceed 100 characters" ;;
  when negb (MatchString emailRegex email)
    fail New "email format is invalid" ;;
  None.

(** [^[\d\s\-\+\(\)]+$] *)
Definition phoneRegex : re :=
  Plus (Cls (any [digit; space; one "-"; one "+"; one "("; one ")"])).

Definition validatePhone (phone : string) : option error :=
  when (20 <? len phone)%nat fail New "phone cannot exceed 20 characters" ;;
  when negb (MatchString phoneRegex phone) fail New "phone format is invalid" ;;
  None.

Definition validateDepartment (department : string) : option error :=
  when is_empty department fail New "department is required" ;;
  when (len department <? 2)%nat
    fail New "department must be at least 2 characters long" ;;
  when (50 <? len department)%nat
    fail New "department cannot exceed 50 characters" ;;
  when existsb (λ r, negb (unicode_IsLetter r) && negb (unicode_IsSpace r)
                     && negb (r =? rune_of "&")%Z)
         (utf8_runes department)
    fail New "department contains invalid characters" ;;
  None.

Definition validatePosition (position : string) : option error :=
  when is_empty position fail New "position is required" ;;
  when (len position <? 2)%nat
    fail New "position must be at least 2 characters long" ;;
  when (50 <? len position)%nat
    fail New "position cannot exceed 50 characters" ;;
  when existsb (λ r, negb (unicode_IsLetter r) && negb (unicode_IsSpace r)
                     && negb (r =? rune_of "-")%Z && negb (r =? rune_of "/")%Z)
         (utf8_runes position)
    fail New "position contains invalid characters" ;;
  None.

(** [now] is the reading of [time.Now()]. *)
Definition validateHireDate (now hireDate : Time) : option error :=
  when Time_IsZero hireDate fail New "hire date is required" ;;
  when Time_After hireDate now fail New "hire date cannot be in the future" ;;
  let minDate := time_AddDate now (-50) 0 0 in
  when Time_Before hireDate minDate
    fail New "hire date cannot be more than 50 years in the past" ;;
  None.

Definition validateSalary (salary : float) : option error :=
  when (salary <? 0)%float fail New "salary cannot be negative" ;;
  when (salary =? 0)%float fail New "salary is required" ;;
  when (salary >? 1000000)%float fail New "salary cannot exceed $1,000,000" ;;
  None.

End validators.

(** ** Employee *)

Module Employee.

Record t : Type := {
  ID : UUID;
  FirstName : string;
  LastName : string;
  Email : string;
  Phone : string;
  Department : string;
  Position : string;
  HireDate : Time;
  Salary : float;
  Status : EmployeeStatus.t;
  ManagerID : option UUID;
  Address : option Address.t;
  CreatedAt : Time;
  UpdatedAt : Time;
}.

(** Assignments to single fields of the receiver. *)
Definition set_FirstName (v : string) (e : t) : t :=
  {| ID := ID e; FirstName := v; LastName := LastName e; Email := Email e;
     Phone := Phone e; Department := Department e; Position := Position e;
     HireDate := HireDate e; Salary := Salary e; Status := Status e;
     ManagerID := ManagerID e; Address := Address e;
     CreatedAt := CreatedAt e; UpdatedAt := UpdatedAt e |}.
Definition set_LastName (v : string) (e : t) : t :=
  {| ID := ID e; FirstName := FirstName e; LastName := v; Email := Email e;
     Phone := Phone e; Department := Department e; Position := Position e;
     HireDate := HireDate e; Salary := Salary e; Status := Status e;
     ManagerID := ManagerID e; Address := Address e;
     CreatedAt := CreatedAt e; UpdatedAt := UpdatedAt e |}.
Definition set_Email (v : string) (e : t) : t :=
  {| ID := ID e; FirstName := FirstName e; LastName := LastName e; Email := v;
     Phone := Phone e; Department := Department e; Position := Position e;
     HireDate := HireDate e; Salary := Salary e; Status := Status e;
     ManagerID := ManagerID e; Address := Address e;
     CreatedAt := CreatedAt e; UpdatedAt := UpdatedAt e |}.
Definition set_Phone (v : string) (e : t) : t :=
  {| ID := ID e; FirstName := FirstName e; LastName := LastName e;
     Email := Email e; Phone := v; Department := Department e;
     Position := Position e; HireDate := HireDate e; Salary := Salary e;
     Status := Status e; ManagerID := ManagerID e; Address := Address e;
     CreatedAt := CreatedAt e; UpdatedAt := UpdatedAt e |}.
Definition set_Department (v : string) (e : t) : t :=
  {| ID := ID e; FirstName := FirstName e; LastName := LastName e;
     Email := Email e; Phone := Phone e; Department := v;
     Position := Position e; HireDate := HireDate e; Salary := Salary e;
     Status := Status e; ManagerID := ManagerID e; Address := Address e;
     CreatedAt := CreatedAt e; UpdatedAt := UpdatedAt e |}.
Definition set_Position (v : string) (e : t) : t :=
  {| ID := ID e; FirstName := FirstName e; LastName := LastName e;
     Email := Email e; Phone := Phone e; Department := Department e;
     Position := v; HireDate := HireDate e; Salary := Salary e;
     Status := Status e; ManagerID := ManagerID e; Address := Address e;
     CreatedAt := CreatedAt e; UpdatedAt := UpdatedAt e |}.
Definition set_Salary (v : float) (e : t) : t :=
  {| ID := ID e; FirstName := FirstName e; LastName := LastName e;
     Email := Email e; Phone := Phone e; Department := Department e;
     Position := Position e; HireDate := HireDate e; Salary := v;
     Status := Status e; ManagerID := ManagerID e; Address := Address e;
     CreatedAt := CreatedAt e; UpdatedAt := UpdatedAt e |}.
Definition set_Status (v : EmployeeStatus.t) (e : t) : t :=
  {| ID := ID e; FirstName := FirstName e; LastName := LastName e;
     Email := Email e; Phone := Phone e; Department := Department e;
     Position := Position e; HireDate := HireDate e; Salary := Salary e;
     Status := v; ManagerID := ManagerID e; Address := Address e;
     CreatedAt := CreatedAt e; UpdatedAt := UpdatedAt e |}.
Definition set_ManagerID (v : option UUID) (e : t) : t :=
  {| ID := ID e; FirstName := FirstName e; LastName := LastName e;
     Email := Email e; Phone := Phone e; Department := Department e;
     Position := Position e; HireDate := HireDate e; Salary := Salary e;
     Status := Status e; ManagerID := v; Address := Address e;
     CreatedAt := CreatedAt e; UpdatedAt := UpdatedAt e |}.
Definition set_Address (v : option Address.t) (e : t) : t :=
  {| ID := ID e; FirstName := FirstName e; LastName := LastName e;
     Email := Email e; Phone := Phone e; Department := Department e;
     Position := Position e; HireDate := HireDate e; Salary := Salary e;
     Status := Status e; ManagerID := ManagerID e; Address := v;
     CreatedAt := CreatedAt e; UpdatedAt := UpdatedAt e |}.
Definition set_UpdatedAt (v : Time) (e : t) : t :=
  {| ID := ID e; FirstName := FirstName e; LastName := LastName e;
     Email := Email e; Phone := Phone e; Department := Department e;
     Position := Position e; HireDate := HireDate e; Salary := Salary e;
     Status := Status e; ManagerID := ManagerID e; Address := Address e;
     CreatedAt := CreatedAt e; UpdatedAt := v |}.

Definition IsActive (e : t) : bool :=
  (Status e =? EmployeeStatusActive)%string.
Definition IsTerminated (e : t) : bool :=
  (Status e =? EmployeeStatusTerminated)%string.
Definition IsOnLeave (e : t) : bool :=
  (Status e =? EmployeeStatusOnLeave)%string.
Definition HasManager (e : t) : bool :=
  match ManagerID e with Some _ => true | None => false end.

Definition FullName (e : t) : string := FirstName e ++ " " ++ LastName e.

Definition CanBeManagedBy (e : t) (managerID : UUID) : bool :=
  match ManagerID e with
  | None => false
  | Some m => (m =? managerID)%N
  end.

(** [Clone] on a non-nil receiver: the manager identifier and the address
    are copied, not shared. *)
Definition Clone (e : t) : t :=
  let managerID :=
    match ManagerID e with
    | Some id => Some id
    | None => None
    end in
  {| ID := ID e; FirstName := FirstName e; LastName := LastName e;
     Email := Email e; Phone := Phone e; Department := Department e;
     Position := Position e; HireDate := HireDate e; Salary := Salary e;
     Status := Status e; ManagerID := managerID;
     Address := Address.Clone (Address e);
     CreatedAt := CreatedAt e; UpdatedAt := UpdatedAt e |}.

Section methods.
Context `{GoRuntime}.

(** [Validate] on a non-nil receiver; [now] is the reading of the clock
    during the call. *)
Definition Validate (now : Time) (e : t) : option error :=
  when (ID e =? uuid_Nil)%N fail New "employee ID cannot be empty" ;;
  check validateName (FirstName e) "first name" ;;
  check validateName (LastName e) "last name" ;;
  check validateEmail (Email e) ;;
  check (if negb (is_empty (Phone e)) then validatePhone (Phone e)
         else None) ;;
  check validateDepartment (Department e) ;;
  check validatePosition (Position e) ;;
  check validateHireDate now (HireDate e) ;;
  check validateSalary (Salary e) ;;
  when negb (EmployeeStatus.IsValid (Status e))
    fail New ("invalid employee status: " ++ Status e) ;;
  check (match Address e with
         | Some a =>
             match Address.Validate (Some a) with
             | Some err => Some (Wrap "invalid address" err)
             | None => None
             end
         | None => None
         end) ;;
  None.

(** [id] is the result of [uuid.New()] and [now] the reading of
    [time.Now()]. *)
Definition NewEmployee (id : UUID) (now : Time)
    (firstName lastName email phone department position : string)
    (hireDate : Time) (salary : float)
    (managerID : option UUID) (address : option Address.t)
  : option t * option error :=
  let employee :=
    {| ID := id; FirstName := firstName; LastName := lastName;
       Email := email; Phone := phone; Department := department;
       Position := position; HireDate := hireDate; Salary := salary;
       Status := EmployeeStatusActive; ManagerID := managerID;
       Address := address; CreatedAt := now; UpdatedAt := now |} in
  match Validate now employee with
  | Some err => (None, Some err)
  | None => (Some employee, None)
  end.

(** The mutating methods return the contents of the receiver after the call
    together with the returned error. *)
Definition ChangeStatus (now : Time) (newStatus : EmployeeStatus.t) (e : t)
  : t * option error :=
  match EmployeeStatus.ValidateTransition (Status e) newStatus with
  | Some err => (e, Some err)
  | None => (set_UpdatedAt now (set_Status newStatus e), None)
  end.

Definition UpdateSalary (now : Time) (newSalary : float) (e : t)
  : t * option error :=
  match validateSalary newSalary with
  | Some err => (e, Some err)
  | None =>
      if IsTerminated e
      then (e, Some (New "cannot update salary for terminated employees"))
      else (set_UpdatedAt now (set_Salary newSalary e), None)
  end.

Definition UpdateContactInfo (now : Time) (email phone : string) (e : t)
  : t * option error :=
  match validateEmail email with
  | Some err => (e, Some err)
  | None =>
      match (if negb (is_empty phone) then validatePhone phone else None) with
      | Some err => (e, Some err)
      | None => (set_UpdatedAt now (set_Phone phone (set_Email email e)), None)
      end
  end.

Definition UpdatePosition (now : Time) (position department : string) (e : t)
  : t * option error :=
  match validatePosition position with
  | Some err => (e, Some err)
  | None =>
      match validateDepartment department with
      | Some err => (e, Some err)
      | None =>
          if IsTerminated e
          then (e, Some (New "cannot update position for terminated employees"))
          else (set_UpdatedAt now
                  (set_Department department (set_Position position e)), None)
      end
  end.

Definition UpdateAddress (now : Time) (address : option Address.t) (e : t)
  : t * option error :=
  match (match address with
         | Some a =>
             match Address.Validate (Some a) with
             | Some err => Some (Wrap "invalid address" err)
             | None => None
             end
         | None => None
         end) with
  | Some err => (e, Some err)
  | None => (set_UpdatedAt now (set_Address address e), None)
  end.

Definition SetManager (now : Time) (managerID : option UUID) (e : t)
  : t * option error :=
  if (match managerID with
      | Some m => (m =? ID e)%N
      | None => false
      end)
  then (e, Some (New "employee cannot be their own manager"))
  else (set_UpdatedAt now (set_ManagerID managerID e), None).

End methods.
End Employee.

(** ** AuditLog *)

Definition OperationCreateEmployee : string := "employee:create".
Definition OperationUpdateEmployee : string := "employee:update".
Definition OperationDeleteEmployee : string := "employee:delete".
Definition OperationChangeStatus : string := "employee:change_status".
Definition OperationUpdateSalary : string := "employee:update_salary".
Definition OperationCreateUser : string := "user:create".
Definition OperationUpdateUser : string := "user:update".

(** The keys of a map in the order in which [for k := range m] yields them.
    Go leaves the order unspecified; the embedding fixes one. *)
Definition range_keys (m : gmap string Value) : list string :=
  (map_to_list m).*1.

Module AuditLog.

Record t : Type := {
  ID : UUID;
  EmployeeID : UUID;
  Operation : string;
  UserID : string;
  Timestamp : Time;
  OldValues : gmap string Value;
  NewValues : gmap string Value;
  IPAddress : string;
  UserAgent : string;
}.

Section methods.
Context `{GoRuntime}.

Definition isValidOperationFormat (operation : string) : bool :=
  forallb (λ r, ((rune_of "a" <=? r)%Z && (r <=? rune_of "z")%Z)
                || ((rune_of "A" <=? r)%Z && (r <=? rune_of "Z")%Z)
                || ((rune_of "0" <=? r)%Z && (r <=? rune_of "9")%Z)
                || (r =? rune_of "_")%Z || (r =? rune_of ":")%Z)
    (utf8_runes operation).

Definition validateOperation (operation : string) : option error :=
  when is_empty operation fail New "operation cannot be empty" ;;
  when (50 <? len operation)%nat
    fail New "operation cannot exceed 50 characters" ;;
  when negb (isValidOperationFormat operation)
    fail New "operation contains invalid characters" ;;
  None.

Definition validateIPAddress (ip : string) : option error :=
  when is_empty ip fail New "IP address cannot be empty" ;;
  when (45 <? len ip)%nat fail New "IP address is too long" ;;
  when (len ip <? 7)%nat fail New "IP address is too short" ;;
  None.

Definition Validate (a : t) : option error :=
  when (ID a =? uuid_Nil)%N fail New "audit log ID cannot be empty" ;;
  when (EmployeeID a =? uuid_Nil)%N fail New "employee ID cannot be empty" ;;
  check validateOperation (Operation a) ;;
  when is_empty (UserID a) fail New "user ID cannot be empty" ;;
  when Time_IsZero (Timestamp a) fail New "timestamp cannot be empty" ;;
  when is_empty (IPAddress a) fail New "IP address cannot be empty" ;;
  check (match validateIPAddress (IPAddress a) with
         | Some err => Some (Wrap "invalid IP address" err)
         | None => None
         end) ;;
  when (size (OldValues a) =? 0)%nat && (size (NewValues a) =? 0)%nat
    fail New "at least one of old values or new values must be provided" ;;
  None.

(** [id] is the result of [uuid.New()] and [now] the reading of
    [time.Now()]. A nil map argument is the empty map. *)
Definition NewAuditLog (id : UUID) (now : Time) (employeeID : UUID)
    (operation userID : string) (oldValues newValues : gmap string Value)
    (ipAddress userAgent : string) : option t * option error :=
  let auditLog :=
    {| ID := id; EmployeeID := employeeID; Operation := operation;
       UserID := userID; Timestamp := now; OldValues := oldValues;
       NewValues := newValues; IPAddress := ipAddress;
       UserAgent := userAgent |} in
  match Validate auditLog with
  | Some err => (None, Some err)
  | None => (Some auditLog, None)
  end.

Definition valuesEqual (a b : Value) : run bool :=
  run_bind (interface_eq a b) (λ same,
    if same then Done true
    else
      match a, b with
      | VString aStr, VString bStr => Done (aStr =? bStr)%string
      | _, _ =>
          if negb (is_nil a) && negb (is_nil b)
          then Done (fmt_Sprint a =? fmt_Sprint b)%string
          else Done false
      end).

Definition IsCreation (a : t) : bool :=
  (size (OldValues a) =? 0)%nat && (0 <? size (NewValues a))%nat.

Definition IsDeletion (a : t) : bool :=
  (size (NewValues a) =? 0)%nat && (0 <? size (OldValues a))%nat.

Definition IsUpdate (a : t) : bool :=
  (0 <? size (OldValues a))%nat && (0 <? size (NewValues a))%nat.

(** First loop of [GetChangedFields]: the fields of [OldValues] that are in
    [NewValues] with a value that is not equal. *)
Fixpoint changed_values (a : t) (fields : list string)
    (changedFields : list string) : run (list string) :=
  match fields with
  | [] => Done changedFields
  | field :: rest =>
      match NewValues a !! field with
      | Some newValue =>
          let oldValue := default VNil (OldValues a !! field) in
          run_bind (valuesEqual oldValue newValue) (λ equal,
            if negb equal
            then changed_values a rest (changedFields ++ [field])
            else changed_values a rest changedFields)
      | None => changed_values a rest changedFields
      end
  end.

(** Second loop: the fields of [NewValues] that are not in [OldValues]. *)
Fixpoint new_fields (a : t) (fields : list string)
    (changedFields : list string) : list string :=
  match fields with
  | [] => changedFields
  | field :: rest =>
      match OldValues a !! field with
      | None => new_fields a rest (changedFields ++ [field])
      | Some _ => new_fields a rest changedFields
      end
  end.

Definition GetChangedFields (a : t) : run (list string) :=
  run_bind (changed_values a (range_keys (OldValues a)) [])
    (λ changedFields,
       Done (new_fields a (range_keys (NewValues a)) changedFields)).

(** The loop of [joinFields] over a slice of [n] fields, at index [i]. *)
Fixpoint joinFields_loop (n i : nat) (fields : list string)
    (result : string) : string :=
  match fields with
  | [] => result
  | field :: rest =>
      let result := if (0 <? i)%nat then result ++ ", " else result in
      let result := if (i =? n - 1)%nat then result ++ "and " else result in
      joinFields_loop n (S i) rest (result ++ field)
  end.

(** [fields[0]] and [fields[1]] are read when the slice is long enough. *)
Definition joinFields (fields : list string) : string :=
  if (length fields =? 0)%nat then ""
  else if (length fields =? 1)%nat then default "" (fields !! 0%nat)
  else if (length fields =? 2)%nat
  then default "" (fields !! 0%nat) ++ " and " ++ default "" (fields !! 1%nat)
  else joinFields_loop (length fields) 0 fields "".

Definition getFieldsSummary (values : gmap string Value) : string :=
  if (size values =? 0)%nat then "no fields"
  else
    let fields := range_keys values in
    if (length fields <=? 3)%nat then joinFields fields
    else joinFields (take 3 fields) ++ " and " ++ pretty (length fields - 3)
         ++ " more".

(** The two loops of [getChangedFieldsSummary] are those of
    [GetChangedFields]. *)
Definition getChangedFieldsSummary (a : t) : run string :=
  run_bind (changed_values a (range_keys (OldValues a)) [])
    (λ changedFields,
       let changedFields :=
         new_fields a (range_keys (NewValues a)) changedFields in
       if (length changedFields =? 0)%nat then Done "no changes"
       else if (length changedFields <=? 3)%nat
       then Done (joinFields changedFields)
       else Done (joinFields (take 3 changedFields) ++ " and "
                  ++ pretty (length changedFields - 3) ++ " more")).

Definition GetChangeSummary (a : t) : run string :=
  if (size (OldValues a) =? 0)%nat
  then Done ("Created: " ++ getFieldsSummary (NewValues a))
  else if (size (NewValues a) =? 0)%nat
  then Done ("Deleted: " ++ getFieldsSummary (OldValues a))
  else run_bind (getChangedFieldsSummary a)
         (λ summary, Done ("Updated: " ++ summary)).

(** A field that a map does not hold reads as nil. *)
Definition GetFieldChange (a : t) (field : string)
  : run (Value * Value * bool) :=
  match OldValues a !! field, NewValues a !! field with
  | None, None => Done (VNil, VNil, false)
  | None, Some newValue => Done (VNil, newValue, true)
  | Some oldValue, None => Done (oldValue, VNil, true)
  | Some oldValue, Some newValue =>
      run_bind (valuesEqual oldValue newValue)
        (λ equal, Done (oldValue, newValue, negb equal))
  end.

End methods.
End AuditLog.

(** ** UserRole *)

Definition UserRoleAdmin : string := "ADMIN".
Definition UserRoleManager : string := "MANAGER".
Definition UserRoleViewer : string := "VIEWER".

Module UserRole.

Definition t := string.

Definition AllUserRoles : list t :=
  [UserRoleAdmin; UserRoleManager; UserRoleViewer].

Definition IsValid (r : t) : bool :=
  (r =? UserRoleAdmin)%string
  || (r =? UserRoleManager)%string
  || (r =? UserRoleViewer)%string.

Definition GetPermissions (r : t) : list string :=
  if (r =? UserRoleAdmin)%string then
    ["employee:read"; "employee:write"; "employee:delete"; "user:read";
     "user:write"; "user:delete"; "audit:read"; "system:admin"]
  else if (r =? UserRoleManager)%string then
    ["employee:read"; "employee:write"; "user:read"; "audit:read"]
  else if (r =? UserRoleViewer)%string then
    ["employee:read"; "audit:read"]
  else [].

(** The loop of [HasPermission] over the permissions of the role. *)
Fixpoint has_permission (permissions : list string) (permission : string)
  : bool :=
  match permissions with
  | [] => false
  | p :: rest =>
      if (p =? permission)%string then true
      else has_permission rest permission
  end.

Definition HasPermission (r : t) (permission : string) : bool :=
  has_permission (GetPermissions r) permission.

Definition CanAccessSalary (r : t) : bool :=
  (r =? UserRoleAdmin)%string || (r =? UserRoleManager)%string.

Definition CanManageUsers (r : t) : bool := (r =? UserRoleAdmin)%string.

Definition CanDeleteEmployees (r : t) : bool := (r =? UserRoleAdmin)%string.

Definition CanViewAuditLogs (r : t) : bool := true.

Definition ParseUserRole (role : string) : string * option error :=
  if negb (IsValid role)
  then ("", Some (New ("invalid user role: " ++ role)))
  else (role, None).

Definition MustParseUserRole (role : string) : run t :=
  match ParseUserRole role with
  | (_, Some err) => Panic (Error err)
  | (ur, None) => Done ur
  end.

End UserRole.

(** ** User *)

Module User.

Record t : Type := {
  ID : UUID;
  Username : string;
  Email : string;
  Password : string;
  Role : string;
  IsActive : bool;
  LastLogin : option Time;
  CreatedAt : Time;
  UpdatedAt : Time;
}.

Section methods.
Context `{GoRuntime}.

Definition CheckPassword (password hash : string) : bool :=
  bcrypt_matches hash password.

Definition Authenticate (u : t) (password : string) : bool :=
  if negb (IsActive u) then false
  else CheckPassword password (Password u).

Definition UpdateLastLogin (now : Time) (u : t) : t :=
  {| ID := ID u; Username := Username u; Email := Email u;
     Password := Password u; Role := Role u; IsActive := IsActive u;
     LastLogin := Some now; CreatedAt := CreatedAt u; UpdatedAt := now |}.

Definition set_Password (v : string) (u : t) : t :=
  {| ID := ID u; Username := Username u; Email := Email u;
     Password := v; Role := Role u; IsActive := IsActive u;
     LastLogin := LastLogin u; CreatedAt := CreatedAt u;
     UpdatedAt := UpdatedAt u |}.
Definition set_IsActive (v : bool) (u : t) : t :=
  {| ID := ID u; Username := Username u; Email := Email u;
     Password := Password u; Role := Role u; IsActive := v;
     LastLogin := LastLogin u; CreatedAt := CreatedAt u;
     UpdatedAt := UpdatedAt u |}.
Definition set_Role (v : UserRole.t) (u : t) : t :=
  {| ID := ID u; Username := Username u; Email := Email u;
     Password := Password u; Role := v; IsActive := IsActive u;
     LastLogin := LastLogin u; CreatedAt := CreatedAt u;
     UpdatedAt := UpdatedAt u |}.
Definition set_Email (v : string) (u : t) : t :=
  {| ID := ID u; Username := Username u; Email := v;
     Password := Password u; Role := Role u; IsActive := IsActive u;
     LastLogin := LastLogin u; CreatedAt := CreatedAt u;
     UpdatedAt := UpdatedAt u |}.
Definition set_Username (v : string) (u : t) : t :=
  {| ID := ID u; Username := v; Email := Email u;
     Password := Password u; Role := Role u; IsActive := IsActive u;
     LastLogin := LastLogin u; CreatedAt := CreatedAt u;
     UpdatedAt := UpdatedAt u |}.
Definition set_UpdatedAt (v : Time) (u : t) : t :=
  {| ID := ID u; Username := Username u; Email := Email u;
     Password := Password u; Role := Role u; IsActive := IsActive u;
     LastLogin := LastLogin u; CreatedAt := CreatedAt u;
     UpdatedAt := v |}.

Import Regexp.

(** [^[a-zA-Z0-9_]+$] *)
Definition usernameRegex : re := Plus (Cls (any [alnum; one "_"])).

Definition validateUsername (username : string) : option error :=
  when is_empty username fail New "username is required" ;;
  when (len username <? 3)%nat
    fail New "username must be at least 3 characters long" ;;
  when (50 <? len username)%nat
    fail New "username cannot exceed 50 characters" ;;
  when negb (MatchString usernameRegex username)
    fail New "username can only contain letters, numbers, and underscores" ;;
  when byte_is username 0 "_" || byte_is username (len username - 1) "_"
    fail New "username cannot start or end with underscore" ;;
  None.

(** [^[a-zA-Z0-9._%+\-]+@[a-zA-Z0-9.\-]+\.[a-zA-Z]{2,}$] *)
Definition userEmailRegex : re :=
  Seq (Plus (Cls (any [alnum; one "."; one "_"; one "%"; one "+"; one "-"])))
    (Seq (Chr "@")
      (Seq (Plus (Cls (any [alnum; one "."; one "-"])))
        (Seq (Chr ".") (AtLeast 2 (Cls alpha))))).

Definition validateUserEmail (email : string) : option error :=
  when is_empty email fail New "email is required" ;;
  when (100 <? len email)%nat fail New "email cannot exceed 100 characters" ;;
  when negb (MatchString userEmailRegex email)
    fail New "email format is invalid" ;;
  None.

(** [Validate] on a non-nil receiver. *)
Definition Validate (u : t) : option error :=
  when (ID u =? uuid_Nil)%N fail New "user ID cannot be empty" ;;
  check validateUsername (Username u) ;;
  check validateUserEmail (Email u) ;;
  when negb (UserRole.IsValid (Role u))
    fail New ("invalid user role: " ++ Role u) ;;
  None.

Definition Activate (now : Time) (u : t) : t * option error :=
  if IsActive u then (u, Some (New "user is already active"))
  else (set_UpdatedAt now (set_IsActive true u), None).

Definition Deactivate (now : Time) (u : t) : t * option error :=
  if negb (IsActive u) then (u, Some (New "user is already inactive"))
  else (set_UpdatedAt now (set_IsActive false u), None).

Definition UpdateRole (now : Time) (newRole : UserRole.t) (u : t)
  : t * option error :=
  if negb (UserRole.IsValid newRole)
  then (u, Some (New ("invalid user role: " ++ newRole)))
  else (set_UpdatedAt now (set_Role newRole u), None).

Definition UpdateEmail (now : Time) (newEmail : string) (u : t)
  : t * option error :=
  match validateUserEmail newEmail with
  | Some err => (u, Some (Wrap "invalid email" err))
  | None => (set_UpdatedAt now (set_Email newEmail u), None)
  end.

Definition HasPermission (u : t) (permission : string) : bool :=
  UserRole.HasPermission (Role u) permission.

Fixpoint HasAnyPermission (u : t) (permissions : list string) : bool :=
  match permissions with
  | [] => false
  | permission :: rest =>
      if HasPermission u permission then true
      else HasAnyPermission u rest
  end.

Fixpoint HasAllPermissions (u : t) (permissions : list string) : bool :=
  match permissions with
  | [] => true
  | permission :: rest =>
      if negb (HasPermission u permission) then false
      else HasAllPermissions u rest
  end.

Definition IsAdmin (u : t) : bool := (Role u =? UserRoleAdmin)%string.
Definition IsManager (u : t) : bool := (Role u =? UserRoleManager)%string.
Definition IsViewer (u : t) : bool := (Role u =? UserRoleViewer)%string.
Definition CanAccessSalary (u : t) : bool := UserRole.CanAccessSalary (Role u).
Definition CanManageUsers (u : t) : bool := UserRole.CanManageUsers (Role u).
Definition CanDeleteEmployees (u : t) : bool :=
  UserRole.CanDeleteEmployees (Role u).
Definition CanViewAuditLogs (u : t) : bool :=
  UserRole.CanViewAuditLogs (Role u).

(** The expiry is not looked at. *)
Definition ValidatePasswordResetToken (u : t) (token : string)
    (expiry : Z) : bool :=
  negb (is_empty token) && IsActive u.

(** [Clone] and [CloneWithPassword] on a non-nil receiver. *)
Definition Clone (u : t) : t :=
  let lastLogin :=
    match LastLogin u with
    | Some t => Some t
    | None => None
    end in
  {| ID := ID u; Username := Username u; Email := Email u;
     Password := ""; Role := Role u; IsActive := IsActive u;
     LastLogin := lastLogin; CreatedAt := CreatedAt u;
     UpdatedAt := UpdatedAt u |}.

Definition CloneWithPassword (u : t) : t :=
  let lastLogin :=
    match LastLogin u with
    | Some t => Some t
    | None => None
    end in
  {| ID := ID u; Username := Username u; Email := Email u;
     Password := Password u; Role := Role u; IsActive := IsActive u;
     LastLogin := lastLogin; CreatedAt := CreatedAt u;
     UpdatedAt := UpdatedAt u |}.

End methods.
End User.

(** ** Passwords *)

Section passwords.
Context `{GoRuntime} `{GoUnicode}.

(** The flags [hasUpper], [hasLower], [hasNumber] and [hasSpecial]. *)
Record PasswordClasses : Type := {
  hasUpper : bool;
  hasLower : bool;
  hasNumber : bool;
  hasSpecial : bool;
}.

(** The loop of [validatePasswordStrength] over the runes of the password:
    the [switch] takes the first case that holds. *)
Fixpoint password_classes (runes : list rune) (seen : PasswordClasses)
  : PasswordClasses :=
  match runes with
  | [] => seen
  | r :: rest =>
      if unicode_IsUpper r then
        password_classes rest
          {| hasUpper := true; hasLower := hasLower seen;
             hasNumber := hasNumber seen; hasSpecial := hasSpecial seen |}
      else if unicode_IsLower r then
        password_classes rest
          {| hasUpper := hasUpper seen; hasLower := true;
             hasNumber := hasNumber seen; hasSpecial := hasSpecial seen |}
      else if unicode_IsNumber r then
        password_classes rest
          {| hasUpper := hasUpper seen; hasLower := hasLower seen;
             hasNumber := true; hasSpecial := hasSpecial seen |}
      else if unicode_IsPunct r || unicode_IsSymbol r then
        password_classes rest
          {| hasUpper := hasUpper seen; hasLower := hasLower seen;
             hasNumber := hasNumber seen; hasSpecial := true |}
      else password_classes rest seen
  end.

Definition validatePasswordStrength (password : string) : option error :=
  when is_empty password fail New "password is required" ;;
  when (len password <? 8)%nat
    fail New "password must be at least 8 characters long" ;;
  when (128 <? len password)%nat
    fail New "password cannot exceed 128 characters" ;;
  let seen :=
    password_classes (utf8_runes password)
      {| hasUpper := false; hasLower := false; hasNumber := false;
         hasSpecial := false |} in
  when negb (hasUpper seen)
    fail New "password must contain at least one uppercase letter" ;;
  when negb (hasLower seen)
    fail New "password must contain at least one lowercase letter" ;;
  when negb (hasNumber seen)
    fail New "password must contain at least one number" ;;
  when negb (hasSpecial seen)
    fail New "password must contain at least one special character" ;;
  None.

(** [generated] is the result of
    [bcrypt.GenerateFromPassword([]byte(password), bcrypt.DefaultCost)],
    which salts the hash at random. *)
Definition HashPassword (generated : string * option error)
    (password : string) : string * option error :=
  match validatePasswordStrength password with
  | Some err => ("", Some err)
  | None =>
      match generated with
      | (_, Some err) =>
          ("", Some (Wrap "failed to generate password hash" err))
      | (hash, None) => (hash, None)
      end
  end.

(** [id] is the result of [uuid.New()] and [now] the reading of
    [time.Now()]. *)
Definition NewUser (id : UUID) (now : Time)
    (generated : string * option error)
    (username email password : string) (role : UserRole.t)
  : option User.t * option error :=
  let user :=
    {| User.ID := id; User.Username := username; User.Email := email;
       User.Password := ""; User.Role := role; User.IsActive := true;
       User.LastLogin := None; User.CreatedAt := now;
       User.UpdatedAt := now |} in
  match User.Validate user with
  | Some err => (None, Some err)
  | None =>
      match HashPassword generated password with
      | (_, Some err) => (None, Some (Wrap "failed to hash password" err))
      | (hashedPassword, None) =>
          (Some (User.set_Password hashedPassword user), None)
      end
  end.

Definition ChangePassword (now : Time) (generated : string * option error)
    (currentPassword newPassword : string) (u : User.t)
  : User.t * option error :=
  if negb (User.Authenticate u currentPassword)
  then (u, Some (New "current password is incorrect"))
  else
    match validatePasswordStrength newPassword with
    | Some err => (u, Some (Wrap "new password is too weak" err))
    | None =>
        match HashPassword generated newPassword with
        | (_, Some err) => (u, Some (Wrap "failed to hash new password" err))
        | (hashedPassword, None) =>
            (User.set_UpdatedAt now (User.set_Password hashedPassword u),
             None)
        end
    end.

Definition ResetPassword (now : Time) (generated : string * option error)
    (newPassword : string) (u : User.t) : User.t * option error :=
  match validatePasswordStrength newPassword with
  | Some err => (u, Some (Wrap "new password is too weak" err))
  | None =>
      match HashPassword generated newPassword with
      | (_, Some err) => (u, Some (Wrap "failed to hash new password" err))
      | (hashedPassword, None) =>
          (User.set_UpdatedAt now (User.set_Password hashedPassword u), None)
      end
  end.

End passwords.

(** ** Pagination *)

Module Pagination.

Record t : Type := {
  Page : int;
  PageSize : int;
  Cursor : option string;
}.

Definition NewPagination (page pageSize : int) : t :=
  let page := if (page <? 1)%Z then 1%Z else page in
  let pageSize := if (pageSize <? 1)%Z then 10%Z else pageSize in
  let pageSize := if (100 <? pageSize)%Z then 100%Z else pageSize in
  {| Page := page; PageSize := pageSize; Cursor := None |}.

(** A field that the composite literal leaves out holds zero. *)
Definition NewCursorPagination (pageSize : int) (cursor : string) : t :=
  {| Page := 0%Z; PageSize := pageSize; Cursor := Some cursor |}.

Definition GetOffset (p : t) : int :=
  match Cursor p with
  | Some _ => 0%Z
  | None => int_mul (int_sub (Page p) 1%Z) (PageSize p)
  end.

Definition IsCursorBased (p : t) : bool :=
  match Cursor p with Some _ => true | None => false end.

End Pagination.

(** ** Domain events *)

Module BaseDomainEvent.

Record t : Type := {
  ID : UUID;
  AggregateID : UUID;
  Type_ : string;
  Timestamp : Time;
  Version : Z;
  Data : gmap string Value;
}.

End BaseDomainEvent.

(** [id] is the result of [uuid.New()] and [now] the reading of
    [time.Now()]. *)
Definition NewBaseDomainEvent (id : UUID) (now : Time) (aggregateID : UUID)
    (eventType : string) (data : gmap string Value) : BaseDomainEvent.t :=
  {| BaseDomainEvent.ID := id;
     BaseDomainEvent.AggregateID := aggregateID;
     BaseDomainEvent.Type_ := eventType;
     BaseDomainEvent.Timestamp := now;
     BaseDomainEvent.Version := 1;
     BaseDomainEvent.Data := data |}.

(** The concrete event types behind the [DomainEvent] interface. An event
    that holds a [*Employee] holds the address of the employee. *)
Inductive DomainEvent : Type :=
  | EmployeeCreatedEvent (base : BaseDomainEvent.t) (Employee : loc)
  | EmployeeUpdatedEvent (base : BaseDomainEvent.t) (Employee : loc)
      (ChangedFields : list string)
  | EmployeeDeletedEvent (base : BaseDomainEvent.t) (EmployeeID : UUID)
      (OldData : gmap string Value)
  | EmployeeStatusChangedEvent (base : BaseDomainEvent.t) (EmployeeID : UUID)
      (OldStatus NewStatus : EmployeeStatus.t) (ChangedBy : string)
  | EmployeeSalaryChangedEvent (base : BaseDomainEvent.t) (EmployeeID : UUID)
      (OldSalary NewSalary : float) (ChangeType ChangedBy : string)
  | UserLoggedInEvent (base : BaseDomainEvent.t) (UserID : UUID)
      (Username IPAddress UserAgent : string)
  | AuditLogCreatedEvent (base : BaseDomainEvent.t) (AuditLog : AuditLog.t).

Definition event_base (event : DomainEvent) : BaseDomainEvent.t :=
  match event with
  | EmployeeCreatedEvent base _ => base
  | EmployeeUpdatedEvent base _ _ => base
  | EmployeeDeletedEvent base _ _ => base
  | EmployeeStatusChangedEvent base _ _ _ _ => base
  | EmployeeSalaryChangedEvent base _ _ _ _ _ => base
  | UserLoggedInEvent base _ _ _ _ => base
  | AuditLogCreatedEvent base _ => base
  end.

Definition GetType (event : DomainEvent) : string :=
  BaseDomainEvent.Type_ (event_base event).
Definition GetData (event : DomainEvent) : gmap string Value :=
  BaseDomainEvent.Data (event_base event).

Definition has_value {A} (o : option A) : bool :=
  match o with Some _ => true | None => false end.

Definition NewEmployeeCreatedEvent (id : UUID) (now : Time)
    (p : loc) (employee : Employee.t) : DomainEvent :=
  let data : gmap string Value :=
    <[ "employeeId" := VUUID (Employee.ID employee) ]> (
    <[ "firstName" := VString (Employee.FirstName employee) ]> (
    <[ "lastName" := VString (Employee.LastName employee) ]> (
    <[ "email" := VString (Employee.Email employee) ]> (
    <[ "department" := VString (Employee.Department employee) ]> (
    <[ "position" := VString (Employee.Position employee) ]> (
    <[ "salary" := VFloat64 (Employee.Salary employee) ]> (
    <[ "status" := VString (Employee.Status employee) ]> (
    <[ "hasManager" := VBool (has_value (Employee.ManagerID employee)) ]> (
    <[ "hasAddress" := VBool (has_value (Employee.Address employee)) ]>
    ∅))))))))) in
  EmployeeCreatedEvent
    (NewBaseDomainEvent id now (Employee.ID employee) "employee.created" data)
    p.

Definition NewEmployeeUpdatedEvent (id : UUID) (now : Time)
    (p : loc) (employee : Employee.t) (changedFields : list string)
  : DomainEvent :=
  let data : gmap string Value :=
    <[ "employeeId" := VUUID (Employee.ID employee) ]> (
    <[ "changedFields" := VStrings changedFields ]> (
    <[ "firstName" := VString (Employee.FirstName employee) ]> (
    <[ "lastName" := VString (Employee.LastName employee) ]> (
    <[ "email" := VString (Employee.Email employee) ]> (
    <[ "department" := VString (Employee.Department employee) ]> (
    <[ "position" := VString (Employee.Position employee) ]> (
    <[ "salary" := VFloat64 (Employee.Salary employee) ]> (
    <[ "status" := VString (Employee.Status employee) ]>
    ∅)))))))) in
  EmployeeUpdatedEvent
    (NewBaseDomainEvent id now (Employee.ID employee) "employee.updated" data)
    p changedFields.

Definition NewEmployeeDeletedEvent (id : UUID) (now : Time)
    (employeeID : UUID) (oldData : gmap string Value) : DomainEvent :=
  let data : gmap string Value :=
    <[ "employeeId" := VUUID employeeID ]> (
    <[ "oldData" := VMap oldData ]> ∅) in
  EmployeeDeletedEvent
    (NewBaseDomainEvent id now employeeID "employee.deleted" data)
    employeeID oldData.

Definition NewEmployeeStatusChangedEvent (id : UUID) (now : Time)
    (employeeID : UUID) (oldStatus newStatus : EmployeeStatus.t)
    (changedBy : string) : DomainEvent :=
  let data : gmap string Value :=
    <[ "employeeId" := VUUID employeeID ]> (
    <[ "oldStatus" := VString oldStatus ]> (
    <[ "newStatus" := VString newStatus ]> (
    <[ "changedBy" := VString changedBy ]> ∅))) in
  EmployeeStatusChangedEvent
    (NewBaseDomainEvent id now employeeID "employee.status_changed" data)
    employeeID oldStatus newStatus changedBy.

(** The quotient that [NewEmployeeSalaryChangedEvent] stores under
    [changePercent]. *)
Definition changePercent (oldSalary newSalary : float) : float :=
  (((newSalary - oldSalary) / oldSalary) * 100)%float.

Definition NewEmployeeSalaryChangedEvent (id : UUID) (now : Time)
    (employeeID : UUID) (oldSalary newSalary : float) (changedBy : string)
  : DomainEvent :=
  let changeType :=
    if (newSalary >? oldSalary)%float then "increase"
    else if (newSalary <? oldSalary)%float then "decrease"
    else "same" in
  let data : gmap string Value :=
    <[ "employeeId" := VUUID employeeID ]> (
    <[ "oldSalary" := VFloat64 oldSalary ]> (
    <[ "newSalary" := VFloat64 newSalary ]> (
    <[ "changeType" := VString changeType ]> (
    <[ "changeAmount" := VFloat64 (newSalary - oldSalary)%float ]> (
    <[ "changePercent" := VFloat64 (changePercent oldSalary newSalary) ]> (
    <[ "changedBy" := VString changedBy ]> ∅)))))) in
  EmployeeSalaryChangedEvent
    (NewBaseDomainEvent id now employeeID "employee.salary_changed" data)
    employeeID oldSalary newSalary changeType changedBy.

Definition NewUserLoggedInEvent (id : UUID) (now : Time) (userID : UUID)
    (username ipAddress userAgent : string) : DomainEvent :=
  let data : gmap string Value :=
    <[ "userId" := VUUID userID ]> (
    <[ "username" := VString username ]> (
    <[ "ipAddress" := VString ipAddress ]> (
    <[ "userAgent" := VString userAgent ]> ∅))) in
  UserLoggedInEvent
    (NewBaseDomainEvent id now userID "user.logged_in" data)
    userID username ipAddress userAgent.

(** The payload of [NewAuditLogCreatedEvent]; [auditLog] is the target of a
    non-nil pointer. Go builds the payload, which calls [GetChangedFields],
    before it builds the base event. *)
Definition auditLogCreatedData `{GoRuntime} (auditLog : AuditLog.t)
  : run (gmap string Value) :=
  run_bind (AuditLog.GetChangedFields auditLog) (λ changedFields,
    Done (<[ "auditLogId" := VUUID (AuditLog.ID auditLog) ]> (
          <[ "employeeId" := VUUID (AuditLog.EmployeeID auditLog) ]> (
          <[ "operation" := VString (AuditLog.Operation auditLog) ]> (
          <[ "userId" := VString (AuditLog.UserID auditLog) ]> (
          <[ "ipAddress" := VString (AuditLog.IPAddress auditLog) ]> (
          <[ "isCreation" := VBool (AuditLog.IsCreation auditLog) ]> (
          <[ "isDeletion" := VBool (AuditLog.IsDeletion auditLog) ]> (
          <[ "isUpdate" := VBool (AuditLog.IsUpdate auditLog) ]> (
          <[ "changedFields" := VStrings changedFields ]> ∅)))))))))).

(** ** Collaborators, the store and the trace *)

(** An [EventHandler] acts on the world [W] outside the domain layer;
    [CanHandle] is a query on the event type. [handler_name] stands for the
    identity of the handler object. *)
Record EventHandler (W : Type) : Type := {
  handler_name : string;
  Handle : DomainEvent → W → option error * W;
  CanHandle : string → bool;
}.
Arguments handler_name {W} _.
Arguments Handle {W} _ _ _.
Arguments CanHandle {W} _ _.

Record EventDispatcher (W : Type) : Type := {
  handlers : gmap string (list (EventHandler W));
}.
Arguments handlers {W} _.
Arguments Build_EventDispatcher {W} _.

(** The interfaces the services depend on: each method is an oracle that
    reads and changes the world. A Go result [(T, error)] is a pair. *)
Record Collaborators (W : Type) : Type := {
  time_Now : W → Time;
  uuid_New : W → UUID * W;
  employeeRepo_Create : Employee.t → W → option error * W;
  employeeRepo_GetByID : UUID → W → (option Employee.t * option error) * W;
  employeeRepo_Update : Employee.t → W → option error * W;
  employeeRepo_ExistsByEmail : string → W → (bool * option error) * W;
  employeeRepo_ExistsByID : UUID → W → (bool * option error) * W;
  auditRepo_Create : option AuditLog.t → W → option error * W;
  eventStore_SaveEvent : DomainEvent → W → option error * W;
  userRepo_FindByUsername : string → W → (option User.t * option error) * W;
  userRepo_UpdateLastLogin : UUID → W → option error * W;
}.
Arguments time_Now {W} _ _.
Arguments uuid_New {W} _ _.
Arguments employeeRepo_Create {W} _ _ _.
Arguments employeeRepo_GetByID {W} _ _ _.
Arguments employeeRepo_Update {W} _ _ _.
Arguments employeeRepo_ExistsByEmail {W} _ _ _.
Arguments employeeRepo_ExistsByID {W} _ _ _.
Arguments auditRepo_Create {W} _ _ _.
Arguments eventStore_SaveEvent {W} _ _ _.
Arguments userRepo_FindByUsername {W} _ _ _.
Arguments userRepo_UpdateLastLogin {W} _ _ _.

(** Further methods of the repositories, for the operations that delete
    employees and manage user accounts, and the source of the salted
    hashes. *)
Record Repositories (W : Type) : Type := {
  employeeRepo_Delete : UUID → W → option error * W;
  employeeRepo_FindByManagerID :
    UUID → W → (list Employee.t * option error) * W;
  userRepo_Create : User.t → W → option error * W;
  userRepo_GetByID : UUID → W → (option User.t * option error) * W;
  userRepo_Update : User.t → W → option error * W;
  userRepo_ExistsByUsername : string → W → (bool * option error) * W;
  userRepo_ExistsByEmail : string → W → (bool * option error) * W;
  (** [bcrypt.GenerateFromPassword(password, bcrypt.DefaultCost)] *)
  bcrypt_GenerateFromPassword : string → W → (string * option error) * W;
  (** [id.String()] *)
  uuid_String : UUID → string;
}.
Arguments employeeRepo_Delete {W} _ _ _.
Arguments employeeRepo_FindByManagerID {W} _ _ _.
Arguments userRepo_Create {W} _ _ _.
Arguments userRepo_GetByID {W} _ _ _.
Arguments userRepo_Update {W} _ _ _.
Arguments userRepo_ExistsByUsername {W} _ _ _.
Arguments userRepo_ExistsByEmail {W} _ _ _.
Arguments bcrypt_GenerateFromPassword {W} _ _ _.
Arguments uuid_String {W} _ _.

(** Writes to collaborators and warnings printed, in the order in which
    they happen, each with the error the collaborator returned. *)
Inductive Call : Type :=
  | EmployeeRepo_Create (employee : Employee.t) (err : option error)
  | EmployeeRepo_Update (employee : Employee.t) (err : option error)
  | AuditRepo_Create (auditLog : option AuditLog.t) (err : option error)
  | EventStore_SaveEvent (event : DomainEvent) (err : option error)
  | Handler_Handle (name : string) (event : DomainEvent) (err : option error)
  | UserRepo_UpdateLastLogin (id : UUID) (err : option error)
  | Printf (msg : string).

(** The state of one service call: the world of the collaborators, the
    employees and users that the call holds pointers to, and the trace. *)
Record State (W : Type) : Type := {
  world : W;
  employees : gmap loc Employee.t;
  users : gmap loc User.t;
  trace : list Call;
}.
Arguments world {W} _.
Arguments employees {W} _.
Arguments users {W} _.
Arguments trace {W} _.
Arguments Build_State {W} _ _ _ _.

Definition initial {W} (w : W) : State W :=
  {| world := w; employees := ∅; users := ∅; trace := [] |}.

Definition M (W A : Type) : Type := State W → run A * State W.

#[global] Instance M_ret {W} : MRet (M W) := λ A a s, (Done a, s).
#[global] Instance M_bind {W} : MBind (M W) := λ A B k m s,
  match m s with
  | (Done a, s') => k a s'
  | (Panic msg, s') => (Panic msg, s')
  end.

Definition nil_dereference : string :=
  "runtime error: invalid memory address or nil pointer dereference".

Section operations.
Context {W : Type}.

Definition panic {A} (msg : string) : M W A := λ s, (Panic msg, s).

Definition lift_run {A} (r : run A) : M W A := λ s, (r, s).

Definition call {A} (f : W → A * W) : M W A := λ s,
  let '(a, w) := f (world s) in
  (Done a, {| world := w; employees := employees s; users := users s;
              trace := trace s |}).

Definition read {A} (f : W → A) : M W A := λ s, (Done (f (world s)), s).

Definition log (c : Call) : M W unit := λ s,
  (Done tt, {| world := world s; employees := employees s; users := users s;
               trace := (trace s ++ [c])%list |}).

Definition alloc_employee (e : Employee.t) : M W loc := λ s,
  let p := fresh (dom (employees s)) in
  (Done p, {| world := world s; employees := <[ p := e ]> (employees s);
              users := users s; trace := trace s |}).

Definition load_employee (p : loc) : M W Employee.t := λ s,
  match employees s !! p with
  | Some e => (Done e, s)
  | None => (Panic nil_dereference, s)
  end.

Definition store_employee (p : loc) (e : Employee.t) : M W unit := λ s,
  (Done tt, {| world := world s; employees := <[ p := e ]> (employees s);
               users := users s; trace := trace s |}).

Definition alloc_user (u : User.t) : M W loc := λ s,
  let p := fresh (dom (users s)) in
  (Done p, {| world := world s; employees := employees s;
              users := <[ p := u ]> (users s); trace := trace s |}).

Definition load_user (p : loc) : M W User.t := λ s,
  match users s !! p with
  | Some u => (Done u, s)
  | None => (Panic nil_dereference, s)
  end.

Definition store_user (p : loc) (u : User.t) : M W unit := λ s,
  (Done tt, {| world := world s; employees := employees s;
               users := <[ p := u ]> (users s); trace := trace s |}).

(** [fmt.Printf("Warning: ...: %v\n", err)] when [err] is not nil. *)
Definition warn (what : string) (err : option error) : M W unit :=
  match err with
  | Some e => log (Printf ("Warning: " ++ what ++ ": " ++ Error e))
  | None => mret tt
  end.

(** ** EventDispatcher *)

Definition NewEventDispatcher : EventDispatcher W :=
  {| handlers := ∅ |}.

Definition RegisterHandler (d : EventDispatcher W) (eventType : string)
    (handler : EventHandler W) : EventDispatcher W :=
  {| handlers :=
       <[ eventType := (default [] (handlers d !! eventType) ++ [handler])%list ]>
         (handlers d) |}.

(** The loop of [Dispatch] over the handlers of the event type. *)
Fixpoint dispatch_loop (hs : list (EventHandler W)) (event : DomainEvent)
    (errs : list error) : M W (list error) :=
  match hs with
  | [] => mret errs
  | handler :: rest =>
      if CanHandle handler (GetType event) then
        err ← call (Handle handler event);
        _ ← log (Handler_Handle (handler_name handler) event err);
        match err with
        | Some e =>
            dispatch_loop rest event
              (errs ++ [Wrap ("handler failed for event " ++ GetType event) e])%list
        | None => dispatch_loop rest event errs
        end
      else dispatch_loop rest event errs
  end.

(** [fmt.Sprintf("%v", errs)] for a slice of errors. *)
Definition Sprint_errors (errs : list error) : string :=
  "[" ++ String.concat " " (Error <$> errs) ++ "]".

Definition Dispatch (d : EventDispatcher W) (event : DomainEvent)
  : M W (option error) :=
  match handlers d !! GetType event with
  | None => mret None
  | Some hs =>
      errs ← dispatch_loop hs event [];
      if (0 <? length errs)%nat
      then mret (Some (New ("event dispatch had " ++ pretty (length errs)
                            ++ " errors: " ++ Sprint_errors errs)))
      else mret None
  end.

End operations.

(** ** Calls to the collaborators shared by the services *)

Section calls.
Context {W : Type}.
Variable c : Collaborators W.

Definition auditRepo_Create_log (auditLog : option AuditLog.t)
  : M W (option error) :=
  err ← call (auditRepo_Create c auditLog);
  _ ← log (AuditRepo_Create auditLog err);
  mret err.

Definition eventStore_SaveEvent_log (event : DomainEvent)
  : M W (option error) :=
  err ← call (eventStore_SaveEvent c event);
  _ ← log (EventStore_SaveEvent event err);
  mret err.

(** An event constructor draws the identifier and the time stamp of the
    base event. *)
Definition new_event (mk : UUID → Time → DomainEvent) : M W DomainEvent :=
  id ← call (uuid_New c);
  now ← read (time_Now c);
  mret (mk id now).

End calls.

(** ** EmployeeService *)

Module EmployeeService.
Section service.
Context {W : Type} `{GoRuntime}.

(** The dependencies injected into the service. *)
Variable c : Collaborators W.
Variable eventDispatcher : EventDispatcher W.

(** A call of a pointer-receiver method on the employee at [p]: the method
    reads the clock, and the receiver is updated in place. *)
Definition method {R} (p : loc) (f : Time → Employee.t → Employee.t * R)
  : M W R :=
  e ← load_employee p;
  now ← read (time_Now c);
  let '(e', r) := f now e in
  _ ← store_employee p e';
  mret r.

(** A repository that returns a [*Employee] returns a pointer to an
    object of its own. *)
Definition employeeRepo_GetByID_ptr (id : UUID)
  : M W (option loc * option error) :=
  '(employee, err) ← call (employeeRepo_GetByID c id);
  match employee with
  | Some e => p ← alloc_employee e; mret (Some p, err)
  | None => mret (None, err)
  end.

Definition employeeRepo_Create_ptr (p : loc) : M W (option error) :=
  e ← load_employee p;
  err ← call (employeeRepo_Create c e);
  _ ← log (EmployeeRepo_Create e err);
  mret err.

Definition employeeRepo_Update_ptr (p : loc) : M W (option error) :=
  e ← load_employee p;
  err ← call (employeeRepo_Update c e);
  _ ← log (EmployeeRepo_Update e err);
  mret err.

Definition NewAuditLogCreatedEvent (auditLog : option AuditLog.t)
  : M W DomainEvent :=
  match auditLog with
  | None => panic nil_dereference
  | Some a =>
      data ← lift_run (auditLogCreatedData a);
      new_event c (λ id now,
        AuditLogCreatedEvent
          (NewBaseDomainEvent id now (AuditLog.ID a) "audit_log.created" data)
          a)
  end.

(** *** Validation methods *)

Definition validateEmployeeCreation (email : string)
    (managerID : option UUID) : M W (option error) :=
  '(exists_, err) ← call (employeeRepo_ExistsByEmail c email);
  match err with
  | Some e => mret (Some (Wrap "failed to check email uniqueness" e))
  | None =>
      if exists_ : bool then mret (Some ErrEmailAlreadyExists)
      else
        match managerID with
        | Some m =>
            '(exists_, err) ← call (employeeRepo_ExistsByID c m);
            match err with
            | Some e =>
                mret (Some (Wrap "failed to check manager existence" e))
            | None =>
                if negb exists_ then mret (Some ErrManagerNotFound)
                else mret None
            end
        | None => mret None
        end
  end.

Definition validate_manager (employee : Employee.t) : M W (option error) :=
  match Employee.ManagerID employee with
  | Some m =>
      '(exists_, err) ← call (employeeRepo_ExistsByID c m);
      match err with
      | Some e => mret (Some (Wrap "failed to check manager existence" e))
      | None =>
          if negb exists_ then mret (Some ErrManagerNotFound)
          else mret None
      end
  | None => mret None
  end.

Definition validateEmployeeUpdate (p : loc) : M W (option error) :=
  employee ← load_employee p;
  '(exists_, err) ← call (employeeRepo_ExistsByEmail c
                             (Employee.Email employee));
  match err with
  | Some e => mret (Some (Wrap "failed to check email uniqueness" e))
  | None =>
      if exists_ : bool then
        '(existing, err) ← employeeRepo_GetByID_ptr (Employee.ID employee);
        match err with
        | Some e => mret (Some (Wrap "failed to get existing employee" e))
        | None =>
            match existing with
            | None => mret (Some ErrEmailAlreadyExists)
            | Some q =>
                ex ← load_employee q;
                if negb (Employee.Email ex =? Employee.Email employee)%string
                then mret (Some ErrEmailAlreadyExists)
                else validate_manager employee
            end
        end
      else validate_manager employee
  end.

(** *** Helper methods *)

Definition createEmployeeSnapshot (employee : Employee.t)
  : gmap string Value :=
  let snapshot : gmap string Value :=
    <[ "id" := VUUID (Employee.ID employee) ]> (
    <[ "firstName" := VString (Employee.FirstName employee) ]> (
    <[ "lastName" := VString (Employee.LastName employee) ]> (
    <[ "email" := VString (Employee.Email employee) ]> (
    <[ "phone" := VString (Employee.Phone employee) ]> (
    <[ "department" := VString (Employee.Department employee) ]> (
    <[ "position" := VString (Employee.Position employee) ]> (
    <[ "hireDate" := VTime (Employee.HireDate employee) ]> (
    <[ "salary" := VFloat64 (Employee.Salary employee) ]> (
    <[ "status" := VString (Employee.Status employee) ]> (
    <[ "updatedAt" := VTime (Employee.UpdatedAt employee) ]> ∅)))))))))) in
  let snapshot :=
    match Employee.ManagerID employee with
    | Some m => <[ "managerId" := VUUID m ]> snapshot
    | None => snapshot
    end in
  match Employee.Address employee with
  | Some a =>
      <[ "address" := VMap (
           <[ "street" := VString (Address.Street a) ]> (
           <[ "city" := VString (Address.City a) ]> (
           <[ "state" := VString (Address.State a) ]> (
           <[ "postalCode" := VString (Address.PostalCode a) ]> (
           <[ "country" := VString (Address.Country a) ]> ∅))))) ]> snapshot
  | None => snapshot
  end.

(** [s, _ := data[key].(string)] *)
Definition string_at (data : gmap string Value) (key : string) : string :=
  match data !! key with
  | Some (VString s) => s
  | _ => ""
  end.

Definition parseAddress (data : gmap string Value)
  : option Address.t * option error :=
  Address.NewAddress (string_at data "street") (string_at data "city")
    (string_at data "state") (string_at data "postalCode")
    (string_at data "country").

(** The loop of [applyEmployeeUpdates] over the entries of the map: the
    contents of the employee after the loop, and the changed fields or the
    error that ended the loop early. *)
Fixpoint apply_updates (updates : list (string * Value))
    (employee : Employee.t) (changedFields : list string)
  : Employee.t * (list string * option error) :=
  match updates with
  | [] => (employee, (changedFields, None))
  | (field, value) :: rest =>
      if (field =? "firstName")%string then
        match value with
        | VString val =>
            apply_updates rest (Employee.set_FirstName val employee)
              (changedFields ++ ["firstName"])%list
        | _ => apply_updates rest employee changedFields
        end
      else if (field =? "lastName")%string then
        match value with
        | VString val =>
            apply_updates rest (Employee.set_LastName val employee)
              (changedFields ++ ["lastName"])%list
        | _ => apply_updates rest employee changedFields
        end
      else if (field =? "email")%string then
        match value with
        | VString val =>
            apply_updates rest (Employee.set_Email val employee)
              (changedFields ++ ["email"])%list
        | _ => apply_updates rest employee changedFields
        end
      else if (field =? "phone")%string then
        match value with
        | VString val =>
            apply_updates rest (Employee.set_Phone val employee)
              (changedFields ++ ["phone"])%list
        | _ => apply_updates rest employee changedFields
        end
      else if (field =? "department")%string then
        match value with
        | VString val =>
            apply_updates rest (Employee.set_Department val employee)
              (changedFields ++ ["department"])%list
        | _ => apply_updates rest employee changedFields
        end
      else if (field =? "position")%string then
        match value with
        | VString val =>
            apply_updates rest (Employee.set_Position val employee)
              (changedFields ++ ["position"])%list
        | _ => apply_updates rest employee changedFields
        end
      else if (field =? "salary")%string then
        match value with
        | VFloat64 val =>
            apply_updates rest (Employee.set_Salary val employee)
              (changedFields ++ ["salary"])%list
        | _ => apply_updates rest employee changedFields
        end
      else if (field =? "managerId")%string then
        match value with
        | VString val =>
            if is_empty val then
              apply_updates rest (Employee.set_ManagerID None employee)
                (changedFields ++ ["managerId"])%list
            else
              match uuid_Parse val with
              | (_, Some err) =>
                  (employee, ([], Some (Wrap "invalid manager ID" err)))
              | (id, None) =>
                  apply_updates rest
                    (Employee.set_ManagerID (Some id) employee)
                    (changedFields ++ ["managerId"])%list
              end
        | _ => apply_updates rest employee changedFields
        end
      else if (field =? "address")%string then
        match value with
        | VMap val =>
            match parseAddress val with
            | (_, Some err) =>
                (employee, ([], Some (Wrap "invalid address" err)))
            | (address, None) =>
                apply_updates rest (Employee.set_Address address employee)
                  (changedFields ++ ["address"])%list
            end
        | _ => apply_updates rest employee changedFields
        end
      else apply_updates rest employee changedFields
  end.

(** [applyEmployeeUpdates] mutates the employee it is given; as for the
    methods of the aggregate, the result carries the contents of the
    employee after the call. *)
Definition applyEmployeeUpdates (now : Time) (updates : gmap string Value)
    (employee : Employee.t) : Employee.t * (list string * option error) :=
  match apply_updates (map_to_list updates) employee [] with
  | (employee', (_, Some err)) => (employee', ([], Some err))
  | (employee', (changedFields, None)) =>
      (Employee.set_UpdatedAt now employee', (changedFields, None))
  end.

(** *** Audit log creation methods

    Each returns nil, after printing a warning, when [NewAuditLog] fails. *)

Definition new_audit_log (employeeID : UUID) (operation userID : string)
    (oldValues newValues : gmap string Value) (ipAddress userAgent : string)
  : M W (option AuditLog.t) :=
  id ← call (uuid_New c);
  now ← read (time_Now c);
  match AuditLog.NewAuditLog id now employeeID operation userID
          oldValues newValues ipAddress userAgent with
  | (_, Some err) =>
      _ ← warn "failed to create audit log" (Some err);
      mret None
  | (auditLog, None) => mret auditLog
  end.

Definition createAuditLogForCreation (p : loc)
    (userID ipAddress userAgent : string) : M W (option AuditLog.t) :=
  employee ← load_employee p;
  let newValues := createEmployeeSnapshot employee in
  new_audit_log (Employee.ID employee) OperationCreateEmployee userID
    ∅ newValues ipAddress userAgent.

Definition createAuditLogForUpdate (p : loc)
    (oldValues newValues : gmap string Value)
    (userID ipAddress userAgent : string) : M W (option AuditLog.t) :=
  employee ← load_employee p;
  new_audit_log (Employee.ID employee) OperationUpdateEmployee userID
    oldValues newValues ipAddress userAgent.

Definition createAuditLogForStatusChange (p : loc)
    (newStatus : EmployeeStatus.t) (userID ipAddress userAgent : string)
  : M W (option AuditLog.t) :=
  employee ← load_employee p;
  let oldValues : gmap string Value :=
    <[ "status" := VString (Employee.Status employee) ]> ∅ in
  let newValues : gmap string Value :=
    <[ "status" := VString newStatus ]> ∅ in
  new_audit_log (Employee.ID employee) OperationChangeStatus userID
    oldValues newValues ipAddress userAgent.

Definition createAuditLogForSalaryChange (p : loc)
    (oldSalary newSalary : float) (userID ipAddress userAgent : string)
  : M W (option AuditLog.t) :=
  employee ← load_employee p;
  let oldValues : gmap string Value :=
    <[ "salary" := VFloat64 oldSalary ]> ∅ in
  let newValues : gmap string Value :=
    <[ "salary" := VFloat64 newSalary ]> ∅ in
  new_audit_log (Employee.ID employee) OperationUpdateSalary userID
    oldValues newValues ipAddress userAgent.

(** *** Operations *)

(** [NewEmployee] called from the service: the employee is allocated. *)
Definition NewEmployee_ptr
    (firstName lastName email phone department position : string)
    (hireDate : Time) (salary : float)
    (managerID : option UUID) (address : option Address.t)
  : M W (option loc * option error) :=
  id ← call (uuid_New c);
  now ← read (time_Now c);
  match Employee.NewEmployee id now firstName lastName email phone
          department position hireDate salary managerID address with
  | (Some e, err) => p ← alloc_employee e; mret (Some p, err)
  | (None, err) => mret (None, err)
  end.

Definition CreateEmployee
    (firstName lastName email phone department position : string)
    (hireDate : Time) (salary : float)
    (managerID : option UUID) (address : option Address.t)
    (userID ipAddress userAgent : string)
  : M W (option loc * option error) :=
  err ← validateEmployeeCreation email managerID;
  match err with
  | Some e => mret (None, Some e)
  | None =>
  '(employee, err) ← NewEmployee_ptr firstName lastName email phone
                        department position hireDate salary managerID address;
  match employee, err with
  | _, Some e => mret (None, Some (Wrap "failed to create employee" e))
  | None, None => panic nil_dereference (* [NewEmployee] gives one of them *)
  | Some p, None =>
  err ← employeeRepo_Create_ptr p;
  match err with
  | Some e => mret (None, Some (Wrap "failed to save employee" e))
  | None =>
  auditLog ← createAuditLogForCreation p userID ipAddress userAgent;
  err ← auditRepo_Create_log c auditLog;
  _ ← warn "failed to create audit log" err;
  e ← load_employee p;
  event ← new_event c (λ id now, NewEmployeeCreatedEvent id now p e);
  err ← eventStore_SaveEvent_log c event;
  _ ← warn "failed to save event" err;
  err ← Dispatch eventDispatcher event;
  _ ← warn "failed to dispatch event" err;
  auditEvent ← NewAuditLogCreatedEvent auditLog;
  err ← eventStore_SaveEvent_log c auditEvent;
  _ ← warn "failed to save audit event" err;
  mret (Some p, None)
  end end end.

Definition UpdateEmployee (id : UUID) (updates : gmap string Value)
    (userID ipAddress userAgent : string)
  : M W (option loc * option error) :=
  '(employee, err) ← employeeRepo_GetByID_ptr id;
  match employee, err with
  | _, Some e => mret (None, Some (Wrap "failed to get employee" e))
  | None, None => mret (None, Some ErrEmployeeNotFound)
  | Some p, None =>
  e ← load_employee p;
  let oldValues := createEmployeeSnapshot e in
  '(changedFields, err) ← method p (λ now, applyEmployeeUpdates now updates);
  match err with
  | Some e => mret (None, Some e)
  | None =>
  err ← validateEmployeeUpdate p;
  match err with
  | Some e => mret (None, Some e)
  | None =>
  err ← employeeRepo_Update_ptr p;
  match err with
  | Some e => mret (None, Some (Wrap "failed to update employee" e))
  | None =>
  e ← load_employee p;
  let newValues := createEmployeeSnapshot e in
  auditLog ← createAuditLogForUpdate p oldValues newValues
               userID ipAddress userAgent;
  err ← auditRepo_Create_log c auditLog;
  _ ← warn "failed to create audit log" err;
  e ← load_employee p;
  event ← new_event c (λ id now, NewEmployeeUpdatedEvent id now p e
                                 changedFields);
  err ← eventStore_SaveEvent_log c event;
  _ ← warn "failed to save event" err;
  err ← Dispatch eventDispatcher event;
  _ ← warn "failed to dispatch event" err;
  mret (Some p, None)
  end end end end.

Definition ChangeEmployeeStatus (id : UUID) (newStatus : EmployeeStatus.t)
    (userID ipAddress userAgent : string)
  : M W (option loc * option error) :=
  '(employee, err) ← employeeRepo_GetByID_ptr id;
  match employee, err with
  | _, Some e => mret (None, Some (Wrap "failed to get employee" e))
  | None, None => mret (None, Some ErrEmployeeNotFound)
  | Some p, None =>
  err ← method p (λ now, Employee.ChangeStatus now newStatus);
  match err with
  | Some e => mret (None, Some e)
  | None =>
  err ← employeeRepo_Update_ptr p;
  match err with
  | Some e => mret (None, Some (Wrap "failed to update employee" e))
  | None =>
  auditLog ← createAuditLogForStatusChange p newStatus
               userID ipAddress userAgent;
  err ← auditRepo_Create_log c auditLog;
  _ ← warn "failed to create audit log" err;
  e ← load_employee p;
  event ← new_event c (λ eid now,
             NewEmployeeStatusChangedEvent eid now id (Employee.Status e)
               newStatus userID);
  err ← eventStore_SaveEvent_log c event;
  _ ← warn "failed to save event" err;
  err ← Dispatch eventDispatcher event;
  _ ← warn "failed to dispatch event" err;
  mret (Some p, None)
  end end end.

Definition UpdateEmployeeSalary (id : UUID) (newSalary : float)
    (userID ipAddress userAgent : string)
  : M W (option loc * option error) :=
  '(employee, err) ← employeeRepo_GetByID_ptr id;
  match employee, err with
  | _, Some e => mret (None, Some (Wrap "failed to get employee" e))
  | None, None => mret (None, Some ErrEmployeeNotFound)
  | Some p, None =>
  e ← load_employee p;
  let oldSalary := Employee.Salary e in
  err ← method p (λ now, Employee.UpdateSalary now newSalary);
  match err with
  | Some e => mret (None, Some e)
  | None =>
  err ← employeeRepo_Update_ptr p;
  match err with
  | Some e => mret (None, Some (Wrap "failed to update employee" e))
  | None =>
  auditLog ← createAuditLogForSalaryChange p oldSalary newSalary
               userID ipAddress userAgent;
  err ← auditRepo_Create_log c auditLog;
  _ ← warn "failed to create audit log" err;
  event ← new_event c (λ eid now,
             NewEmployeeSalaryChangedEvent eid now id oldSalary newSalary
               userID);
  err ← eventStore_SaveEvent_log c event;
  _ ← warn "failed to save event" err;
  err ← Dispatch eventDispatcher event;
  _ ← warn "failed to dispatch event" err;
  mret (Some p, None)
  end end end.

End service.

Section deletion.
Context {W : Type} `{GoRuntime}.

Variable c : Collaborators W.
Variable repos : Repositories W.
Variable eventDispatcher : EventDispatcher W.

Definition validateEmployeeDeletion (p : loc) : M W (option error) :=
  employee ← load_employee p;
  '(reports, err) ← call (employeeRepo_FindByManagerID repos
                            (Employee.ID employee));
  match err with
  | Some e => mret (Some (Wrap "failed to check for direct reports" e))
  | None =>
      if (0 <? length reports)%nat then mret (Some ErrEmployeeHasDirectReports)
      else mret None
  end.

Definition createAuditLogForDeletion (p : loc)
    (oldValues : gmap string Value)
    (userID ipAddress userAgent : string) : M W (option AuditLog.t) :=
  employee ← load_employee p;
  new_audit_log c (Employee.ID employee) OperationDeleteEmployee userID
    oldValues ∅ ipAddress userAgent.

Definition DeleteEmployee (id : UUID) (userID ipAddress userAgent : string)
  : M W (option error) :=
  '(employee, err) ← employeeRepo_GetByID_ptr c id;
  match employee, err with
  | _, Some e => mret (Some (Wrap "failed to get employee" e))
  | None, None => mret (Some ErrEmployeeNotFound)
  | Some p, None =>
  err ← validateEmployeeDeletion p;
  match err with
  | Some e => mret (Some e)
  | None =>
  e ← load_employee p;
  let oldValues := createEmployeeSnapshot e in
  err ← call (employeeRepo_Delete repos id);
  match err with
  | Some e => mret (Some (Wrap "failed to delete employee" e))
  | None =>
  auditLog ← createAuditLogForDeletion p oldValues userID ipAddress userAgent;
  err ← auditRepo_Create_log c auditLog;
  _ ← warn "failed to create audit log" err;
  event ← new_event c (λ eid now,
             NewEmployeeDeletedEvent eid now id oldValues);
  err ← eventStore_SaveEvent_log c event;
  _ ← warn "failed to save event" err;
  err ← Dispatch eventDispatcher event;
  _ ← warn "failed to dispatch event" err;
  mret None
  end end end.

End deletion.
End EmployeeService.

(** ** UserService *)

Module UserService.
Section service.
Context {W : Type} `{GoRuntime}.

Variable c : Collaborators W.
Variable eventDispatcher : EventDispatcher W.

Definition userRepo_FindByUsername_ptr (username : string)
  : M W (option loc * option error) :=
  '(user, err) ← call (userRepo_FindByUsername c username);
  match user with
  | Some u => p ← alloc_user u; mret (Some p, err)
  | None => mret (None, err)
  end.

Definition AuthenticateUser (username password ipAddress userAgent : string)
  : M W (option loc * option error) :=
  '(user, err) ← userRepo_FindByUsername_ptr username;
  match user, err with
  | _, Some e => mret (None, Some (Wrap "failed to find user" e))
  | None, None => mret (None, Some ErrInvalidCredentials)
  | Some p, None =>
  u ← load_user p;
  if negb (User.IsActive u) then mret (None, Some ErrUserNotActive)
  else if negb (User.Authenticate u password)
  then mret (None, Some ErrInvalidCredentials)
  else
  now ← read (time_Now c);
  _ ← store_user p (User.UpdateLastLogin now u);
  u ← load_user p;
  err ← call (userRepo_UpdateLastLogin c (User.ID u));
  _ ← log (UserRepo_UpdateLastLogin (User.ID u) err);
  _ ← warn "failed to update last login" err;
  event ← new_event c (λ id now,
             NewUserLoggedInEvent id now (User.ID u) username
               ipAddress userAgent);
  err ← eventStore_SaveEvent_log c event;
  _ ← warn "failed to save event" err;
  err ← Dispatch eventDispatcher event;
  _ ← warn "failed to dispatch event" err;
  mret (Some p, None)
  end.

End service.

Section accounts.
Context {W : Type} `{GoRuntime} `{GoUnicode}.

Variable c : Collaborators W.
Variable repos : Repositories W.
Variable eventDispatcher : EventDispatcher W.

(** A call of a pointer-receiver method on the user at [p]. *)
Definition user_method {R} (p : loc) (f : Time → User.t → User.t * R)
  : M W R :=
  u ← load_user p;
  now ← read (time_Now c);
  let '(u', r) := f now u in
  _ ← store_user p u';
  mret r.

Definition userRepo_GetByID_ptr (id : UUID)
  : M W (option loc * option error) :=
  '(user, err) ← call (userRepo_GetByID repos id);
  match user with
  | Some u => p ← alloc_user u; mret (Some p, err)
  | None => mret (None, err)
  end.

Definition userRepo_Create_ptr (p : loc) : M W (option error) :=
  u ← load_user p;
  call (userRepo_Create repos u).

Definition userRepo_Update_ptr (p : loc) : M W (option error) :=
  u ← load_user p;
  call (userRepo_Update repos u).

(** [NewUser] called from the service: it draws the identifier and reads
    the clock, and asks bcrypt for a hash only once the fields and the
    password have passed validation; the user is allocated. *)
Definition NewUser_ptr (username email password : string)
    (role : UserRole.t) : M W (option loc * option error) :=
  id ← call (uuid_New c);
  now ← read (time_Now c);
  let user :=
    {| User.ID := id; User.Username := username; User.Email := email;
       User.Password := ""; User.Role := role; User.IsActive := true;
       User.LastLogin := None; User.CreatedAt := now;
       User.UpdatedAt := now |} in
  generated ←
    match User.Validate user, validatePasswordStrength password with
    | None, None => call (bcrypt_GenerateFromPassword repos password)
    | _, _ => mret ("", None)
    end;
  match NewUser id now generated username email password role with
  | (Some u, err) => p ← alloc_user u; mret (Some p, err)
  | (None, err) => mret (None, err)
  end.

(** *** Validation methods *)

Definition validateUserCreation (username email : string)
  : M W (option error) :=
  '(exists_, err) ← call (userRepo_ExistsByUsername repos username);
  match err with
  | Some e => mret (Some (Wrap "failed to check username uniqueness" e))
  | None =>
      if exists_ : bool then mret (Some ErrUsernameAlreadyExists)
      else
        '(exists_, err) ← call (userRepo_ExistsByEmail repos email);
        match err with
        | Some e => mret (Some (Wrap "failed to check email uniqueness" e))
        | None =>
            if exists_ : bool then mret (Some ErrEmailAlreadyExists)
            else mret None
        end
  end.

Definition validate_user_email (p : loc) : M W (option error) :=
  user ← load_user p;
  '(exists_, err) ← call (userRepo_ExistsByEmail repos (User.Email user));
  match err with
  | Some e => mret (Some (Wrap "failed to check email uniqueness" e))
  | None =>
      if exists_ : bool then
        '(existing, err) ← userRepo_GetByID_ptr (User.ID user);
        match err with
        | Some e => mret (Some (Wrap "failed to get existing user" e))
        | None =>
            match existing with
            | None => mret (Some ErrEmailAlreadyExists)
            | Some q =>
                ex ← load_user q;
                if negb (User.Email ex =? User.Email user)%string
                then mret (Some ErrEmailAlreadyExists)
                else mret None
            end
        end
      else mret None
  end.

Definition validateUserUpdate (p : loc) : M W (option error) :=
  user ← load_user p;
  '(exists_, err) ← call (userRepo_ExistsByUsername repos
                             (User.Username user));
  match err with
  | Some e => mret (Some (Wrap "failed to check username uniqueness" e))
  | None =>
      if exists_ : bool then
        '(existing, err) ← userRepo_GetByID_ptr (User.ID user);
        match err with
        | Some e => mret (Some (Wrap "failed to get existing user" e))
        | None =>
            match existing with
            | None => mret (Some ErrUsernameAlreadyExists)
            | Some q =>
                ex ← load_user q;
                if negb (User.Username ex =? User.Username user)%string
                then mret (Some ErrUsernameAlreadyExists)
                else validate_user_email p
            end
        end
      else validate_user_email p
  end.

(** *** Helper methods *)

(** The loop of [applyUserUpdates] over the entries of the map. *)
Fixpoint apply_user_updates (updates : list (string * Value))
    (user : User.t) (changedFields : list string)
  : User.t * (list string * option error) :=
  match updates with
  | [] => (user, (changedFields, None))
  | (field, value) :: rest =>
      if (field =? "username")%string then
        match value with
        | VString val =>
            apply_user_updates rest (User.set_Username val user)
              (changedFields ++ ["username"])%list
        | _ => apply_user_updates rest user changedFields
        end
      else if (field =? "email")%string then
        match value with
        | VString val =>
            apply_user_updates rest (User.set_Email val user)
              (changedFields ++ ["email"])%list
        | _ => apply_user_updates rest user changedFields
        end
      else if (field =? "role")%string then
        match value with
        | VString val =>
            match UserRole.ParseUserRole val with
            | (_, Some err) => (user, ([], Some (Wrap "invalid role" err)))
            | (role, None) =>
                apply_user_updates rest (User.set_Role role user)
                  (changedFields ++ ["role"])%list
            end
        | _ => apply_user_updates rest user changedFields
        end
      else apply_user_updates rest user changedFields
  end.

Definition applyUserUpdates (now : Time) (updates : gmap string Value)
    (user : User.t) : User.t * (list string * option error) :=
  match apply_user_updates (map_to_list updates) user [] with
  | (user', (_, Some err)) => (user', ([], Some err))
  | (user', (changedFields, None)) =>
      (User.set_UpdatedAt now user', (changedFields, None))
  end.

(** *** Audit log creation methods *)

(** The audit log of a creation is filed under an identifier of its own,
    drawn before [NewAuditLog] draws the identifier of the log. *)
Definition createAuditLogForUserCreation (p : loc)
    (userID ipAddress userAgent : string) : M W (option AuditLog.t) :=
  user ← load_user p;
  let newValues : gmap string Value :=
    <[ "id" := VUUID (User.ID user) ]> (
    <[ "username" := VString (User.Username user) ]> (
    <[ "email" := VString (User.Email user) ]> (
    <[ "role" := VString (User.Role user) ]> (
    <[ "isActive" := VBool (User.IsActive user) ]> (
    <[ "createdAt" := VTime (User.CreatedAt user) ]> ∅))))) in
  employeeID ← call (uuid_New c);
  EmployeeService.new_audit_log c employeeID OperationCreateUser userID
    ∅ newValues ipAddress userAgent.

(** The changed fields are not looked at. *)
Definition createAuditLogForUserUpdate (p : loc)
    (changedFields : list string) (ipAddress userAgent : string)
  : M W (option AuditLog.t) :=
  user ← load_user p;
  let newValues : gmap string Value :=
    <[ "username" := VString (User.Username user) ]> (
    <[ "email" := VString (User.Email user) ]> (
    <[ "role" := VString (User.Role user) ]> (
    <[ "isActive" := VBool (User.IsActive user) ]> (
    <[ "updatedAt" := VTime (User.UpdatedAt user) ]> ∅)))) in
  EmployeeService.new_audit_log c (User.ID user) OperationUpdateUser
    (uuid_String repos (User.ID user)) ∅ newValues ipAddress userAgent.

Definition createAuditLogForUserDeactivation (p : loc)
    (adminID ipAddress userAgent : string) : M W (option AuditLog.t) :=
  user ← load_user p;
  let oldValues : gmap string Value := <[ "isActive" := VBool true ]> ∅ in
  let newValues : gmap string Value := <[ "isActive" := VBool false ]> ∅ in
  EmployeeService.new_audit_log c (User.ID user) OperationUpdateUser adminID
    oldValues newValues ipAddress userAgent.

Definition createAuditLogForUserActivation (p : loc)
    (adminID ipAddress userAgent : string) : M W (option AuditLog.t) :=
  user ← load_user p;
  let oldValues : gmap string Value := <[ "isActive" := VBool false ]> ∅ in
  let newValues : gmap string Value := <[ "isActive" := VBool true ]> ∅ in
  EmployeeService.new_audit_log c (User.ID user) OperationUpdateUser adminID
    oldValues newValues ipAddress userAgent.

(** *** Operations *)

Definition CreateUser (username email password : string)
    (role : UserRole.t) (userID ipAddress userAgent : string)
  : M W (option loc * option error) :=
  err ← validateUserCreation username email;
  match err with
  | Some e => mret (None, Some e)
  | None =>
  '(user, err) ← NewUser_ptr username email password role;
  match user, err with
  | _, Some e => mret (None, Some (Wrap "failed to create user" e))
  | None, None => panic nil_dereference (* [NewUser] gives one of them *)
  | Some p, None =>
  err ← userRepo_Create_ptr p;
  match err with
  | Some e => mret (None, Some (Wrap "failed to save user" e))
  | None =>
  auditLog ← createAuditLogForUserCreation p userID ipAddress userAgent;
  err ← auditRepo_Create_log c auditLog;
  _ ← warn "failed to create audit log" err;
  u ← load_user p;
  event ← new_event c (λ id now,
             NewUserLoggedInEvent id now (User.ID u) username
               ipAddress userAgent);
  err ← eventStore_SaveEvent_log c event;
  _ ← warn "failed to save event" err;
  err ← Dispatch eventDispatcher event;
  _ ← warn "failed to dispatch event" err;
  mret (Some p, None)
  end end end.

Definition UpdateUserProfile (userID : UUID) (updates : gmap string Value)
    (ipAddress userAgent : string) : M W (option loc * option error) :=
  '(user, err) ← userRepo_GetByID_ptr userID;
  match user, err with
  | _, Some e => mret (None, Some (Wrap "failed to get user" e))
  | None, None => mret (None, Some ErrUserNotFound)
  | Some p, None =>
  '(changedFields, err) ← user_method p (λ now, applyUserUpdates now updates);
  match err with
  | Some e => mret (None, Some e)
  | None =>
  err ← validateUserUpdate p;
  match err with
  | Some e => mret (None, Some e)
  | None =>
  err ← userRepo_Update_ptr p;
  match err with
  | Some e => mret (None, Some (Wrap "failed to update user" e))
  | None =>
  auditLog ← createAuditLogForUserUpdate p changedFields ipAddress userAgent;
  err ← auditRepo_Create_log c auditLog;
  _ ← warn "failed to create audit log" err;
  mret (Some p, None)
  end end end end.

Definition DeactivateUser (userID : UUID)
    (adminID ipAddress userAgent : string) : M W (option error) :=
  '(user, err) ← userRepo_GetByID_ptr userID;
  match user, err with
  | _, Some e => mret (Some (Wrap "failed to get user" e))
  | None, None => mret (Some ErrUserNotFound)
  | Some p, None =>
  err ← user_method p User.Deactivate;
  match err with
  | Some e => mret (Some e)
  | None =>
  err ← userRepo_Update_ptr p;
  match err with
  | Some e => mret (Some (Wrap "failed to update user" e))
  | None =>
  auditLog ← createAuditLogForUserDeactivation p adminID ipAddress userAgent;
  err ← auditRepo_Create_log c auditLog;
  _ ← warn "failed to create audit log" err;
  mret None
  end end end.

Definition ActivateUser (userID : UUID)
    (adminID ipAddress userAgent : string) : M W (option error) :=
  '(user, err) ← userRepo_GetByID_ptr userID;
  match user, err with
  | _, Some e => mret (Some (Wrap "failed to get user" e))
  | None, None => mret (Some ErrUserNotFound)
  | Some p, None =>
  err ← user_method p User.Activate;
  match err with
  | Some e => mret (Some e)
  | None =>
  err ← userRepo_Update_ptr p;
  match err with
  | Some e => mret (Some (Wrap "failed to update user" e))
  | None =>
  auditLog ← createAuditLogForUserActivation p adminID ipAddress userAgent;
  err ← auditRepo_Create_log c auditLog;
  _ ← warn "failed to create audit log" err;
  mret None
  end end end.

End accounts.
End UserService.

(** ** A stand-in for the Go packages, to run the definitions on examples

    It agrees with the Go standard library on ASCII text and on UTC
    instants; identifiers are parsed in their canonical form only, and
    [testing_hash] stands for a bcrypt hash. *)

Module Testing.

Definition ascii_runes (s : string) : list rune :=
  rune_of <$> String.list_ascii_of_string s.

Definition ascii_IsLetter (r : rune) : bool :=
  ((rune_of "a" <=? r)%Z && (r <=? rune_of "z")%Z)
  || ((rune_of "A" <=? r)%Z && (r <=? rune_of "Z")%Z).

Definition ascii_IsSpace (r : rune) : bool :=
  ((9 <=? r)%Z && (r <=? 13)%Z) || (r =? 32)%Z.

Definition byte_is_space (a : ascii) : bool := ascii_IsSpace (rune_of a).

Fixpoint trim_left (s : string) : string :=
  match s with
  | String a s' => if byte_is_space a then trim_left s' else s
  | EmptyString => EmptyString
  end.

Fixpoint trim_right (s : string) : string :=
  match s with
  | String a s' =>
      match trim_right s' with
      | EmptyString => if byte_is_space a then EmptyString
                       else String a EmptyString
      | rest => String a rest
      end
  | EmptyString => EmptyString
  end.

Definition ascii_TrimSpace (s : string) : string := trim_right (trim_left s).

Definition byte_upper (a : ascii) : ascii :=
  if Regexp.lower a then ascii_of_nat (nat_of_ascii a - 32) else a.

Fixpoint ascii_ToUpper (s : string) : string :=
  match s with
  | String a s' => String (byte_upper a) (ascii_ToUpper s')
  | EmptyString => EmptyString
  end.

(** The proleptic Gregorian calendar: days since 1970-01-01 of a civil
    date, and back. *)
Definition days_from_civil (y m d : Z) : Z :=
  let y := (if (m <=? 2)%Z then y - 1 else y)%Z in
  let era := (y `div` 400)%Z in
  let yoe := (y - era * 400)%Z in
  let mp := ((m + 9) `mod` 12)%Z in
  let doy := ((153 * mp + 2) `div` 5 + d - 1)%Z in
  let doe := (yoe * 365 + yoe `div` 4 - yoe `div` 100 + doy)%Z in
  (era * 146097 + doe - 719468)%Z.

Definition civil_from_days (z : Z) : Z * Z * Z :=
  let z := (z + 719468)%Z in
  let era := (z `div` 146097)%Z in
  let doe := (z - era * 146097)%Z in
  let yoe := ((doe - doe `div` 1460 + doe `div` 36524 - doe `div` 146096)
                `div` 365)%Z in
  let y := (yoe + era * 400)%Z in
  let doy := (doe - (365 * yoe + yoe `div` 4 - yoe `div` 100))%Z in
  let mp := ((5 * doy + 2) `div` 153)%Z in
  let d := (doy - (153 * mp + 2) `div` 5 + 1)%Z in
  let m := (if (mp <? 10)%Z then mp + 3 else mp - 9)%Z in
  ((if (m <=? 2)%Z then y + 1 else y)%Z, m, d).

Definition nanoseconds_per_day : Z := 86400 * 1000000000.
Definition days_to_1970 : Z := 719162.

(** The instant of 00:00 UTC on a civil date. *)
Definition Date (y m d : Z) : Time :=
  ((days_from_civil y m d + days_to_1970) * nanoseconds_per_day)%Z.

Definition utc_AddDate (t : Time) (years months days : Z) : Time :=
  let day := (t `div` nanoseconds_per_day)%Z in
  let rest := (t `mod` nanoseconds_per_day)%Z in
  let '(y, m, d) := civil_from_days (day - days_to_1970) in
  let m0 := (m + months - 1)%Z in
  let y' := (y + years + m0 `div` 12)%Z in
  let m' := (m0 `mod` 12 + 1)%Z in
  ((days_from_civil y' m' 1 + (d + days - 1) + days_to_1970)
     * nanoseconds_per_day + rest)%Z.

Definition hex_digit (a : ascii) : option N :=
  if Regexp.digit a then Some (N_of_ascii a - 48)%N
  else if Regexp.range "a" "f" a then Some (N_of_ascii a - 87)%N
  else if Regexp.range "A" "F" a then Some (N_of_ascii a - 55)%N
  else None.

Fixpoint parse_hex (s : list ascii) (pos : nat) (acc : N) : option N :=
  match s with
  | [] => Some acc
  | a :: rest =>
      if (pos =? 8)%nat || (pos =? 13)%nat || (pos =? 18)%nat
         || (pos =? 23)%nat
      then if Ascii.eqb a "-" then parse_hex rest (S pos) acc else None
      else match hex_digit a with
           | Some h => parse_hex rest (S pos) (acc * 16 + h)%N
           | None => None
           end
  end.

Definition canonical_Parse (s : string) : UUID * option error :=
  if negb (len s =? 36)%nat
  then (uuid_Nil, Some (New ("invalid UUID length: " ++ pretty (len s))))
  else match parse_hex (String.list_ascii_of_string s) 0 0%N with
       | Some u => (u, None)
       | None => (uuid_Nil, Some (New "invalid UUID format"))
       end.

Definition testing_hash (password : string) : string :=
  "$2a$10$" ++ password.

Definition testing_matches (hash password : string) : bool :=
  (hash =? testing_hash password)%string.

Definition print_float (f : float) : string :=
  match Prim2SF f with
  | S754_zero false => "0"
  | S754_zero true => "-0"
  | S754_infinity false => "+Inf"
  | S754_infinity true => "-Inf"
  | S754_nan => "NaN"
  | S754_finite sign m e =>
      (if sign then "-" else "") ++ pretty (Npos m) ++ "p" ++ pretty e
  end.

Definition testing_Sprint (a : Value) : string :=
  match a with
  | VNil => "<nil>"
  | VString s => s
  | VBool b => if b then "true" else "false"
  | VFloat64 f => print_float f
  | VUUID u => pretty u
  | VTime t => pretty t
  | VStrings l => "[" ++ String.concat " " l ++ "]"
  | VMap m => "map[" ++ String.concat " " ((map_to_list m).*1) ++ "]"
  end.

Definition runtime : GoRuntime :=
  {| utf8_runes := ascii_runes;
     unicode_IsLetter := ascii_IsLetter;
     unicode_IsSpace := ascii_IsSpace;
     strings_TrimSpace := ascii_TrimSpace;
     strings_ToUpper := ascii_ToUpper;
     time_AddDate := utc_AddDate;
     uuid_Parse := canonical_Parse;
     bcrypt_matches := testing_matches;
     fmt_Sprint := testing_Sprint |}.

(** A world for examples: the world is the last identifier drawn; the
    repositories answer from a fixed script. *)
Record Script : Type := {
  clock : Time;
  stored_employee : option Employee.t;
  stored_user : option User.t;
  email_taken : bool;
  audit_error : option error;
  event_store_error : option error;
}.

Definition collaborators (sc : Script) : Collaborators N :=
  {| time_Now := λ _, clock sc;
     uuid_New := λ w, ((w + 1)%N, (w + 1)%N);
     employeeRepo_Create := λ _ w, (None, w);
     employeeRepo_GetByID := λ _ w, ((stored_employee sc, None), w);
     employeeRepo_Update := λ _ w, (None, w);
     employeeRepo_ExistsByEmail := λ _ w, ((email_taken sc, None), w);
     employeeRepo_ExistsByID := λ _ w, ((true, None), w);
     auditRepo_Create := λ _ w, (audit_error sc, w);
     eventStore_SaveEvent := λ _ w, (event_store_error sc, w);
     userRepo_FindByUsername := λ _ w, ((stored_user sc, None), w);
     userRepo_UpdateLastLogin := λ _ w, (None, w) |}.

Definition failing_handler (name : string) : EventHandler N :=
  {| handler_name := name;
     Handle := λ _ w, (Some (New (name ++ " is down")), w);
     CanHandle := λ _, true |}.

Definition working_handler (name : string) : EventHandler N :=
  {| handler_name := name;
     Handle := λ _ w, (None, w);
     CanHandle := λ _, true |}.

Definition deaf_handler (name : string) : EventHandler N :=
  {| handler_name := name;
     Handle := λ _ w, (Some (New (name ++ " must not be called")), w);
     CanHandle := λ _, false |}.

(** 2024-06-01 12:00 UTC *)
Definition noon : Time :=
  (Date 2024 6 1 + 12 * 3600 * 1000000000)%Z.

Definition john : Employee.t :=
  {| Employee.ID := 7%N;
     Employee.FirstName := "John";
     Employee.LastName := "Doe";
     Employee.Email := "john.doe@example.com";
     Employee.Phone := "555-123-4567";
     Employee.Department := "Engineering";
     Employee.Position := "Software Engineer";
     Employee.HireDate := Date 2020 3 1;
     Employee.Salary := 75000%float;
     Employee.Status := EmployeeStatusActive;
     Employee.ManagerID := None;
     Employee.Address :=
       Some {| Address.Street := "123 Main St"; Address.City := "Anytown";
               Address.State := "CA"; Address.PostalCode := "12345";
               Address.Country := "USA" |};
     Employee.CreatedAt := Date 2020 3 1;
     Employee.UpdatedAt := Date 2020 3 1 |}.

Definition jane : User.t :=
  {| User.ID := 9%N;
     User.Username := "janedoe";
     User.Email := "jane.doe@example.com";
     User.Password := testing_hash "SecurePassword123!";
     User.Role := "VIEWER";
     User.IsActive := true;
     User.LastLogin := None;
     User.CreatedAt := Date 2023 1 1;
     User.UpdatedAt := Date 2023 1 1 |}.

Definition script : Script :=
  {| clock := noon;
     stored_employee := Some john;
     stored_user := Some jane;
     email_taken := false;
     audit_error := None;
     event_store_error := None |}.

(** Jane after her account has been deactivated. *)
Definition deactivated_jane : User.t :=
  {| User.ID := User.ID jane;
     User.Username := User.Username jane;
     User.Email := User.Email jane;
     User.Password := User.Password jane;
     User.Role := User.Role jane;
     User.IsActive := false;
     User.LastLogin := None;
     User.CreatedAt := User.CreatedAt jane;
     User.UpdatedAt := User.UpdatedAt jane |}.

Definition script_after_deactivation : Script :=
  {| clock := noon;
     stored_employee := Some john;
     stored_user := Some deactivated_jane;
     email_taken := false;
     audit_error := None;
     event_store_error := None |}.

(** A script in which the audit repository and the event store fail. *)
Definition script_with_failures : Script :=
  {| clock := noon;
     stored_employee := Some john;
     stored_user := Some jane;
     email_taken := false;
     audit_error := Some (New "audit store is down");
     event_store_error := Some (New "event store is down") |}.

(** A dispatcher with three handlers for created employees, of which one
    fails and one does not take the event, and one failing handler for
    status changes. *)
Definition dispatcher : EventDispatcher N :=
  RegisterHandler
    (RegisterHandler
       (RegisterHandler
          (RegisterHandler NewEventDispatcher
             "employee.created" (failing_handler "mailer"))
          "employee.created" (deaf_handler "archiver"))
       "employee.created" (working_handler "indexer"))
    "employee.status_changed" (failing_handler "payroll").

(** A partial update that sets a negative salary. *)
Definition pay_cut : gmap string Value :=
  <[ "salary" := VFloat64 (-5) ]> ∅.

(** The audit log that [UpdateEmployee] builds when john gets a raise: the
    snapshots of the employee before and after the update. *)
Definition raise_log : AuditLog.t :=
  {| AuditLog.ID := 21%N;
     AuditLog.EmployeeID := Employee.ID john;
     AuditLog.Operation := OperationUpdateEmployee;
     AuditLog.UserID := "admin";
     AuditLog.Timestamp := noon;
     AuditLog.OldValues := EmployeeService.createEmployeeSnapshot john;
     AuditLog.NewValues :=
       EmployeeService.createEmployeeSnapshot
         (Employee.set_Salary 80000 john);
     AuditLog.IPAddress := "192.168.1.1";
     AuditLog.UserAgent := "Mozilla/5.0" |}.

(** The audit log of the change detection test of the package. *)
Definition salary_log : AuditLog.t :=
  {| AuditLog.ID := 22%N;
     AuditLog.EmployeeID := Employee.ID john;
     AuditLog.Operation := OperationUpdateSalary;
     AuditLog.UserID := "admin";
     AuditLog.Timestamp := noon;
     AuditLog.OldValues :=
       <[ "salary" := VFloat64 50000 ]> (
       <[ "status" := VString "ACTIVE" ]> ∅);
     AuditLog.NewValues :=
       <[ "salary" := VFloat64 60000 ]> (
       <[ "status" := VString "ACTIVE" ]> ∅);
     AuditLog.IPAddress := "192.168.1.1";
     AuditLog.UserAgent := "Mozilla/5.0" |}.

(** The ASCII part of the tables of package [unicode]. *)
Definition ascii_IsUpper (r : rune) : bool :=
  (rune_of "A" <=? r)%Z && (r <=? rune_of "Z")%Z.

Definition ascii_IsLower (r : rune) : bool :=
  (rune_of "a" <=? r)%Z && (r <=? rune_of "z")%Z.

Definition ascii_IsNumber (r : rune) : bool :=
  (rune_of "0" <=? r)%Z && (r <=? rune_of "9")%Z.

Definition ascii_IsPunct (r : rune) : bool :=
  existsb (Z.eqb r)
    [33; 34; 35; 37; 38; 39; 40; 41; 42; 44; 45; 46; 47; 58; 59; 63; 64; 91;
     92; 93; 95; 123; 125]%Z.

Definition ascii_IsSymbol (r : rune) : bool :=
  existsb (Z.eqb r) [36; 43; 60; 61; 62; 94; 96; 124; 126]%Z.

Definition unicode : GoUnicode :=
  {| unicode_IsUpper := ascii_IsUpper;
     unicode_IsLower := ascii_IsLower;
     unicode_IsNumber := ascii_IsNumber;
     unicode_IsPunct := ascii_IsPunct;
     unicode_IsSymbol := ascii_IsSymbol |}.

(** Repositories in which the employee has the given direct reports and
    every write succeeds. *)
Definition repositories (reports : list Employee.t) : Repositories N :=
  {| employeeRepo_Delete := λ _ w, (None, w);
     employeeRepo_FindByManagerID := λ _ w, ((reports, None), w);
     userRepo_Create := λ _ w, (None, w);
     userRepo_GetByID := λ _ w, ((Some jane, None), w);
     userRepo_Update := λ _ w, (None, w);
     userRepo_ExistsByUsername := λ _ w, ((false, None), w);
     userRepo_ExistsByEmail := λ _ w, ((false, None), w);
     bcrypt_GenerateFromPassword := λ password w,
       ((testing_hash password, None), w);
     uuid_String := pretty |}.

End Testing.

(** ** Vocabulary of the properties *)

Section vocabulary.
Context `{GoRuntime} {W : Type}.

(** The check of the optional phone number in [Validate] and
    [UpdateContactInfo]. *)
Definition phone_check (phone : string) : option error :=
  if negb (is_empty phone) then validatePhone phone else None.

(** The check of the optional address in [Validate] and [UpdateAddress]. *)
Definition address_check (address : option Address.t) : option error :=
  match address with
  | Some a =>
      match Address.Validate (Some a) with
      | Some err => Some (Wrap "invalid address" err)
      | None => None
      end
  | None => None
  end.

(** The field is in both maps with values that [valuesEqual] tells apart. *)
Definition differs (a : AuditLog.t) (k : string) : Prop :=
  ∃ o n, AuditLog.OldValues a !! k = Some o
         ∧ AuditLog.NewValues a !! k = Some n
         ∧ AuditLog.valuesEqual o n = Done false.

(** The field is in both maps with values that Go cannot compare. *)
Definition uncomparable (a : AuditLog.t) (k : string) : Prop :=
  ∃ o n msg, AuditLog.OldValues a !! k = Some o
             ∧ AuditLog.NewValues a !! k = Some n
             ∧ interface_eq o n = Panic msg.

(** The error that a handler returned, read off the trace. *)
Definition handle_error (c : Call) : option error :=
  match c with
  | Handler_Handle _ _ err => err
  | _ => None
  end.

(** The trace entry is an invocation of the handler on the event. *)
Definition handled_by (event : DomainEvent) (h : EventHandler W)
    (c : Call) : Prop :=
  ∃ err, c = Handler_Handle (handler_name h) event err.

(** The single error that [Dispatch] makes of the errors of the handlers. *)
Definition aggregated (event : DomainEvent) (failures : list error)
  : option error :=
  match failures with
  | [] => None
  | _ =>
      let errs := Wrap ("handler failed for event " ++ GetType event)
                    <$> failures in
      Some (New ("event dispatch had " ++ pretty (length errs)
                 ++ " errors: " ++ Sprint_errors errs))
  end.

(** The warning that [warn] prints. *)
Definition warning (what : string) (err : option error) : list Call :=
  match err with
  | Some e => [Printf ("Warning: " ++ what ++ ": " ++ Error e)]
  | None => []
  end.

(** The outcome and the final state of running [m] from [s] satisfy [Q]. *)
Definition wp {A} (m : M W A) (s : State W)
    (Q : run A → State W → Prop) : Prop :=
  Q (m s).1 (m s).2.

End vocabulary.

(** ** Vocabulary of the properties of texts *)

(** The language of a regular expression. *)
Inductive matches : Regexp.re → string → Prop :=
  | matches_eps : matches Regexp.Eps ""
  | matches_cls p c : p c = true → matches (Regexp.Cls p) (String c "")
  | matches_seq r s u v :
      matches r u → matches s v → matches (Regexp.Seq r s) (u ++ v)
  | matches_or_l r s u : matches r u → matches (Regexp.Or r s) u
  | matches_or_r r s u : matches s u → matches (Regexp.Or r s) u
  | matches_star_nil r : matches (Regexp.Star r) ""
  | matches_star_cons r u v :
      matches r u → matches (Regexp.Star r) v →
      matches (Regexp.Star r) (u ++ v).

(** Every byte of the text satisfies [p]. *)
Fixpoint all_bytes (p : ascii → bool) (s : string) : bool :=
  match s with
  | EmptyString => true
  | String c s' => p c && all_bytes p s'
  end.

(** The byte is one of the bytes of [chars]. *)
Fixpoint one_of (chars : string) (c : ascii) : bool :=
  match chars with
  | EmptyString => false
  | String a rest => Ascii.eqb c a || one_of rest c
  end.

Definition letters : string :=
  "abcdefghijklmnopqrstuvwxyzABCDEFGHIJKLMNOPQRSTUVWXYZ".
Definition digits : string := "0123456789".
(** Tab, line feed, form feed, carriage return and space. *)
Definition whitespace : string :=
  String "009" (String "010" (String "012" (String "013" " "))).

(** The fields, each one after a comma. *)
Fixpoint after_commas (fields : list string) : string :=
  match fields with
  | [] => ""
  | field :: rest => ", " ++ field ++ after_commas rest
  end.

(** The text of [GetChangeSummary] for a list of changed fields. *)
Definition changes_text (changedFields : list string) : string :=
  match changedFields with
  | [] => "no changes"
  | [a] => a
  | [a; b] => a ++ " and " ++ b
  | [a; b; c] => a ++ ", " ++ b ++ ", and " ++ c
  | a :: b :: c :: rest =>
      a ++ ", " ++ b ++ ", and " ++ c ++ " and " ++ pretty (length rest)
      ++ " more"
  end.

(** ** Vocabulary of the properties of partial updates *)

Section partial_updates.
Context `{GoRuntime}.

(** The value of a partial update is taken for the field: the field is one
    that [applyEmployeeUpdates] knows, and the value has the dynamic type
    that the field expects. *)
Definition update_applies (field : string) (value : Value) : bool :=
  match value with
  | VString _ =>
      (field =? "firstName") || (field =? "lastName") || (field =? "email")
      || (field =? "phone") || (field =? "department")
      || (field =? "position") || (field =? "managerId")
  | VFloat64 _ => (field =? "salary")
  | VMap _ => (field =? "address")
  | _ => false
  end.

(** The text that a partial update gives to a field, or the text that the
    field holds. *)
Definition updated_text (updates : gmap string Value) (field : string)
    (old : string) : string :=
  match updates !! field with
  | Some (VString val) => val
  | _ => old
  end.

(** The employee after a partial update that raises no error. *)
Definition updated (now : Time) (updates : gmap string Value)
    (e : Employee.t) : Employee.t :=
  {| Employee.ID := Employee.ID e;
     Employee.FirstName := updated_text updates "firstName" (Employee.FirstName e);
     Employee.LastName := updated_text updates "lastName" (Employee.LastName e);
     Employee.Email := updated_text updates "email" (Employee.Email e);
     Employee.Phone := updated_text updates "phone" (Employee.Phone e);
     Employee.Department :=
       updated_text updates "department" (Employee.Department e);
     Employee.Position := updated_text updates "position" (Employee.Position e);
     Employee.HireDate := Employee.HireDate e;
     Employee.Salary :=
       match updates !! "salary" with
       | Some (VFloat64 val) => val
       | _ => Employee.Salary e
       end;
     Employee.Status := Employee.Status e;
     Employee.ManagerID :=
       match updates !! "managerId" with
       | Some (VString val) =>
           if is_empty val then None else Some (uuid_Parse val).1
       | _ => Employee.ManagerID e
       end;
     Employee.Address :=
       match updates !! "address" with
       | Some (VMap val) => (EmployeeService.parseAddress val).1
       | _ => Employee.Address e
       end;
     Employee.CreatedAt := Employee.CreatedAt e;
     Employee.UpdatedAt := now |}.

End partial_updates.

(** The value of a profile update is taken for the field: the field is one
    that [applyUserUpdates] knows, and the value is a string. *)
Definition profile_update_applies (field : string) (value : Value) : bool :=
  match value with
  | VString _ => (field =? "username") || (field =? "email") || (field =? "role")
  | _ => false
  end.

(** * Properties *)

(** ** Order of binary64 values *)

Section float_order.

Lemma SFcompare_swap (x y : spec_float) :
  SFcompare y x = CompOpp <$> SFcompare x y.
Proof.
  destruct x as [[]| [] | | [] mx ex], y as [[]| [] | | [] my ey];
    simpl; try reflexivity;
    rewrite (Z.compare_antisym ey ex); destruct (ey ?= ex)%Z;
    simpl; try reflexivity;
    change (Pos.compare_cont Eq mx my) with (mx ?= my)%positive;
    change (Pos.compare_cont Eq my mx) with (my ?= mx)%positive;
    rewrite (Pos.compare_antisym my mx);
    destruct (my ?= mx)%positive; reflexivity.
Qed.

Lemma float_ltb_asym (x y : float) :
  (x <? y)%float = true → (y <? x)%float = false.
Proof.
  rewrite !ltb_spec. unfold SFltb.
  rewrite (SFcompare_swap (Prim2SF x) (Prim2SF y)).
  destruct (SFcompare (Prim2SF x) (Prim2SF y)) as [[]|]; simpl; congruence.
Qed.

Lemma float_ltb_neq (x y : float) :
  (x <? y)%float = true → (y =? x)%float = false.
Proof.
  rewrite ltb_spec, FloatAxioms.eqb_spec. unfold SFltb, SFeqb.
  rewrite (SFcompare_swap (Prim2SF x) (Prim2SF y)).
  destruct (SFcompare (Prim2SF x) (Prim2SF y)) as [[]|]; simpl; congruence.
Qed.

Lemma float_leb_not_gtb (x y : float) :
  (x <=? y)%float = true → (x >? y)%float = false.
Proof.
  unfold float_gtb. rewrite ltb_spec, leb_spec. unfold SFltb, SFleb.
  rewrite (SFcompare_swap (Prim2SF x) (Prim2SF y)).
  destruct (SFcompare (Prim2SF x) (Prim2SF y)) as [[]|]; simpl; congruence.
Qed.

(** A value above one million is neither negative nor zero. *)
Lemma float_above_million (x : float) :
  (x >? 1000000)%float = true →
  (x <? 0)%float = false ∧ (x =? 0)%float = false.
Proof.
  unfold float_gtb.
  rewrite !ltb_spec, FloatAxioms.eqb_spec. unfold SFltb, SFeqb.
  let million := eval vm_compute in (Prim2SF 1000000) in
  change (Prim2SF 1000000) with million.
  change (Prim2SF 0) with (S754_zero false).
  destruct (Prim2SF x) as [[]| [] | | [] m e]; simpl; try discriminate; auto.
Qed.

(** A value that is not a NaN and is neither negative nor zero is
    positive. *)
Lemma float_positive (x : float) :
  is_nan x = false → (x <? 0)%float = false → (x =? 0)%float = false →
  (0 <? x)%float = true.
Proof.
  unfold is_nan.
  rewrite !ltb_spec, !FloatAxioms.eqb_spec. unfold SFltb, SFeqb.
  change (Prim2SF 0) with (S754_zero false).
  rewrite (SFcompare_swap (Prim2SF x) (S754_zero false)).
  destruct (Prim2SF x) as [[]| [] | | [] m e]; simpl; try discriminate; auto.
Qed.

End float_order.

(** ** The Employee aggregate *)

Section employee_aggregate.
Context `{GoRuntime}.

Lemma Validate_checks_salary (now : Time) (e : Employee.t) :
  Employee.Validate now e = None → validateSalary (Employee.Salary e) = None.
Proof.
  unfold Employee.Validate. intros Hv.
  repeat match type of Hv with
         | (if ?b then _ else _) = None => destruct b; [discriminate|]
         | match ?x with Some _ => _ | None => _ end = None =>
             destruct x eqn:?; [discriminate|]
         end.
  reflexivity.
Qed.


(** C2: a TERMINATED employee refuses every status change, every salary
    update and every position update, and is left as it was; an ACTIVE or
    ON_LEAVE employee accepts a change to every valid status, its own
    included. *)
Theorem terminated_is_terminal (now : Time) (e : Employee.t) :
  (Employee.Status e = EmployeeStatusTerminated →
     (∀ t, ∃ err, Employee.ChangeStatus now t e = (e, Some err))
     ∧ (∀ s, ∃ err, Employee.UpdateSalary now s e = (e, Some err))
     ∧ (∀ p d, ∃ err, Employee.UpdatePosition now p d e = (e, Some err)))
  ∧ (Employee.Status e = EmployeeStatusActive
     ∨ Employee.Status e = EmployeeStatusOnLeave →
     ∀ t, EmployeeStatus.IsValid t = true →
       Employee.ChangeStatus now t e
       = (Employee.set_UpdatedAt now (Employee.set_Status t e), None)).
Proof.
  split.
  - intros Hterm. repeat split.
    + intros t. unfold Employee.ChangeStatus, EmployeeStatus.ValidateTransition,
        EmployeeStatus.CanChangeTo.
      rewrite Hterm. simpl. eauto.
    + intros s. unfold Employee.UpdateSalary, Employee.IsTerminated.
      rewrite Hterm. destruct (validateSalary s); simpl; eauto.
    + intros p d. unfold Employee.UpdatePosition, Employee.IsTerminated.
      rewrite Hterm.
      destruct (validatePosition p); [eauto|].
      destruct (validateDepartment d); simpl; eauto.
  - intros Hst t Hvalid.
    unfold Employee.ChangeStatus, EmployeeStatus.ValidateTransition,
      EmployeeStatus.CanChangeTo.
    rewrite Hvalid. by destruct Hst as [-> | ->].
Qed.

End employee_aggregate.


Lemma terminated_is_terminal_witness :
  (∃ err, Employee.ChangeStatus Testing.noon EmployeeStatusActive
            (Employee.set_Status EmployeeStatusTerminated Testing.john)
          = (Employee.set_Status EmployeeStatusTerminated Testing.john,
             Some err))
  ∧ Employee.ChangeStatus Testing.noon EmployeeStatusOnLeave Testing.john
    = (Employee.set_UpdatedAt Testing.noon
         (Employee.set_Status EmployeeStatusOnLeave Testing.john), None).
Proof.
  split.
  - apply (@terminated_is_terminal Testing.runtime Testing.noon
             (Employee.set_Status EmployeeStatusTerminated Testing.john)).
    reflexivity.
  - apply (@terminated_is_terminal Testing.runtime Testing.noon Testing.john).
    + left; reflexivity.
    + reflexivity.
Defined.

(** ** Audit logs *)

Section audit_log.
Context `{GoRuntime}.

Lemma Validate_not_both_empty (a : AuditLog.t) :
  AuditLog.Validate a = None →
  ¬ (AuditLog.OldValues a = ∅ ∧ AuditLog.NewValues a = ∅).
Proof.
  unfold AuditLog.Validate. intros Hv [Hold Hnew].
  repeat match type of Hv with
         | (if ?b then _ else _) = None =>
             destruct b eqn:?; [discriminate|]
         | match ?x with Some _ => _ | None => _ end = None =>
             destruct x eqn:?; [discriminate|]
         end.
  rewrite Hold, Hnew in *. rewrite !map_size_empty in *. discriminate.
Qed.

Lemma size_zero (m : gmap string Value) : (size m =? 0)%nat = true ↔ m = ∅.
Proof. rewrite Nat.eqb_eq. apply map_size_empty_iff. Qed.

Lemma size_positive (m : gmap string Value) :
  (0 <? size m)%nat = true ↔ m ≠ ∅.
Proof.
  rewrite Nat.ltb_lt, <- map_size_empty_iff. lia.
Qed.

(** C7: on an audit log that passes [Validate], exactly one of [IsCreation],
    [IsDeletion], [IsUpdate] is true: [IsCreation] iff the old values are
    empty and the new ones are not, [IsDeletion] iff the new values are
    empty and the old ones are not, [IsUpdate] iff neither is empty. *)
Theorem audit_log_classification (a : AuditLog.t) :
  AuditLog.Validate a = None →
  (AuditLog.IsCreation a = true
   ↔ AuditLog.OldValues a = ∅ ∧ AuditLog.NewValues a ≠ ∅)
  ∧ (AuditLog.IsDeletion a = true
     ↔ AuditLog.NewValues a = ∅ ∧ AuditLog.OldValues a ≠ ∅)
  ∧ (AuditLog.IsUpdate a = true
     ↔ AuditLog.OldValues a ≠ ∅ ∧ AuditLog.NewValues a ≠ ∅)
  ∧ ((AuditLog.IsCreation a, AuditLog.IsDeletion a, AuditLog.IsUpdate a)
     ∈ [(true, false, false); (false, true, false); (false, false, true)]).
Proof.
  intros Hv. apply Validate_not_both_empty in Hv.
  unfold AuditLog.IsCreation, AuditLog.IsDeletion, AuditLog.IsUpdate.
  rewrite !andb_true_iff, !size_zero, !size_positive.
  repeat split; try tauto.
  destruct (size (AuditLog.OldValues a) =? 0)%nat eqn:Hold,
           (size (AuditLog.NewValues a) =? 0)%nat eqn:Hnew.
  - apply size_zero in Hold, Hnew. tauto.
  - assert (0 <? size (AuditLog.NewValues a))%nat as ->%Is_true_true.
    { apply Is_true_true, Nat.ltb_lt. apply Nat.eqb_neq in Hnew. lia. }
    assert ((0 <? size (AuditLog.OldValues a))%nat = false) as ->.
    { apply Nat.ltb_ge. apply Nat.eqb_eq in Hold. lia. }
    simpl. set_solver.
  - assert (0 <? size (AuditLog.OldValues a))%nat as ->%Is_true_true.
    { apply Is_true_true, Nat.ltb_lt. apply Nat.eqb_neq in Hold. lia. }
    assert ((0 <? size (AuditLog.NewValues a))%nat = false) as ->.
    { apply Nat.ltb_ge. apply Nat.eqb_eq in Hnew. lia. }
    simpl. set_solver.
  - assert (0 <? size (AuditLog.OldValues a))%nat as ->%Is_true_true.
    { apply Is_true_true, Nat.ltb_lt. apply Nat.eqb_neq in Hold. lia. }
    assert (0 <? size (AuditLog.NewValues a))%nat as ->%Is_true_true.
    { apply Is_true_true, Nat.ltb_lt. apply Nat.eqb_neq in Hnew. lia. }
    simpl. set_solver.
Qed.

End audit_log.

Lemma audit_log_classification_witness :
  AuditLog.IsUpdate Testing.salary_log = true
  ∧ AuditLog.IsCreation Testing.salary_log = false
  ∧ AuditLog.IsDeletion Testing.salary_log = false.
Proof.
  pose proof (@audit_log_classification Testing.runtime Testing.salary_log
                ltac:(vm_compute; reflexivity)) as (_ & _ & Hupdate & _).
  split; [|split; vm_compute; reflexivity].
  apply Hupdate.
  split; intros Hempty; apply (f_equal size) in Hempty;
    vm_compute in Hempty; discriminate.
Defined.

(** ** Changed fields of an audit log *)

Section changed_fields.
Context `{GoRuntime}.
Implicit Types (a : AuditLog.t) (k : string) (l acc : list string).

Lemma elem_of_range_keys (m : gmap string Value) k :
  k ∈ range_keys m ↔ is_Some (m !! k).
Proof.
  unfold range_keys. rewrite list_elem_of_fmap. split.
  - intros [[k' v] [-> Hin]]. apply elem_of_map_to_list in Hin. eauto.
  - intros [v Hv]. exists (k, v). split; [done|].
    by apply elem_of_map_to_list.
Qed.

Lemma valuesEqual_panics (o n : Value) msg :
  interface_eq o n = Panic msg → AuditLog.valuesEqual o n = Panic msg.
Proof. unfold AuditLog.valuesEqual. by intros ->. Qed.

Lemma valuesEqual_returns (o n : Value) b :
  AuditLog.valuesEqual o n = Done b → ∃ same, interface_eq o n = Done same.
Proof.
  unfold AuditLog.valuesEqual.
  destruct (interface_eq o n); [eauto | discriminate].
Qed.

Lemma changed_values_elem a fields acc l :
  (∀ k, k ∈ fields → is_Some (AuditLog.OldValues a !! k)) →
  AuditLog.changed_values a fields acc = Done l →
  ∀ k, k ∈ l ↔ k ∈ acc ∨ (k ∈ fields ∧ differs a k).
Proof.
  revert acc. induction fields as [|f fields IH]; intros acc Hold Hrun k.
  - simpl in Hrun. injection Hrun as <-. set_solver.
  - simpl in Hrun.
    destruct (Hold f) as [o Ho]; [set_solver|].
    assert (∀ k, k ∈ fields → is_Some (AuditLog.OldValues a !! k)) as Hold'
      by set_solver.
    destruct (AuditLog.NewValues a !! f) as [n|] eqn:Hn.
    + rewrite Ho in Hrun. simpl in Hrun.
      destruct (AuditLog.valuesEqual o n) as [[]|] eqn:Heq; simpl in Hrun;
        [| |discriminate].
      * rewrite (IH _ Hold' Hrun k). split; [set_solver|].
        intros [?|[[->|?]%elem_of_cons Hd]]; [by left| |by right].
        destruct Hd as (o' & n' & Ho' & Hn' & Hd). congruence.
      * rewrite (IH _ Hold' Hrun k), elem_of_app, list_elem_of_singleton.
        split.
        -- intros [[?| ->]|[? ?]]; [by left| |right; set_solver].
           right. split; [set_solver|]. by exists o, n.
        -- intros [?|[[->|?]%elem_of_cons Hd]]; [by left; left| |by right].
           left; by right.
    + rewrite (IH _ Hold' Hrun k). split; [set_solver|].
      intros [?|[[->|?]%elem_of_cons Hd]]; [by left| |by right].
      destruct Hd as (o' & n' & Ho' & Hn' & Hd). congruence.
Qed.

Lemma changed_values_NoDup a fields acc l :
  NoDup fields → NoDup acc → (∀ k, k ∈ acc → k ∉ fields) →
  AuditLog.changed_values a fields acc = Done l → NoDup l.
Proof.
  revert acc. induction fields as [|f fields IH];
    intros acc Hfields Hacc Hdisj Hrun.
  - simpl in Hrun. by injection Hrun as <-.
  - simpl in Hrun. apply NoDup_cons in Hfields as [Hf Hfields].
    assert (NoDup (acc ++ [f])) as Hacc'.
    { apply NoDup_app. split; [done|]. split; [|apply NoDup_singleton].
      intros k Hk ->%list_elem_of_singleton. apply (Hdisj f Hk). by left. }
    assert (∀ k, k ∈ (acc ++ [f])%list → k ∉ fields) as Hdisj'.
    { intros k [Hk| ->%list_elem_of_singleton]%elem_of_app; [|done].
      intros Hin. apply (Hdisj k Hk). by right. }
    assert (∀ k, k ∈ acc → k ∉ fields) as Hdisj''.
    { intros k Hk Hin. apply (Hdisj k Hk). by right. }
    destruct (AuditLog.NewValues a !! f) as [n|]; [|by apply (IH acc)].
    destruct (AuditLog.valuesEqual _ n) as [[]|]; simpl in Hrun;
      [by apply (IH acc)|by apply (IH (acc ++ [f])%list)|discriminate].
Qed.

Lemma changed_values_total a fields acc :
  (∀ k, k ∈ fields → ¬ uncomparable a k) →
  (∀ k, k ∈ fields → is_Some (AuditLog.OldValues a !! k)) →
  ∃ l, AuditLog.changed_values a fields acc = Done l.
Proof.
  revert acc. induction fields as [|f fields IH]; intros acc Hcmp Hold.
  - simpl. eauto.
  - simpl.
    assert (∀ k, k ∈ fields → ¬ uncomparable a k) as Hcmp' by set_solver.
    assert (∀ k, k ∈ fields → is_Some (AuditLog.OldValues a !! k)) as Hold'
      by set_solver.
    destruct (Hold f) as [o Ho]; [set_solver|].
    destruct (AuditLog.NewValues a !! f) as [n|] eqn:Hn; [|by apply IH].
    rewrite Ho. simpl. unfold AuditLog.valuesEqual.
    destruct (interface_eq o n) as [same|msg] eqn:Heq.
    + simpl. destruct same; simpl; [by apply IH|].
      destruct o, n; simpl in *; try discriminate; try (by apply IH);
        match goal with
        | |- context [negb ?b] => destruct b; simpl; by apply IH
        end.
    + exfalso. apply (Hcmp f); [set_solver|]. by exists o, n, msg.
Qed.

Lemma changed_values_panics a fields acc k :
  k ∈ fields → uncomparable a k →
  (∀ k, k ∈ fields → is_Some (AuditLog.OldValues a !! k)) →
  ∃ msg, AuditLog.changed_values a fields acc = Panic msg.
Proof.
  revert acc. induction fields as [|f fields IH]; intros acc Hin Hk Hold.
  - set_solver.
  - simpl.
    assert (∀ k, k ∈ fields → is_Some (AuditLog.OldValues a !! k)) as Hold'
      by set_solver.
    destruct (decide (k = f)) as [->|Hne].
    + destruct Hk as (o & n & msg & Ho & Hn & Heq).
      rewrite Hn, Ho. simpl. rewrite (valuesEqual_panics _ _ _ Heq).
      simpl. eauto.
    + assert (k ∈ fields) as Hin' by set_solver.
      destruct (AuditLog.NewValues a !! f) as [n|]; [|by apply IH].
      destruct (AuditLog.valuesEqual _ n) as [[]|]; simpl; eauto.
Qed.

Lemma new_fields_elem a fields acc k :
  k ∈ AuditLog.new_fields a fields acc
  ↔ k ∈ acc ∨ (k ∈ fields ∧ AuditLog.OldValues a !! k = None).
Proof.
  revert acc. induction fields as [|f fields IH]; intros acc.
  - simpl. set_solver.
  - simpl. destruct (AuditLog.OldValues a !! f) eqn:Hf; rewrite IH.
    + split; [set_solver|].
      intros [?|[[->|?]%elem_of_cons Hnone]]; [by left|congruence|by right].
    + rewrite elem_of_app, list_elem_of_singleton. split.
      * intros [[?| ->]|[? ?]]; [by left| |right; set_solver].
        right. split; [set_solver|done].
      * intros [?|[[->|?]%elem_of_cons Hnone]];
          [by left; left|by left; right|by right].
Qed.

Lemma new_fields_NoDup a fields acc :
  NoDup fields → NoDup acc →
  (∀ k, k ∈ acc → k ∈ fields → is_Some (AuditLog.OldValues a !! k)) →
  NoDup (AuditLog.new_fields a fields acc).
Proof.
  revert acc. induction fields as [|f fields IH]; intros acc Hfields Hacc Hd.
  - done.
  - simpl. apply NoDup_cons in Hfields as [Hf Hfields].
    destruct (AuditLog.OldValues a !! f) eqn:Hold.
    + apply IH; [done|done|]. intros k Hk Hin. apply Hd; [done|by right].
    + apply IH; [done| |].
      * apply NoDup_app. split; [done|]. split; [|apply NoDup_singleton].
        intros k Hk ->%list_elem_of_singleton.
        destruct (Hd f Hk) as [? ?]; [by left|congruence].
      * intros k [Hk| ->%list_elem_of_singleton]%elem_of_app Hin; [|done].
        apply Hd; [done|by right].
Qed.

(** When [GetChangedFields] returns, it returns, without repetition, exactly
    the fields that are in both maps with values that [valuesEqual] tells
    apart and the fields that are in the new values only; a field that is in
    the old values only is not reported. *)
Lemma GetChangedFields_returns a l :
  AuditLog.GetChangedFields a = Done l →
  NoDup l
  ∧ (∀ k, k ∈ l ↔ differs a k
                  ∨ (AuditLog.OldValues a !! k = None
                     ∧ is_Some (AuditLog.NewValues a !! k)))
  ∧ (∀ k, AuditLog.NewValues a !! k = None → k ∉ l).
Proof.
  unfold AuditLog.GetChangedFields. intros Hrun.
  destruct (AuditLog.changed_values a (range_keys (AuditLog.OldValues a)) [])
    as [changed|] eqn:Hchanged; [|discriminate].
  simpl in Hrun. injection Hrun as <-.
  assert (∀ k, k ∈ range_keys (AuditLog.OldValues a) →
               is_Some (AuditLog.OldValues a !! k)) as Hkeys
    by (intros k; apply elem_of_range_keys).
  pose proof (changed_values_elem _ _ _ _ Hkeys Hchanged) as Helem.
  assert (∀ k, k ∈ AuditLog.new_fields a (range_keys (AuditLog.NewValues a))
                     changed
               ↔ differs a k
                 ∨ (AuditLog.OldValues a !! k = None
                    ∧ is_Some (AuditLog.NewValues a !! k))) as Hspec.
  { intros k. rewrite new_fields_elem, Helem, elem_of_range_keys.
    rewrite elem_of_range_keys. split.
    - intros [[?|[_ ?]]|[? ?]]; [set_solver|by left|by right].
    - intros [Hd|[? ?]]; [|by right]. left. right. split; [|done].
      destruct Hd as (o & ? & -> & _). eauto. }
  split; [|split; [done|]].
  - apply new_fields_NoDup.
    + apply NoDup_fst_map_to_list.
    + apply (changed_values_NoDup a (range_keys (AuditLog.OldValues a)) []);
        [apply NoDup_fst_map_to_list|apply NoDup_nil_2|set_solver|done].
    + intros k Hk _. apply Helem in Hk as [?|[?%elem_of_range_keys _]];
        [set_solver|done].
  - intros k Hnone. rewrite Hspec.
    intros [(o & n & _ & Hn & _)|[_ [n Hn]]]; congruence.
Qed.

(** [GetChangedFields] returns when no field holds, in both maps, values of
    one type that Go cannot compare. *)
Lemma GetChangedFields_total a :
  (∀ k, ¬ uncomparable a k) → ∃ l, AuditLog.GetChangedFields a = Done l.
Proof.
  intros Hcmp. unfold AuditLog.GetChangedFields.
  destruct (changed_values_total a (range_keys (AuditLog.OldValues a)) [])
    as [l ->]; [by intros k _|by intros k; apply elem_of_range_keys|].
  simpl. eauto.
Qed.

(** On an audit log in which no field holds, in both maps, two values that
    Go cannot compare, [GetChangedFields] returns, without repetition,
    exactly the fields that are in both maps with values that [valuesEqual]
    tells apart and the fields that are in the new values only; a field
    that is in the old values only is not reported. *)
Theorem GetChangedFields_on_comparable_values a :
  (∀ k, ¬ uncomparable a k) →
  ∃ l, AuditLog.GetChangedFields a = Done l
       ∧ NoDup l
       ∧ (∀ k, k ∈ l ↔ differs a k
                       ∨ (AuditLog.OldValues a !! k = None
                          ∧ is_Some (AuditLog.NewValues a !! k)))
       ∧ (∀ k, AuditLog.NewValues a !! k = None → k ∉ l).
Proof.
  intros Hcmp. destruct (GetChangedFields_total a Hcmp) as [l Hrun].
  exists l. split; [done|]. by apply GetChangedFields_returns.
Qed.

(** C10, where the code departs from it: when a field holds a map (or a
    slice) in the old values and in the new values, as the "address" field
    of the snapshots of an employee with an address does, the comparison
    [a == b] of [valuesEqual] panics and [GetChangedFields] returns
    nothing. *)
Theorem GetChangedFields_panics_on_uncomparable a k :
  uncomparable a k → ∃ msg, AuditLog.GetChangedFields a = Panic msg.
Proof.
  intros Hk. unfold AuditLog.GetChangedFields.
  destruct (changed_values_panics a (range_keys (AuditLog.OldValues a)) [] k)
    as [msg ->]; [|done|by intros k'; apply elem_of_range_keys|by eauto].
  destruct Hk as (o & _ & _ & Ho & _).
  apply elem_of_range_keys. eauto.
Qed.

End changed_fields.

Lemma GetChangedFields_on_comparable_values_witness :
  ∃ l, @AuditLog.GetChangedFields Testing.runtime Testing.salary_log = Done l
       ∧ "salary" ∈ l ∧ "status" ∉ l.
Proof.
  destruct (@GetChangedFields_on_comparable_values Testing.runtime
              Testing.salary_log) as (l & Hrun & _ & Hl & _).
  - intros k (o & n & msg & Ho & Hn & Heq).
    destruct (decide (k = "salary")) as [->|];
      [|destruct (decide (k = "status")) as [->|]].
    + vm_compute in Ho, Hn. injection Ho as <-. injection Hn as <-.
      vm_compute in Heq. discriminate.
    + vm_compute in Ho, Hn. injection Ho as <-. injection Hn as <-.
      vm_compute in Heq. discriminate.
    + unfold Testing.salary_log in Ho. simpl in Ho.
      rewrite !lookup_insert_ne, lookup_empty in Ho by done. discriminate.
  - exists l. split; [done|]. split.
    + apply Hl. left. exists (VFloat64 50000), (VFloat64 60000).
      split; [|split]; vm_compute; reflexivity.
    + rewrite Hl. intros [(o & n & Ho & Hn & Heq)|[Hnone _]].
      * vm_compute in Ho, Hn. injection Ho as <-. injection Hn as <-.
        vm_compute in Heq. discriminate.
      * vm_compute in Hnone. discriminate.
Defined.

Lemma GetChangedFields_panics_on_uncomparable_witness :
  ∃ msg, @AuditLog.GetChangedFields Testing.runtime Testing.raise_log
         = Panic msg.
Proof.
  apply (@GetChangedFields_panics_on_uncomparable Testing.runtime
           Testing.raise_log "address").
  eexists _, _, _. split; [|split]; vm_compute; reflexivity.
Defined.

(** ** Validity of the Employee aggregate *)

Section employee_validity.
Context `{GoRuntime}.
Implicit Types (e : Employee.t) (now : Time).

Lemma Validate_passes_iff now e :
  Employee.Validate now e = None ↔
    (Employee.ID e =? uuid_Nil)%N = false
    ∧ validateName (Employee.FirstName e) "first name" = None
    ∧ validateName (Employee.LastName e) "last name" = None
    ∧ validateEmail (Employee.Email e) = None
    ∧ phone_check (Employee.Phone e) = None
    ∧ validateDepartment (Employee.Department e) = None
    ∧ validatePosition (Employee.Position e) = None
    ∧ validateHireDate now (Employee.HireDate e) = None
    ∧ validateSalary (Employee.Salary e) = None
    ∧ EmployeeStatus.IsValid (Employee.Status e) = true
    ∧ address_check (Employee.Address e) = None.
Proof.
  unfold Employee.Validate, phone_check, address_check. split.
  - intros Hv.
    repeat match type of Hv with
           | (if ?b then _ else _) = None =>
               destruct b eqn:?; [discriminate|]
           | match ?x with Some _ => _ | None => _ end = None =>
               destruct x eqn:?; [discriminate|]
           end.
    repeat split; try done.
    by destruct (EmployeeStatus.IsValid (Employee.Status e)).
  - intros (-> & -> & -> & -> & Hphone & -> & -> & -> & -> & -> & Haddr).
    rewrite Hphone, Haddr. reflexivity.
Qed.

(** [NewEmployee] returns an employee only when [Validate] passes on it. *)
Lemma NewEmployee_valid id now firstName lastName email phone department
    position hireDate salary managerID address e err :
  Employee.NewEmployee id now firstName lastName email phone department
    position hireDate salary managerID address = (Some e, err) →
  err = None ∧ Employee.Validate now e = None.
Proof.
  unfold Employee.NewEmployee.
  match goal with
  | |- context [Employee.Validate now ?x] =>
      destruct (Employee.Validate now x) eqn:Hv
  end; [discriminate|].
  intros [= <- <-]. done.
Qed.

Lemma ChangeStatus_valid now now' t e e' :
  Employee.Validate now e = None →
  Employee.ChangeStatus now' t e = (e', None) →
  Employee.Validate now e' = None.
Proof.
  rewrite !Validate_passes_iff. intros Hv.
  unfold Employee.ChangeStatus, EmployeeStatus.ValidateTransition,
    EmployeeStatus.CanChangeTo.
  destruct (Employee.Status e =? EmployeeStatusTerminated)%string;
    [discriminate|].
  destruct (EmployeeStatus.IsValid t) eqn:Ht; [|discriminate].
  intros [= <-]. simpl. tauto.
Qed.

Lemma UpdateSalary_valid now now' s e e' :
  Employee.Validate now e = None →
  Employee.UpdateSalary now' s e = (e', None) →
  Employee.Validate now e' = None.
Proof.
  rewrite !Validate_passes_iff. intros Hv. unfold Employee.UpdateSalary.
  destruct (validateSalary s) eqn:Hs; [discriminate|].
  destruct (Employee.IsTerminated e); [discriminate|].
  intros [= <-]. simpl. tauto.
Qed.

Lemma UpdateContactInfo_valid now now' email phone e e' :
  Employee.Validate now e = None →
  Employee.UpdateContactInfo now' email phone e = (e', None) →
  Employee.Validate now e' = None.
Proof.
  rewrite !Validate_passes_iff. intros Hv. unfold Employee.UpdateContactInfo.
  destruct (validateEmail email) eqn:Hemail; [discriminate|].
  fold (phone_check phone).
  destruct (phone_check phone) eqn:Hphone; [discriminate|].
  intros [= <-]. simpl. tauto.
Qed.

Lemma UpdatePosition_valid now now' position department e e' :
  Employee.Validate now e = None →
  Employee.UpdatePosition now' position department e = (e', None) →
  Employee.Validate now e' = None.
Proof.
  rewrite !Validate_passes_iff. intros Hv. unfold Employee.UpdatePosition.
  destruct (validatePosition position) eqn:Hp; [discriminate|].
  destruct (validateDepartment department) eqn:Hd; [discriminate|].
  destruct (Employee.IsTerminated e); [discriminate|].
  intros [= <-]. simpl. tauto.
Qed.

Lemma UpdateAddress_valid now now' address e e' :
  Employee.Validate now e = None →
  Employee.UpdateAddress now' address e = (e', None) →
  Employee.Validate now e' = None.
Proof.
  rewrite !Validate_passes_iff. intros Hv. unfold Employee.UpdateAddress.
  fold (address_check address).
  destruct (address_check address) eqn:Ha; [discriminate|].
  intros [= <-]. simpl. tauto.
Qed.

Lemma SetManager_valid now now' managerID e e' :
  Employee.Validate now e = None →
  Employee.SetManager now' managerID e = (e', None) →
  Employee.Validate now e' = None.
Proof.
  rewrite !Validate_passes_iff. intros Hv. unfold Employee.SetManager.
  match goal with |- context [if ?b then _ else _] => destruct b end;
    [discriminate|].
  intros [= <-]. simpl. tauto.
Qed.

(** The constructor and the six mutating methods of the aggregate keep the
    validators satisfied: [Validate], run at one reading [now] of the clock,
    passes on what [NewEmployee] returns and still passes after every
    method call that returns no error. *)
Theorem aggregate_methods_keep_validity now now' e :
  Employee.Validate now e = None →
  (∀ t e', Employee.ChangeStatus now' t e = (e', None) →
           Employee.Validate now e' = None)
  ∧ (∀ s e', Employee.UpdateSalary now' s e = (e', None) →
             Employee.Validate now e' = None)
  ∧ (∀ email phone e',
       Employee.UpdateContactInfo now' email phone e = (e', None) →
       Employee.Validate now e' = None)
  ∧ (∀ position department e',
       Employee.UpdatePosition now' position department e = (e', None) →
       Employee.Validate now e' = None)
  ∧ (∀ address e', Employee.UpdateAddress now' address e = (e', None) →
                   Employee.Validate now e' = None)
  ∧ (∀ managerID e', Employee.SetManager now' managerID e = (e', None) →
                     Employee.Validate now e' = None).
Proof.
  intros Hv. repeat split; intros.
  - by eapply ChangeStatus_valid.
  - by eapply UpdateSalary_valid.
  - by eapply UpdateContactInfo_valid.
  - by eapply UpdatePosition_valid.
  - by eapply UpdateAddress_valid.
  - by eapply SetManager_valid.
Qed.

(** C5, where the code departs from it: the partial update of the service
    assigns the salary of the field map to the employee without running a
    validator. On an employee on which [Validate] passes, an update that
    holds a salary that [validateSalary] rejects returns no error and leaves
    an employee on which [Validate] fails. *)
Theorem applyEmployeeUpdates_skips_validation now e (salary : float) :
  Employee.Validate now e = None →
  validateSalary salary ≠ None →
  ∃ e', EmployeeService.applyEmployeeUpdates now
          (<[ "salary" := VFloat64 salary ]> ∅) e
        = (e', (["salary"], None))
        ∧ Employee.Salary e' = salary
        ∧ Employee.Validate now e' ≠ None.
Proof.
  intros Hv Hbad.
  exists (Employee.set_UpdatedAt now (Employee.set_Salary salary e)).
  split; [|split; [done|]].
  - unfold EmployeeService.applyEmployeeUpdates.
    rewrite insert_empty, map_to_list_singleton. reflexivity.
  - intros Hv'. apply Validate_checks_salary in Hv'. done.
Qed.

End employee_validity.

Lemma aggregate_methods_keep_validity_witness :
  @Employee.Validate Testing.runtime Testing.noon
    (Employee.UpdateSalary Testing.noon 80000 Testing.john).1 = None.
Proof.
  destruct (@aggregate_methods_keep_validity Testing.runtime Testing.noon
              Testing.noon Testing.john ltac:(vm_compute; reflexivity))
    as (_ & Hsalary & _).
  apply (Hsalary 80000%float). vm_compute; reflexivity.
Defined.

Lemma applyEmployeeUpdates_skips_validation_witness :
  ∃ e', @EmployeeService.applyEmployeeUpdates Testing.runtime Testing.noon
          Testing.pay_cut Testing.john
        = (e', (["salary"], None))
        ∧ Employee.Salary e' = (-5)%float
        ∧ @Employee.Validate Testing.runtime Testing.noon e' ≠ None.
Proof.
  apply (@applyEmployeeUpdates_skips_validation Testing.runtime Testing.noon
           Testing.john (-5)%float).
  - vm_compute; reflexivity.
  - vm_compute; discriminate.
Defined.

(** ** EventDispatcher *)

Section dispatcher.
Context {W : Type}.
Implicit Types (d : EventDispatcher W) (hs : list (EventHandler W))
  (event : DomainEvent) (s : State W) (calls : list Call).

Lemma dispatch_loop_spec hs event errs s :
  ∃ calls s',
    dispatch_loop hs event errs s
    = (Done (errs ++ (Wrap ("handler failed for event " ++ GetType event)
                        <$> omap handle_error calls))%list, s')
    ∧ trace s' = (trace s ++ calls)%list
    ∧ employees s' = employees s
    ∧ users s' = users s
    ∧ Forall2 (handled_by event)
        (filter (λ h, CanHandle h (GetType event) = true) hs) calls.
Proof.
  revert errs s. induction hs as [|h hs IH]; intros errs s.
  - exists [], s. simpl. rewrite !app_nil_r. repeat split. constructor.
  - simpl. destruct (CanHandle h (GetType event)) eqn:Hcan.
    + rewrite filter_cons_True by done.
      unfold mbind, M_bind, call, log. simpl.
      destruct (Handle h event (world s)) as [err w] eqn:Hhandle.
      simpl.
      destruct err as [e|];
        match goal with
        | |- context [dispatch_loop hs event ?errs' ?s1] =>
            destruct (IH errs' s1)
              as (calls' & s'' & Hrun' & Htrace' & Hemp' & Huse' & Hall')
        end;
        rewrite Hrun'; simpl in *.
      * exists (Handler_Handle (handler_name h) event (Some e) :: calls'), s''.
        simpl. rewrite <- !app_assoc in *. simpl.
        repeat split; try done.
        constructor; [by eexists|done].
      * exists (Handler_Handle (handler_name h) event None :: calls'), s''.
        simpl. rewrite <- !app_assoc in *. simpl.
        repeat split; try done.
        constructor; [by eexists|done].
    + rewrite filter_cons_False by (rewrite Hcan; done). apply IH.
Qed.

(** [Dispatch] always returns; it leaves the store as it was and adds
    nothing but handler invocations to the trace. *)
Lemma Dispatch_returns d event s :
  ∃ r calls s',
    Dispatch d event s = (Done r, s')
    ∧ trace s' = (trace s ++ calls)%list
    ∧ employees s' = employees s
    ∧ users s' = users s
    ∧ Forall (λ c, ∃ name err, c = Handler_Handle name event err) calls.
Proof.
  unfold Dispatch. destruct (handlers d !! GetType event) as [hs|].
  - destruct (dispatch_loop_spec hs event [] s)
      as (calls & s' & Hrun & Htrace & Hemp & Huse & Hall).
    unfold mbind, M_bind. rewrite Hrun. simpl.
    assert (Forall (λ c, ∃ name err, c = Handler_Handle name event err) calls)
      as Hcalls.
    { clear -Hall. induction Hall as [|h c ? ? [err ->]]; constructor; eauto. }
    match goal with
    | |- context [if ?b then _ else _] => destruct b
    end; eexists _, calls, s'; done.
  - exists None, [], s. rewrite app_nil_r. repeat split; try done.
Qed.


End dispatcher.

(** ** Reasoning about runs of the services *)

Section weakest_precondition.
Context {W : Type}.
Implicit Types (s : State W).

Lemma wp_run {A} (m : M W A) s Q r s' : wp m s Q → m s = (r, s') → Q r s'.
Proof. unfold wp. intros HQ Hrun. by rewrite Hrun in HQ. Qed.

Lemma wp_ret {A} (a : A) s Q : Q (Done a) s → wp (mret a) s Q.
Proof. done. Qed.

Lemma wp_bind {A B} (m : M W A) (k : A → M W B) s Q :
  wp m s (λ r s', match r with
                  | Done a => wp (k a) s' Q
                  | Panic msg => Q (Panic msg) s'
                  end) →
  wp (m ≫= k) s Q.
Proof.
  unfold wp, mbind, M_bind. by destruct (m s) as [[a|msg] s'].
Qed.

Lemma wp_panic {A} msg s (Q : run A → State W → Prop) :
  Q (Panic msg) s → wp (panic msg) s Q.
Proof. done. Qed.

Lemma wp_lift_run {A} (r : run A) s Q : Q r s → wp (lift_run r) s Q.
Proof. done. Qed.

Lemma wp_call {A} (f : W → A * W) s Q :
  (∀ a w, f (world s) = (a, w) →
     Q (Done a) {| world := w; employees := employees s; users := users s;
                   trace := trace s |}) →
  wp (call f) s Q.
Proof.
  unfold wp, call. intros HQ. destruct (f (world s)) as [a w] eqn:Hf.
  by apply HQ.
Qed.

Lemma wp_read {A} (f : W → A) s Q : Q (Done (f (world s))) s → wp (read f) s Q.
Proof. done. Qed.

Lemma wp_log c s Q :
  Q (Done tt) {| world := world s; employees := employees s;
                 users := users s; trace := (trace s ++ [c])%list |} →
  wp (log c) s Q.
Proof. done. Qed.

Lemma wp_warn what err s Q :
  Q (Done tt) {| world := world s; employees := employees s;
                 users := users s;
                 trace := (trace s ++ warning what err)%list |} →
  wp (warn what err) s Q.
Proof.
  destruct err as [e|]; simpl; [done|].
  destruct s; simpl. by rewrite app_nil_r.
Qed.

Lemma wp_load_employee p s Q :
  match employees s !! p with
  | Some e => Q (Done e) s
  | None => Q (Panic nil_dereference) s
  end →
  wp (load_employee p) s Q.
Proof. unfold wp, load_employee. by destruct (employees s !! p). Qed.

Lemma wp_store_employee p e s Q :
  Q (Done tt) {| world := world s; employees := <[ p := e ]> (employees s);
                 users := users s; trace := trace s |} →
  wp (store_employee p e) s Q.
Proof. done. Qed.

Lemma wp_alloc_employee e s Q :
  (∀ p, employees s !! p = None →
     Q (Done p) {| world := world s; employees := <[ p := e ]> (employees s);
                   users := users s; trace := trace s |}) →
  wp (alloc_employee e) s Q.
Proof.
  intros HQ. apply HQ. apply not_elem_of_dom, is_fresh.
Qed.

Lemma wp_load_user p s Q :
  match users s !! p with
  | Some u => Q (Done u) s
  | None => Q (Panic nil_dereference) s
  end →
  wp (load_user p) s Q.
Proof. unfold wp, load_user. by destruct (users s !! p). Qed.

Lemma wp_store_user p u s Q :
  Q (Done tt) {| world := world s; employees := employees s;
                 users := <[ p := u ]> (users s); trace := trace s |} →
  wp (store_user p u) s Q.
Proof. done. Qed.

Lemma wp_alloc_user u s Q :
  (∀ p, users s !! p = None →
     Q (Done p) {| world := world s; employees := employees s;
                   users := <[ p := u ]> (users s); trace := trace s |}) →
  wp (alloc_user u) s Q.
Proof.
  intros HQ. apply HQ. apply not_elem_of_dom, is_fresh.
Qed.

Lemma wp_Dispatch d event s Q :
  (∀ r calls w,
     Forall (λ c, ∃ name err, c = Handler_Handle name event err) calls →
     Q (Done r) {| world := w; employees := employees s; users := users s;
                   trace := (trace s ++ calls)%list |}) →
  wp (Dispatch d event) s Q.
Proof.
  intros HQ. unfold wp.
  destruct (Dispatch_returns d event s)
    as (r & calls & s' & -> & Htrace & Hemp & Huse & Hcalls).
  destruct s'; simpl in *; subst. by apply HQ.
Qed.

End weakest_precondition.

Lemma in_warning (c : Call) what err :
  c ∈ warning what err → ∃ msg, c = Printf msg.
Proof.
  destruct err as [e|]; simpl; [|by intros ?%elem_of_nil].
  intros ->%list_elem_of_singleton. eauto.
Qed.

(** One step of a run: the rule of the first instruction, or a case
    distinction on what the code branches on. *)
Ltac wp_step :=
  lazymatch goal with
  | |- wp (mbind _ _) _ _ => apply wp_bind
  | |- wp (mret _) _ _ => apply wp_ret
  | |- wp (panic _) _ _ => apply wp_panic
  | |- wp (lift_run _) _ _ => apply wp_lift_run
  | |- wp (call _) _ _ => apply wp_call; intros ? ? ?
  | |- wp (read _) _ _ => apply wp_read
  | |- wp (log _) _ _ => apply wp_log
  | |- wp (warn _ _) _ _ => apply wp_warn
  | |- wp (load_employee _) _ _ => apply wp_load_employee
  | |- wp (store_employee _ _) _ _ => apply wp_store_employee
  | |- wp (alloc_employee _) _ _ => apply wp_alloc_employee; intros ? ?
  | |- wp (load_user _) _ _ => apply wp_load_user
  | |- wp (store_user _ _) _ _ => apply wp_store_user
  | |- wp (alloc_user _) _ _ => apply wp_alloc_user; intros ? ?
  | |- wp (Dispatch _ _) _ _ => apply wp_Dispatch; intros ? ? ? ?
  | |- wp (match ?x with _ => _ end) _ _ => destruct x eqn:?
  | |- match (<[?p := _]> _) !! ?p with _ => _ end =>
      rewrite lookup_insert_eq
  end; cbn beta iota; cbn [world employees users trace initial] in *.

(** Case distinction on where in the trace an entry lies. *)
Ltac in_trace Hin :=
  repeat match type of Hin with
         | _ ∈ (_ ++ _)%list => apply elem_of_app in Hin as [Hin|Hin]
         | _ ∈ [] => by apply elem_of_nil in Hin
         | _ ∈ [_] => apply list_elem_of_singleton in Hin
         | _ ∈ warning _ _ => apply in_warning in Hin as [? Hin]
         | _ ∈ ?calls =>
             match goal with
             | Hall : Forall _ calls |- _ =>
                 let Hall' := fresh in
                 pose proof (proj1 (Forall_forall _ _) Hall _ Hin)
                   as Hall';
                 clear Hin; destruct Hall' as (? & ? & Hin)
             end
         end.

(** From a run of a service to the rules of its instructions. *)
Ltac wp_start :=
  let Hrun := fresh "Hrun" in
  intros Hrun;
  match type of Hrun with
  | _ = (?r, ?s) => pattern r, s; eapply wp_run; [|exact Hrun]; clear Hrun
  end.

(** The trace holds an entry: search from its end. *)
Ltac trace_has :=
  repeat first
    [ apply list_elem_of_singleton; reflexivity
    | apply elem_of_app;
      first [ right; apply list_elem_of_singleton; reflexivity | left ] ].

Ltac unfold_service :=
  unfold EmployeeService.CreateEmployee, EmployeeService.UpdateEmployee,
    EmployeeService.ChangeEmployeeStatus, EmployeeService.UpdateEmployeeSalary,
    EmployeeService.NewEmployee_ptr, EmployeeService.validateEmployeeCreation,
    EmployeeService.employeeRepo_GetByID_ptr, EmployeeService.method,
    EmployeeService.employeeRepo_Create_ptr,
    EmployeeService.employeeRepo_Update_ptr,
    EmployeeService.createAuditLogForCreation,
    EmployeeService.createAuditLogForStatusChange,
    EmployeeService.createAuditLogForSalaryChange,
    EmployeeService.new_audit_log, EmployeeService.NewAuditLogCreatedEvent,
    UserService.AuthenticateUser, UserService.userRepo_FindByUsername_ptr,
    auditRepo_Create_log, eventStore_SaveEvent_log, new_event.

(** ** EmployeeService *)

Section employee_service.
Context {W : Type} `{GoRuntime}.
Variable c : Collaborators W.
Variable d : EventDispatcher W.

Lemma NewAuditLog_values id now employeeID operation userID oldValues
    newValues ipAddress userAgent a err :
  AuditLog.NewAuditLog id now employeeID operation userID oldValues newValues
    ipAddress userAgent = (Some a, err) →
  AuditLog.OldValues a = oldValues ∧ AuditLog.NewValues a = newValues
  ∧ AuditLog.UserID a = userID ∧ AuditLog.IPAddress a = ipAddress
  ∧ AuditLog.Validate a = None.
Proof.
  unfold AuditLog.NewAuditLog.
  match goal with
  | |- context [AuditLog.Validate ?x] => destruct (AuditLog.Validate x) eqn:Hv
  end; [discriminate|].
  by intros [= <- _].
Qed.

Lemma ChangeStatus_sets_status now newStatus e e' :
  Employee.ChangeStatus now newStatus e = (e', None) →
  Employee.Status e' = newStatus.
Proof.
  unfold Employee.ChangeStatus.
  destruct (EmployeeStatus.ValidateTransition _ _); [discriminate|].
  by intros [= <-].
Qed.

(** C3, where the code departs from it: [ChangeEmployeeStatus] builds the
    audit log and the event after [ChangeStatus] has overwritten the status
    of the employee, and reads the old status from the employee. Every
    audit log that it hands to the audit repository holds the new status
    under "status" in [OldValues] as well as in [NewValues], and every event
    that it hands to the event store is an [EmployeeStatusChangedEvent]
    whose [OldStatus] and [NewStatus] are both the new status; a call that
    returns an employee has written such an event. *)
Theorem ChangeEmployeeStatus_records_new_status_as_old
    id newStatus userID ipAddress userAgent (w : W) r s' :
  EmployeeService.ChangeEmployeeStatus c d id newStatus userID ipAddress
    userAgent (initial w) = (r, s') →
  (∀ a err, AuditRepo_Create (Some a) err ∈ trace s' →
     AuditLog.OldValues a !! "status" = Some (VString newStatus)
     ∧ AuditLog.NewValues a !! "status" = Some (VString newStatus))
  ∧ (∀ event err, EventStore_SaveEvent event err ∈ trace s' →
       ∃ base, event = EmployeeStatusChangedEvent base id newStatus newStatus
                         userID)
  ∧ (∀ p, r = Done (Some p, None) →
       ∃ event err, EventStore_SaveEvent event err ∈ trace s').
Proof.
  wp_start. unfold_service.
  repeat wp_step;
    repeat match goal with
           | Hc : Employee.ChangeStatus _ _ _ = (_, None) |- _ =>
               apply ChangeStatus_sets_status in Hc
           end;
    (split;
    [ intros a' err' Hin; in_trace Hin; try discriminate;
      injection Hin as ? ?; subst;
      match goal with
      | Ha : AuditLog.NewAuditLog _ _ _ _ _ _ _ _ _ = (Some _, _) |- _ =>
          apply NewAuditLog_values in Ha as (-> & -> & _)
      end;
      by rewrite !lookup_insert_eq
    | split;
      [ intros event' err' Hin; in_trace Hin; try discriminate;
        injection Hin as ? ?; subst;
        unfold NewEmployeeStatusChangedEvent; eauto
      | intros p' Hr; try discriminate; eexists _, _; trace_has ] ]).
Qed.

Lemma auditLogCreatedData_of_creation (a : AuditLog.t) :
  AuditLog.OldValues a = ∅ → ∃ data, auditLogCreatedData a = Done data.
Proof.
  intros Hold. unfold auditLogCreatedData, AuditLog.GetChangedFields.
  rewrite Hold. unfold range_keys at 1. rewrite map_to_list_empty. simpl.
  eauto.
Qed.

Lemma Validate_needs_user_and_address (a : AuditLog.t) :
  AuditLog.Validate a = None →
  is_empty (AuditLog.UserID a) = false
  ∧ (len (AuditLog.IPAddress a) <? 7)%nat = false
  ∧ (45 <? len (AuditLog.IPAddress a))%nat = false.
Proof.
  unfold AuditLog.Validate, AuditLog.validateIPAddress. intros Hv.
  repeat match type of Hv with
         | (if ?b then _ else _) = None =>
             destruct b eqn:?; [discriminate|]
         | match ?x with Some _ => _ | None => _ end = None =>
             destruct x eqn:?; [discriminate|]
         end.
  repeat match goal with
         | Hm : match (if ?b then _ else _) with _ => _ end = None |- _ =>
             destruct b eqn:?; [discriminate|]
         end.
  done.
Qed.

(** What [CreateEmployee] does once the employee repository has stored the
    employee [e]: it hands one audit log to the audit repository; when that
    audit log is not nil, the call returns a pointer to [e] and no error,
    whatever the audit repository, the event store and the handlers
    return; when it is nil, the call panics. *)
Lemma CreateEmployee_after_persist
    firstName lastName email phone department position hireDate salary
    managerID address userID ipAddress userAgent (w : W) r s' e :
  EmployeeService.CreateEmployee c d firstName lastName email phone
    department position hireDate salary managerID address
    userID ipAddress userAgent (initial w) = (r, s') →
  EmployeeRepo_Create e None ∈ trace s' →
  (∃ auditLog err, AuditRepo_Create auditLog err ∈ trace s')
  ∧ (∀ auditLog err, AuditRepo_Create auditLog err ∈ trace s' →
       match auditLog with
       | Some a =>
           AuditLog.UserID a = userID ∧ AuditLog.IPAddress a = ipAddress
           ∧ AuditLog.Validate a = None
           ∧ ∃ p, r = Done (Some p, None) ∧ employees s' !! p = Some e
       | None => r = Panic nil_dereference
       end).
Proof.
  wp_start. unfold_service.
  repeat wp_step.
  all: try match goal with
           | Ha : AuditLog.NewAuditLog _ _ _ _ _ _ _ _ _ = (Some ?a, _)
             |- context [auditLogCreatedData ?a] =>
               let Hdata := fresh "Hdata" in
               destruct (auditLogCreatedData_of_creation a) as [? Hdata];
               [by apply NewAuditLog_values in Ha as (? & _)|];
               rewrite Hdata; repeat wp_step
           end.
  all: intros Hpersist; in_trace Hpersist; try discriminate;
    injection Hpersist as ->.
  all: (split;
        [ eexists _, _; trace_has
        | intros auditLog err Hin; in_trace Hin; try discriminate;
          injection Hin as ? ?; subst; try done ]).
  all: match goal with
       | Ha : AuditLog.NewAuditLog _ _ _ _ _ _ _ _ _ = (Some _, _) |- _ =>
           apply NewAuditLog_values in Ha as (_ & _ & ? & ? & ?)
       end.
  all: repeat split; try done.
  all: eexists; split; [done|]. 
  all: by rewrite lookup_insert_eq.
Qed.

(** C1, where the code departs from it: after the employee repository has
    stored the employee, [CreateEmployee] builds the audit log; when
    [NewAuditLog] rejects it, because the user identifier is empty or the
    IP address is shorter than 7 or longer than 45 bytes, the audit log is
    nil, and [NewAuditLogCreatedEvent] dereferences it: the call panics
    and returns neither the employee nor an error. *)
Theorem CreateEmployee_panics_on_rejected_audit_log
    firstName lastName email phone department position hireDate salary
    managerID address userID ipAddress userAgent (w : W) r s' e :
  EmployeeService.CreateEmployee c d firstName lastName email phone
    department position hireDate salary managerID address
    userID ipAddress userAgent (initial w) = (r, s') →
  EmployeeRepo_Create e None ∈ trace s' →
  is_empty userID = true ∨ (len ipAddress <? 7)%nat = true
  ∨ (45 <? len ipAddress)%nat = true →
  r = Panic nil_dereference.
Proof.
  intros Hrun Hpersist Hbad.
  destruct (CreateEmployee_after_persist _ _ _ _ _ _ _ _ _ _ _ _ _ _ _ _ _
              Hrun Hpersist) as [(auditLog & err & Hin) Hall].
  specialize (Hall auditLog err Hin). destruct auditLog as [a|]; [|done].
  destruct Hall as (Huser & Hip & Hv & _).
  apply Validate_needs_user_and_address in Hv as (? & ? & ?).
  rewrite Huser, Hip in *. destruct Hbad as [?|[?|?]]; congruence.
Qed.

(** Once the employee repository has stored the employee and the audit log
    could be built, [CreateEmployee] returns a pointer to the stored
    employee and no error, whatever the audit repository, the event store
    and the handlers return. *)
Theorem CreateEmployee_side_failures_are_not_fatal
    firstName lastName email phone department position hireDate salary
    managerID address userID ipAddress userAgent (w : W) r s' e a err :
  EmployeeService.CreateEmployee c d firstName lastName email phone
    department position hireDate salary managerID address
    userID ipAddress userAgent (initial w) = (r, s') →
  EmployeeRepo_Create e None ∈ trace s' →
  AuditRepo_Create (Some a) err ∈ trace s' →
  ∃ p, r = Done (Some p, None) ∧ employees s' !! p = Some e.
Proof.
  intros Hrun Hpersist Hin.
  destruct (CreateEmployee_after_persist _ _ _ _ _ _ _ _ _ _ _ _ _ _ _ _ _
              Hrun Hpersist) as [_ Hall].
  by destruct (Hall _ _ Hin) as (_ & _ & _ & ?).
Qed.


Lemma validateSalary_excludes_zero (salary : float) :
  validateSalary salary = None →
  (salary =? 0)%float = false ∧ (salary <? 0)%float = false.
Proof.
  unfold validateSalary.
  destruct (salary <? 0)%float; [discriminate|].
  by destruct (salary =? 0)%float.
Qed.

Lemma salary_event_changePercent id now employeeID oldSalary newSalary
    changedBy :
  GetData (NewEmployeeSalaryChangedEvent id now employeeID oldSalary
             newSalary changedBy) !! "changePercent"
  = Some (VFloat64 (((newSalary - oldSalary) / oldSalary) * 100)%float).
Proof.
  unfold GetData, NewEmployeeSalaryChangedEvent. simpl.
  by repeat (rewrite lookup_insert_ne by done); rewrite lookup_insert_eq.
Qed.


End employee_service.

(** ** UserService *)

Section user_service.
Context {W : Type} `{GoRuntime}.
Variable c : Collaborators W.
Variable d : EventDispatcher W.

(** C4 as the code has it: when the lookup succeeds, [AuthenticateUser]
    fails with [ErrInvalidCredentials] when there is no user of that name,
    and when the user is active and the password does not match the hash;
    it fails with [ErrUserNotActive] exactly when the user exists and is
    deactivated, whether the password matches or not. *)
Theorem AuthenticateUser_failures
    username password ipAddress userAgent (w w0 : W) user r s' :
  userRepo_FindByUsername c username w = ((user, None), w0) →
  UserService.AuthenticateUser c d username password ipAddress userAgent
    (initial w) = (r, s') →
  (user = None → r = Done (None, Some ErrInvalidCredentials))
  ∧ (∀ u, user = Some u → User.IsActive u = true →
       User.CheckPassword password (User.Password u) = false →
       r = Done (None, Some ErrInvalidCredentials))
  ∧ (r = Done (None, Some ErrUserNotActive)
     ↔ ∃ u, user = Some u ∧ User.IsActive u = false).
Proof.
  intros Hfind. wp_start. unfold_service.
  repeat wp_step;
    match goal with
    | Hc : userRepo_FindByUsername c username w = _ |- _ =>
        rewrite Hfind in Hc; injection Hc as ? ?; subst
    end;
    try discriminate;
    repeat match goal with
           | Hs : Some _ = Some _ |- _ => injection Hs as ?; subst
           end.
  all: unfold User.Authenticate in *.
  all: repeat match goal with
              | Hb : negb ?b = _ |- _ =>
                  destruct b eqn:?; simpl in Hb; try discriminate; clear Hb
              | Hb : context [negb ?b] |- _ =>
                  destruct b eqn:?; simpl in Hb; try discriminate
              end.
  all: (split; [|split; [|split]]); try congruence;
    try (intros (? & ? & ?)); try (intros ? ? ? ?); simplify_eq;
    try done; try congruence; eauto.
Qed.

End user_service.

(** ** The services on the example world *)

(** An entry is in a trace that has been computed. *)
Ltac in_computed_trace :=
  vm_compute;
  repeat first [ apply list_elem_of_here | apply list_elem_of_further ].

Lemma ChangeEmployeeStatus_records_new_status_as_old_witness :
  Employee.Status Testing.john = "ACTIVE"
  ∧ ∃ a, AuditRepo_Create (Some a) None
         ∈ trace (@EmployeeService.ChangeEmployeeStatus N Testing.runtime
                    (Testing.collaborators Testing.script) Testing.dispatcher
                    7%N EmployeeStatusOnLeave "admin" "192.168.1.1"
                    "Mozilla/5.0" (initial 0%N)).2
         ∧ AuditLog.OldValues a !! "status" = Some (VString "ON_LEAVE").
Proof.
  split; [reflexivity|].
  pose proof (@ChangeEmployeeStatus_records_new_status_as_old N
                Testing.runtime (Testing.collaborators Testing.script)
                Testing.dispatcher 7%N EmployeeStatusOnLeave "admin"
                "192.168.1.1" "Mozilla/5.0" 0%N _ _ (surjective_pairing _))
    as (Haudit & _ & _).
  assert (∃ a, AuditRepo_Create (Some a) None
               ∈ trace (@EmployeeService.ChangeEmployeeStatus N
                          Testing.runtime
                          (Testing.collaborators Testing.script)
                          Testing.dispatcher 7%N EmployeeStatusOnLeave "admin"
                          "192.168.1.1" "Mozilla/5.0" (initial 0%N)).2)
    as [a Hin] by (eexists; in_computed_trace).
  exists a. split; [done|]. by apply (Haudit a None).
Defined.

Lemma CreateEmployee_panics_on_rejected_audit_log_witness :
  (@EmployeeService.CreateEmployee N Testing.runtime
     (Testing.collaborators Testing.script) Testing.dispatcher
     "John" "Doe" "john.doe@example.com" "555-123-4567" "Engineering"
     "Software Engineer" (Testing.Date 2020 3 1) 75000 None None
     "admin" "::1" "Mozilla/5.0" (initial 0%N)).1
  = Panic nil_dereference.
Proof.
  eapply (@CreateEmployee_panics_on_rejected_audit_log N Testing.runtime);
    [apply surjective_pairing| |right; left; vm_compute; reflexivity].
  in_computed_trace.
Defined.

Lemma CreateEmployee_side_failures_are_not_fatal_witness :
  ∃ p, (@EmployeeService.CreateEmployee N Testing.runtime
          (Testing.collaborators Testing.script_with_failures)
          Testing.dispatcher
          "John" "Doe" "john.doe@example.com" "555-123-4567" "Engineering"
          "Software Engineer" (Testing.Date 2020 3 1) 75000 None None
          "admin" "192.168.1.1" "Mozilla/5.0" (initial 0%N)).1
       = Done (Some p, None).
Proof.
  edestruct (@CreateEmployee_side_failures_are_not_fatal N Testing.runtime
               (Testing.collaborators Testing.script_with_failures)
               Testing.dispatcher)
    as (p & Hr & _);
    [apply surjective_pairing| | |exists p; exact Hr];
    in_computed_trace.
Defined.


(** C4 as it is stated does not hold: for a deactivated account and a
    password that does not match the stored hash, [AuthenticateUser] fails
    with [ErrUserNotActive], not with [ErrInvalidCredentials]. *)
Lemma AuthenticateUser_deactivated_with_wrong_password :
  User.IsActive Testing.deactivated_jane = false
  ∧ @User.CheckPassword Testing.runtime "wrongpassword"
      (User.Password Testing.deactivated_jane) = false
  ∧ (@UserService.AuthenticateUser N Testing.runtime
       (Testing.collaborators Testing.script_after_deactivation)
       Testing.dispatcher "janedoe" "wrongpassword" "192.168.1.1"
       "Mozilla/5.0" (initial 0%N)).1
    = Done (None, Some ErrUserNotActive)
  ∧ ErrUserNotActive ≠ ErrInvalidCredentials.
Proof.
  repeat split; try (vm_compute; reflexivity). discriminate.
Qed.

Lemma AuthenticateUser_failures_witness :
  (@UserService.AuthenticateUser N Testing.runtime
     (Testing.collaborators Testing.script_after_deactivation)
     Testing.dispatcher "janedoe" "SecurePassword123!" "192.168.1.1"
     "Mozilla/5.0" (initial 0%N)).1
  = Done (None, Some ErrUserNotActive)
  ∧ (@UserService.AuthenticateUser N Testing.runtime
       (Testing.collaborators Testing.script)
       Testing.dispatcher "janedoe" "wrongpassword" "192.168.1.1"
       "Mozilla/5.0" (initial 0%N)).1
    = Done (None, Some ErrInvalidCredentials).
Proof.
  split.
  - apply (@AuthenticateUser_failures N Testing.runtime
             (Testing.collaborators Testing.script_after_deactivation)
             Testing.dispatcher "janedoe" "SecurePassword123!" "192.168.1.1"
             "Mozilla/5.0" 0%N 0%N (Some Testing.deactivated_jane) _ _
             eq_refl (surjective_pairing _)).
    by exists Testing.deactivated_jane.
  - destruct (@AuthenticateUser_failures N Testing.runtime
                (Testing.collaborators Testing.script)
                Testing.dispatcher "janedoe" "wrongpassword" "192.168.1.1"
                "Mozilla/5.0" 0%N 0%N (Some Testing.jane) _ _
                eq_refl (surjective_pairing _)) as (_ & Hwrong & _).
    apply (Hwrong Testing.jane);
      [reflexivity|reflexivity|vm_compute; reflexivity].
Defined.

(** [Dispatch] on the example dispatcher: the first handler fails, the
    second does not take the event, the third is still invoked. *)
Example Dispatch_continues_past_failure :
  let event := NewEmployeeCreatedEvent 1%N Testing.noon 0 Testing.john in
  let '(r, s) := Dispatch Testing.dispatcher event (initial 0%N) in
  r = Done (Some (New ("event dispatch had 1 errors: "
                       ++ "[handler failed for event employee.created: "
                       ++ "mailer is down]")))
  ∧ trace s = [Handler_Handle "mailer" event (Some (New "mailer is down"));
               Handler_Handle "indexer" event None].
Proof. vm_compute. split; reflexivity. Qed.

(** [UpdateEmployee] on the example world with a negative salary in the
    field map: the employee repository receives an employee on which
    [Validate] fails, and the call returns no error. *)
Example UpdateEmployee_persists_invalid_employee :
  let run :=
    @EmployeeService.UpdateEmployee N Testing.runtime
      (Testing.collaborators Testing.script) Testing.dispatcher
      7%N Testing.pay_cut "admin" "192.168.1.1" "Mozilla/5.0" (initial 0%N) in
  run.1 = Done (Some 0, None)
  ∧ ∃ e, EmployeeRepo_Update e None ∈ trace run.2
         ∧ @Employee.Validate Testing.runtime Testing.noon e
           = Some (New "salary cannot be negative").
Proof.
  split; [vm_compute; reflexivity|].
  eexists. split; [in_computed_trace|]. vm_compute. reflexivity.
Qed.

(** [UpdateEmployee] on the example world with a raise: the audit log that
    the audit repository receives holds the address of the employee as a
    map in the old and in the new values, and [GetChangedFields] panics on
    it. *)
Example UpdateEmployee_audit_log_cannot_be_diffed :
  let run :=
    @EmployeeService.UpdateEmployee N Testing.runtime
      (Testing.collaborators Testing.script) Testing.dispatcher
      7%N (<[ "salary" := VFloat64 80000 ]> ∅) "admin" "192.168.1.1"
      "Mozilla/5.0" (initial 0%N) in
  ∃ a, AuditRepo_Create (Some a) None ∈ trace run.2
       ∧ @AuditLog.GetChangedFields Testing.runtime a
         = Panic ("runtime error: comparing uncomparable type "
                  ++ "map[string]interface {}").
Proof.
  eexists. split; [in_computed_trace|]. vm_compute. reflexivity.
Qed.

(** ** Regular expressions: the matcher decides the language *)

Section regexp.
Import Regexp.

Lemma string_app_nil_l (v : string) : "" ++ v = v.
Proof. reflexivity. Qed.

Lemma string_app_cons c (u v : string) : String c u ++ v = String c (u ++ v).
Proof. reflexivity. Qed.

Lemma string_app_nil_r (u : string) : u ++ "" = u.
Proof. induction u as [|c u IH]; [done|]. by rewrite string_app_cons, IH. Qed.

Lemma string_app_assoc (u v w : string) : (u ++ v) ++ w = u ++ (v ++ w).
Proof.
  induction u as [|c u IH]; [done|]. by rewrite !string_app_cons, IH.
Qed.

Lemma len_app (u v : string) : len (u ++ v) = len u + len v.
Proof.
  unfold len. induction u as [|c u IH]; [done|].
  rewrite string_app_cons. simpl. by rewrite IH.
Qed.

Lemma string_app_empty_inv (u v : string) : u ++ v = "" → u = "" ∧ v = "".
Proof. destruct u; [auto | discriminate]. Qed.

Lemma string_app_cons_inv (u v : string) c w :
  u ++ v = String c w →
  (u = "" ∧ v = String c w) ∨ (∃ u', u = String c u' ∧ w = u' ++ v).
Proof.
  destruct u as [|a u]; [auto|].
  rewrite string_app_cons. intros [= -> <-]. right. eauto.
Qed.

Lemma matches_void w : ¬ matches Void w.
Proof. inversion 1. Qed.

Lemma matches_seq_inv r s w :
  matches (Seq r s) w ↔ ∃ u v, w = u ++ v ∧ matches r u ∧ matches s v.
Proof.
  split.
  - inversion 1; subst; eauto.
  - intros (u & v & -> & Hu & Hv). by constructor.
Qed.

Lemma matches_or_inv r s w :
  matches (Or r s) w ↔ matches r w ∨ matches s w.
Proof.
  split.
  - inversion 1; subst; auto.
  - intros [?|?]; [by apply matches_or_l | by apply matches_or_r].
Qed.

Lemma matches_eps_inv w : matches Eps w ↔ w = "".
Proof. split; [by inversion 1 | intros ->; constructor]. Qed.

Lemma matches_cls_inv p w :
  matches (Cls p) w ↔ ∃ c, w = String c "" ∧ p c = true.
Proof.
  split.
  - inversion 1; subst; eauto.
  - intros (c & -> & Hc). by constructor.
Qed.

Lemma nullable_spec r : nullable r = true ↔ matches r "".
Proof.
  induction r as [| |p|r IHr s IHs|r IHr s IHs|r IHr]; simpl.
  - split; [discriminate | by intros ?%matches_void].
  - split; [constructor | done].
  - split; [discriminate | inversion 1].
  - rewrite andb_true_iff, IHr, IHs, matches_seq_inv. split.
    + intros [Hr Hs]. by exists "", "".
    + intros (u & v & Huv & Hu & Hv).
      symmetry in Huv. apply string_app_empty_inv in Huv as [-> ->]. done.
  - rewrite orb_true_iff, IHr, IHs, matches_or_inv. done.
  - split; [constructor | done].
Qed.

Lemma seq_spec r s w : matches (seq r s) w ↔ matches (Seq r s) w.
Proof.
  unfold seq.
  destruct r; try (destruct s; try reflexivity;
    split; [by intros ?%matches_void |
            rewrite matches_seq_inv; intros (? & ? & _ & _ & ?%matches_void); done]).
  all: split; [by intros ?%matches_void |
            rewrite matches_seq_inv; intros (? & ? & _ & ?%matches_void & _); done].
Qed.

Lemma or_spec r s w : matches (or r s) w ↔ matches (Or r s) w.
Proof.
  unfold or. rewrite matches_or_inv.
  destruct r; try (destruct s; try (rewrite matches_or_inv; reflexivity);
    split; [auto | intros [?|?%matches_void]; done]).
  all: split; [auto | intros [?%matches_void|?]; done].
Qed.

Lemma matches_star_cons_inv r c w :
  matches (Star r) (String c w) →
  ∃ u v, w = u ++ v ∧ matches r (String c u) ∧ matches (Star r) v.
Proof.
  intros Hm. remember (Star r) as sr eqn:Hsr.
  remember (String c w) as cw eqn:Hcw.
  revert w Hcw.
  induction Hm as [| | | | | |r' u v Hu _ Hv IHv]; intros w Hcw;
    try discriminate.
  injection Hsr as ->.
  apply string_app_cons_inv in Hcw as [[-> ->] | (u' & -> & ->)].
  - by apply IHv.
  - eauto.
Qed.

Lemma deriv_spec c r w : matches (deriv c r) w ↔ matches r (String c w).
Proof.
  revert w. induction r as [| |p|r IHr s IHs|r IHr s IHs|r IHr]; intros w; simpl.
  - split; intros ?%matches_void; done.
  - split; [by intros ?%matches_void | inversion 1].
  - destruct (p c) eqn:Hp.
    + rewrite matches_eps_inv. split.
      * intros ->. by constructor.
      * inversion 1; subst. done.
    + split; [by intros ?%matches_void |].
      inversion 1; subst. congruence.
  - assert (matches (Seq (deriv c r) s) w ∨ (nullable r = true ∧ matches s (String c w))
            ↔ matches (Seq r s) (String c w)) as Hseq.
    { rewrite !matches_seq_inv. split.
      - intros [(u & v & -> & Hu & Hv) | [Hnull Hs]].
        + exists (String c u), v. by rewrite <- IHr.
        + exists "", (String c w). by rewrite <- nullable_spec.
      - intros (u & v & Huv & Hu & Hv).
        symmetry in Huv. apply string_app_cons_inv in Huv as [[-> ->] | (u' & -> & ->)].
        + right. by rewrite nullable_spec.
        + left. exists u', v. by rewrite IHr. }
    destruct (nullable r) eqn:Hnull.
    + rewrite or_spec, matches_or_inv, seq_spec, IHs, <- Hseq. tauto.
    + rewrite seq_spec, <- Hseq. intuition congruence.
  - by rewrite or_spec, !matches_or_inv, IHr, IHs.
  - rewrite seq_spec, matches_seq_inv. split.
    + intros (u & v & -> & Hu & Hv).
      change (String c (u ++ v)) with (String c u ++ v).
      constructor; [by apply IHr | done].
    + intros (u & v & -> & Hu & Hv)%matches_star_cons_inv.
      exists u, v. by rewrite IHr.
Qed.

Lemma MatchString_spec r w : MatchString r w = true ↔ matches r w.
Proof.
  revert r. induction w as [|c w IH]; intros r; simpl.
  - apply nullable_spec.
  - by rewrite IH, deriv_spec.
Qed.

Lemma matches_star_cls p w :
  matches (Star (Cls p)) w ↔ all_bytes p w = true.
Proof.
  split.
  - induction w as [|c w IH]; [done|].
    intros (u & v & -> & Hu & Hv)%matches_star_cons_inv.
    apply matches_cls_inv in Hu as (c' & [= <- ->] & Hc).
    simpl. rewrite Hc. by apply IH.
  - induction w as [|c w IH]; simpl; [constructor|].
    intros [Hc Hw]%andb_true_iff.
    change (String c w) with (String c "" ++ w).
    constructor; [by constructor | by apply IH].
Qed.

Lemma matches_plus_cls p w :
  matches (Plus (Cls p)) w ↔ w ≠ "" ∧ all_bytes p w = true.
Proof.
  unfold Plus. rewrite matches_seq_inv. split.
  - intros (u & v & -> & (c & -> & Hc)%matches_cls_inv & Hv%matches_star_cls).
    simpl. by rewrite Hc.
  - destruct w as [|c w]; [by intros [] |].
    simpl. intros [_ [Hc Hw]%andb_true_iff].
    exists (String c ""), w. rewrite matches_cls_inv, matches_star_cls. eauto.
Qed.

Lemma matches_chr c w : matches (Chr c) w ↔ w = String c "".
Proof.
  unfold Chr. rewrite matches_cls_inv. unfold one. split.
  - intros (c' & -> & ->%Ascii.eqb_eq). done.
  - intros ->. exists c. by rewrite Ascii.eqb_refl.
Qed.

Lemma matches_times_cls n p w :
  matches (Times n (Cls p)) w ↔ len w = n ∧ all_bytes p w = true.
Proof.
  revert w. induction n as [|n IH]; intros w; simpl.
  - rewrite matches_eps_inv. destruct w; simpl; intuition (done || lia).
  - rewrite matches_seq_inv. split.
    + intros (u & v & -> & (c & -> & Hc)%matches_cls_inv & [Hlen Hv]%IH).
      simpl. rewrite Hc. unfold len in *. simpl. auto.
    + destruct w as [|c w]; [by intros []|].
      simpl. intros [Hlen [Hc Hw]%andb_true_iff].
      exists (String c ""), w. rewrite matches_cls_inv, IH.
      unfold len in *. simpl in Hlen. split; [done|]. split; [eauto|]. split; [lia|done].
Qed.

End regexp.

(** ** What the validators of texts accept *)

Ltac all_ascii c :=
  destruct c as [[] [] [] [] [] [] [] []]; reflexivity.

Section classes.
Import Regexp.

Lemma all_bytes_ext p q s :
  (∀ c, p c = q c) → all_bytes p s = all_bytes q s.
Proof. intros Hpq. induction s as [|c s IH]; simpl; [done|]. by rewrite Hpq, IH. Qed.

Lemma all_bytes_app p u v :
  all_bytes p (u ++ v) = all_bytes p u && all_bytes p v.
Proof.
  induction u as [|c u IH]; [done|].
  rewrite string_app_cons. simpl. by rewrite IH, andb_assoc.
Qed.

Lemma phone_class c :
  any [digit; space; one "-"; one "+"; one "("; one ")"] c
  = one_of (digits ++ whitespace ++ "-+()") c.
Proof. all_ascii c. Qed.

Lemma username_class c :
  any [alnum; one "_"] c = one_of (letters ++ digits ++ "_") c.
Proof. all_ascii c. Qed.

Lemma email_local_class c :
  any [alnum; one "."; one "_"; one "%"; one "+"; one "-"] c
  = one_of (letters ++ digits ++ "._%+-") c.
Proof. all_ascii c. Qed.

Lemma email_domain_class c :
  any [alnum; one "."; one "-"] c = one_of (letters ++ digits ++ ".-") c.
Proof. all_ascii c. Qed.

Lemma alpha_class c : alpha c = one_of letters c.
Proof. all_ascii c. Qed.

Lemma len_zero s : len s = 0 ↔ s = "".
Proof. destruct s; [done|]. split; discriminate. Qed.

Lemma is_empty_true s : is_empty s = true ↔ s = "".
Proof. unfold is_empty. apply String.eqb_eq. Qed.

Lemma is_empty_len s : is_empty s = (len s =? 0)%nat.
Proof. by destruct s. Qed.

Lemma split_at (n : nat) w :
  (n ≤ len w)%nat → ∃ u v, w = u ++ v ∧ len u = n.
Proof.
  revert w. induction n as [|n IH]; intros w Hn.
  - by exists "", w.
  - destruct w as [|c w]; [unfold len in Hn; simpl in Hn; lia|].
    destruct (IH w) as (u & v & -> & Hu); [unfold len in *; simpl in Hn; lia|].
    exists (String c u), v. split; [done|]. unfold len in *. simpl. lia.
Qed.

Lemma matches_atleast_cls n p w :
  matches (AtLeast n (Cls p)) w ↔ (n ≤ len w)%nat ∧ all_bytes p w = true.
Proof.
  unfold AtLeast. rewrite matches_seq_inv. split.
  - intros (u & v & -> & [Hlen Hu]%matches_times_cls & Hv%matches_star_cls).
    rewrite len_app, all_bytes_app, Hu, Hv. split; [lia|done].
  - intros [Hlen Hall].
    destruct (split_at n w Hlen) as (u & v & -> & Hu).
    rewrite all_bytes_app in Hall. apply andb_true_iff in Hall as [? ?].
    exists u, v. by rewrite matches_times_cls, matches_star_cls.
Qed.

End classes.

Section validators_spec.
Context `{GoRuntime}.
Import Regexp.

(** [validatePhone] accepts exactly the texts of 1 to 20 bytes that are made
    of digits, white space and the bytes [-], [+], [(] and [)]; the empty
    text is rejected, although [Validate] lets an employee have no phone. *)
Theorem validatePhone_accepts (phone : string) :
  validatePhone phone = None
  ↔ (1 ≤ len phone ≤ 20)%nat
    ∧ all_bytes (one_of (digits ++ whitespace ++ "-+()")) phone = true.
Proof.
  unfold validatePhone, phoneRegex.
  destruct (20 <? len phone)%nat eqn:Hlong.
  { apply Nat.ltb_lt in Hlong. split; [done | intros [[_ ?] _]; lia]. }
  apply Nat.ltb_ge in Hlong.
  destruct (MatchString _ phone) eqn:Hm; simpl.
  - apply MatchString_spec, matches_plus_cls in Hm as [Hne Hall].
    rewrite (all_bytes_ext _ _ _ phone_class) in Hall.
    split; [|done]. intros _. split; [|done].
    destruct phone; [done|]. unfold len in *. simpl in *. lia.
  - split; [done|]. intros [[Hne _] Hall].
    assert (MatchString (Plus (Cls (any [digit; space; one "-"; one "+";
                                         one "("; one ")"]))) phone = true)
      as Hyes; [|congruence].
    apply MatchString_spec, matches_plus_cls.
    rewrite (all_bytes_ext _ _ _ phone_class).
    split; [|done]. intros ->. unfold len in Hne. simpl in Hne. lia.
Qed.


Lemma email_regex_spec w :
  matches emailRegex w
  ↔ ∃ local domain tld,
      w = local ++ "@" ++ domain ++ "." ++ tld
      ∧ local ≠ ""
      ∧ all_bytes (one_of (letters ++ digits ++ "._%+-")) local = true
      ∧ domain ≠ ""
      ∧ all_bytes (one_of (letters ++ digits ++ ".-")) domain = true
      ∧ (2 ≤ len tld)%nat
      ∧ all_bytes (one_of letters) tld = true.
Proof.
  unfold emailRegex. split.
  - intros (local & w1 & -> & [Hl1 Hl2]%matches_plus_cls & Hw1)%matches_seq_inv.
    apply matches_seq_inv in Hw1 as (at_ & w2 & -> & ->%matches_chr & Hw2).
    apply matches_seq_inv
      in Hw2 as (domain & w3 & -> & [Hd1 Hd2]%matches_plus_cls & Hw3).
    apply matches_seq_inv in Hw3 as (dot & tld & -> & ->%matches_chr & Ht).
    apply matches_atleast_cls in Ht as [Ht1 Ht2].
    exists local, domain, tld.
    rewrite <- (all_bytes_ext _ _ _ email_local_class),
      <- (all_bytes_ext _ _ _ email_domain_class),
      <- (all_bytes_ext _ _ _ alpha_class).
    done.
  - intros (local & domain & tld & -> & Hl1 & Hl2 & Hd1 & Hd2 & Ht1 & Ht2).
    rewrite <- (all_bytes_ext _ _ _ email_local_class) in Hl2.
    rewrite <- (all_bytes_ext _ _ _ email_domain_class) in Hd2.
    rewrite <- (all_bytes_ext _ _ _ alpha_class) in Ht2.
    apply matches_seq_inv. exists local, ("@" ++ domain ++ "." ++ tld).
    split; [done|]. split; [by apply matches_plus_cls|].
    apply matches_seq_inv. exists "@", (domain ++ "." ++ tld).
    split; [done|]. split; [by apply matches_chr|].
    apply matches_seq_inv. exists domain, ("." ++ tld).
    split; [done|]. split; [by apply matches_plus_cls|].
    apply matches_seq_inv. exists ".", tld.
    split; [done|]. split; [by apply matches_chr|].
    by apply matches_atleast_cls.
Qed.

(** [validateEmail] accepts exactly the texts of at most 100 bytes of the
    form local@domain.tld, where the local part is not empty and made of
    letters, digits and [._%+-], the domain is not empty and made of
    letters, digits and [.-], and the last label has at least two letters
    and nothing else; [validateUserEmail] gives the same verdict on every
    text. *)
Theorem validateEmail_accepts (email : string) :
  (validateEmail email = None
   ↔ (len email ≤ 100)%nat
     ∧ ∃ local domain tld,
         email = local ++ "@" ++ domain ++ "." ++ tld
         ∧ local ≠ ""
         ∧ all_bytes (one_of (letters ++ digits ++ "._%+-")) local = true
         ∧ domain ≠ ""
         ∧ all_bytes (one_of (letters ++ digits ++ ".-")) domain = true
         ∧ (2 ≤ len tld)%nat
         ∧ all_bytes (one_of letters) tld = true)
  ∧ User.validateUserEmail email = validateEmail email.
Proof.
  split; [|reflexivity].
  rewrite <- email_regex_spec, <- MatchString_spec.
  unfold validateEmail.
  destruct (is_empty email) eqn:Hempty.
  { apply is_empty_true in Hempty as ->. split; [done|]. by intros [_ [=]]. }
  destruct (100 <? len email)%nat eqn:Hlong.
  { apply Nat.ltb_lt in Hlong. split; [done | intros [? _]; lia]. }
  apply Nat.ltb_ge in Hlong.
  destruct (MatchString emailRegex email); simpl; split; try done.
  by intros [_ [=]].
Qed.

Lemma byte_is_true s i c : byte_is s i c = true ↔ String.get i s = Some c.
Proof.
  unfold byte_is. destruct (String.get i s) as [a|]; [|done].
  rewrite Ascii.eqb_eq. split; congruence.
Qed.

(** [validateUsername] accepts exactly the texts of 3 to 50 bytes that are
    made of letters, digits and underscores and neither start nor end with
    an underscore. *)
Theorem validateUsername_accepts (username : string) :
  User.validateUsername username = None
  ↔ (3 ≤ len username ≤ 50)%nat
    ∧ all_bytes (one_of (letters ++ digits ++ "_")) username = true
    ∧ String.get 0 username ≠ Some "_"%char
    ∧ String.get (len username - 1) username ≠ Some "_"%char.
Proof.
  unfold User.validateUsername, User.usernameRegex.
  rewrite is_empty_len.
  destruct (len username =? 0)%nat eqn:Hzero.
  { apply Nat.eqb_eq in Hzero. split; [done | intros [? _]; lia]. }
  destruct (len username <? 3)%nat eqn:Hshort.
  { apply Nat.ltb_lt in Hshort. split; [done | intros [? _]; lia]. }
  destruct (50 <? len username)%nat eqn:Hlong.
  { apply Nat.ltb_lt in Hlong. split; [done | intros [? _]; lia]. }
  apply Nat.ltb_ge in Hshort, Hlong.
  rewrite <- (all_bytes_ext _ _ _ username_class).
  destruct (MatchString _ username) eqn:Hm; simpl.
  - apply MatchString_spec, matches_plus_cls in Hm as [_ Hall].
    destruct (byte_is username 0 "_") eqn:Hfirst; simpl.
    { apply byte_is_true in Hfirst. split; [done|]. by intros (_ & _ & ? & _). }
    destruct (byte_is username (len username - 1) "_") eqn:Hlast; simpl.
    { apply byte_is_true in Hlast. split; [done|]. by intros (_ & _ & _ & ?). }
    split; [|done]. intros _.
    split; [lia|]. split; [done|].
    split; intros ?%byte_is_true; congruence.
  - split; [done|]. intros (_ & Hall & _).
    assert (MatchString (Plus (Cls (any [alnum; one "_"]))) username = true)
      as Hyes; [|congruence].
    apply MatchString_spec, matches_plus_cls. split; [|done].
    intros ->. unfold len in Hshort. simpl in Hshort. lia.
Qed.

End validators_spec.

Section password_spec.
Context `{GoRuntime} `{GoUnicode}.

Lemma password_classes_spec runes seen :
  let final := password_classes runes seen in
  hasUpper final = hasUpper seen || existsb unicode_IsUpper runes
  ∧ hasLower final
    = hasLower seen
      || existsb (λ r, negb (unicode_IsUpper r) && unicode_IsLower r) runes
  ∧ hasNumber final
    = hasNumber seen
      || existsb (λ r, negb (unicode_IsUpper r) && negb (unicode_IsLower r)
                       && unicode_IsNumber r) runes
  ∧ hasSpecial final
    = hasSpecial seen
      || existsb (λ r, negb (unicode_IsUpper r) && negb (unicode_IsLower r)
                       && negb (unicode_IsNumber r)
                       && (unicode_IsPunct r || unicode_IsSymbol r)) runes.
Proof.
  revert seen. induction runes as [|r runes IH]; intros seen; simpl.
  - by rewrite !orb_false_r.
  - destruct (unicode_IsUpper r), (unicode_IsLower r), (unicode_IsNumber r),
      (unicode_IsPunct r || unicode_IsSymbol r);
      simpl;
      match goal with
      | |- context [password_classes runes ?s] =>
          destruct (IH s) as (-> & -> & -> & ->)
      end;
      simpl; rewrite ?orb_true_r, ?orb_false_r; done.
Qed.

(** [validatePasswordStrength] accepts exactly the passwords of 8 to 128
    bytes that hold an upper-case rune, a lower-case rune that is not
    upper-case, a number rune that is neither, and a punctuation or symbol
    rune that is none of the three: a rune counts for the first class of
    the [switch] that it belongs to. *)
Theorem validatePasswordStrength_accepts (password : string) :
  validatePasswordStrength password = None
  ↔ (8 ≤ len password ≤ 128)%nat
    ∧ (∃ r, r ∈ utf8_runes password ∧ unicode_IsUpper r = true)
    ∧ (∃ r, r ∈ utf8_runes password
            ∧ unicode_IsUpper r = false ∧ unicode_IsLower r = true)
    ∧ (∃ r, r ∈ utf8_runes password
            ∧ unicode_IsUpper r = false ∧ unicode_IsLower r = false
            ∧ unicode_IsNumber r = true)
    ∧ (∃ r, r ∈ utf8_runes password
            ∧ unicode_IsUpper r = false ∧ unicode_IsLower r = false
            ∧ unicode_IsNumber r = false
            ∧ (unicode_IsPunct r = true ∨ unicode_IsSymbol r = true)).
Proof.
  unfold validatePasswordStrength.
  rewrite is_empty_len.
  destruct (len password =? 0)%nat eqn:Hzero.
  { apply Nat.eqb_eq in Hzero. split; [done | intros [? _]; lia]. }
  destruct (len password <? 8)%nat eqn:Hshort.
  { apply Nat.ltb_lt in Hshort. split; [done | intros [? _]; lia]. }
  destruct (128 <? len password)%nat eqn:Hlong.
  { apply Nat.ltb_lt in Hlong. split; [done | intros [? _]; lia]. }
  apply Nat.ltb_ge in Hshort, Hlong.
  destruct (password_classes_spec (utf8_runes password)
              {| hasUpper := false; hasLower := false; hasNumber := false;
                 hasSpecial := false |}) as (-> & -> & -> & ->).
  simpl.
  assert (∀ (p : rune → bool) l, existsb p l = true ↔ ∃ r, r ∈ l ∧ p r = true)
    as Hex.
  { intros p l. rewrite existsb_exists. by setoid_rewrite list_elem_of_In. }
  set (runes := utf8_runes password).
  destruct (existsb unicode_IsUpper runes) eqn:Hupper; simpl.
  2:{ split; [done|]. intros (_ & ?%Hex & _). congruence. }
  destruct (existsb _ runes) eqn:Hlower in |- *; simpl.
  2:{ split; [done|]. intros (_ & _ & (r & Hin & Hu & Hl) & _).
      assert (existsb (λ r, negb (unicode_IsUpper r) && unicode_IsLower r)
                runes = true) as Hyes; [|congruence].
      apply Hex. exists r. by rewrite Hu, Hl. }
  destruct (existsb _ runes) eqn:Hnumber in |- *; simpl.
  2:{ split; [done|]. intros (_ & _ & _ & (r & Hin & Hu & Hl & Hn) & _).
      assert (existsb (λ r, negb (unicode_IsUpper r)
                            && negb (unicode_IsLower r)
                            && unicode_IsNumber r) runes = true)
        as Hyes; [|congruence].
      apply Hex. exists r. by rewrite Hu, Hl, Hn. }
  destruct (existsb _ runes) eqn:Hspecial in |- *; simpl.
  2:{ split; [done|]. intros (_ & _ & _ & _ & (r & Hin & Hu & Hl & Hn & Hs)).
      assert (existsb (λ r, negb (unicode_IsUpper r)
                            && negb (unicode_IsLower r)
                            && negb (unicode_IsNumber r)
                            && (unicode_IsPunct r || unicode_IsSymbol r))
                runes = true) as Hyes; [|congruence].
      apply Hex. exists r. rewrite Hu, Hl, Hn. simpl.
      destruct Hs as [-> | ->]; [done | by rewrite orb_true_r]. }
  split; [|done]. intros _. split; [lia|].
  apply Hex in Hupper, Hlower, Hnumber, Hspecial.
  split; [done|].
  destruct Hlower as (r1 & ? & [?%negb_true_iff ?]%andb_true_iff).
  destruct Hnumber
    as (r2 & ? & [[?%negb_true_iff ?%negb_true_iff]%andb_true_iff ?]%andb_true_iff).
  destruct Hspecial
    as (r3 & ? & [[[?%negb_true_iff ?%negb_true_iff]%andb_true_iff
                   ?%negb_true_iff]%andb_true_iff ?%orb_true_iff]%andb_true_iff).
  split; [by exists r1|]. split; [by exists r2|]. by exists r3.
Qed.

End password_spec.

(** ** Addresses *)

Ltac to_arith :=
  repeat match goal with
  | H : _ ∧ _ |- _ => destruct H
  | H : _ && _ = true |- _ => apply andb_true_iff in H as [? ?]
  | H : _ || _ = false |- _ => apply orb_false_iff in H as [? ?]
  | H : negb _ = true |- _ => apply negb_true_iff in H
  | H : negb _ = false |- _ => apply negb_false_iff in H
  | H : (_ =? _)%nat = true |- _ => apply Nat.eqb_eq in H
  | H : (_ =? _)%nat = false |- _ => apply Nat.eqb_neq in H
  | H : (_ <? _)%nat = true |- _ => apply Nat.ltb_lt in H
  | H : (_ <? _)%nat = false |- _ => apply Nat.ltb_ge in H
  | H : (_ <=? _)%nat = true |- _ => apply Nat.leb_le in H
  | H : (_ <=? _)%nat = false |- _ => apply Nat.leb_gt in H
  | H : _ && _ = false |- _ => apply andb_false_iff in H as [?|?]
  | H : _ || _ = true |- _ => apply orb_true_iff in H as [?|?]
  | H : _ ∨ _ |- _ => destruct H
  end.

Section address.
Context `{GoRuntime}.

(** An address is valid exactly when all of its fields are empty, or when
    all five are filled in: a street of 5 to 200 bytes, a city of 2 to 100
    bytes, a state of 2 to 50 bytes, a postal code that
    [validatePostalCode] accepts and a country of 2 to 100 bytes. *)
Theorem Address_Validate_all_or_nothing (a : Address.t) :
  Address.Validate (Some a) = None
  ↔ Address.IsEmpty (Some a) = true
    ∨ ((5 ≤ len (Address.Street a) ≤ 200)%nat
       ∧ (2 ≤ len (Address.City a) ≤ 100)%nat
       ∧ (2 ≤ len (Address.State a) ≤ 50)%nat
       ∧ Address.PostalCode a ≠ ""
       ∧ Address.validatePostalCode (Address.PostalCode a) = None
       ∧ (2 ≤ len (Address.Country a) ≤ 100)%nat).
Proof.
  unfold Address.Validate, Address.IsEmpty.
  rewrite <- (len_zero (Address.PostalCode a)).
  rewrite !is_empty_len.
  set (street := len (Address.Street a)).
  set (city := len (Address.City a)).
  set (state := len (Address.State a)).
  set (postal := len (Address.PostalCode a)).
  set (country := len (Address.Country a)).
  destruct (Address.validatePostalCode (Address.PostalCode a)) as [err|] eqn:Hpostal.
  all: destruct (street =? 0)%nat eqn:?, (city =? 0)%nat eqn:?,
         (state =? 0)%nat eqn:?, (postal =? 0)%nat eqn:?,
         (country =? 0)%nat eqn:?; simpl.
  all: repeat match goal with
         | |- (if ?c then Some _ else _) = None ↔ _ =>
             destruct c eqn:?
         end.
  all: split; [try discriminate; intros _ | intros; try reflexivity; exfalso];
       to_arith; try discriminate; try lia; try (left; reflexivity).
  all: right; repeat split; try lia; try done.
Qed.

End address.

(** ** The methods of the Employee aggregate *)

Section employee_methods.
Context `{GoRuntime}.

(** The six mutating methods of the aggregate check before they assign: a
    call that returns an error leaves every field of the employee, the
    time of the last update included, as it was. *)
Theorem aggregate_methods_are_atomic now e e' err :
  (∀ t, Employee.ChangeStatus now t e = (e', Some err) → e' = e)
  ∧ (∀ s, Employee.UpdateSalary now s e = (e', Some err) → e' = e)
  ∧ (∀ email phone,
       Employee.UpdateContactInfo now email phone e = (e', Some err) → e' = e)
  ∧ (∀ position department,
       Employee.UpdatePosition now position department e = (e', Some err) →
       e' = e)
  ∧ (∀ address, Employee.UpdateAddress now address e = (e', Some err) → e' = e)
  ∧ (∀ managerID, Employee.SetManager now managerID e = (e', Some err) →
                  e' = e).
Proof.
  unfold Employee.ChangeStatus, Employee.UpdateSalary,
    Employee.UpdateContactInfo, Employee.UpdatePosition,
    Employee.UpdateAddress, Employee.SetManager.
  repeat split; intros; repeat case_match; congruence.
Qed.

(** After [SetManager] has returned no error, the manager is not the
    employee itself, [HasManager] tells whether a manager was given,
    [CanBeManagedBy] holds of the given manager and of no one else, and
    never of the employee itself. *)
Theorem SetManager_then_CanBeManagedBy now managerID e e' :
  Employee.SetManager now managerID e = (e', None) →
  managerID ≠ Some (Employee.ID e)
  ∧ Employee.HasManager e' = has_value managerID
  ∧ (∀ m, Employee.CanBeManagedBy e' m = true ↔ managerID = Some m)
  ∧ Employee.CanBeManagedBy e' (Employee.ID e') = false.
Proof.
  unfold Employee.SetManager.
  assert (∀ m, Employee.CanBeManagedBy
                 (Employee.set_UpdatedAt now (Employee.set_ManagerID managerID e)) m
               = true ↔ managerID = Some m) as Hman.
  { intros m. unfold Employee.CanBeManagedBy. simpl.
    destruct managerID as [m'|]; [|done].
    rewrite N.eqb_eq. split; congruence. }
  destruct managerID as [m|].
  - destruct (m =? Employee.ID e)%N eqn:Hself; [discriminate|].
    intros [= <-]. apply N.eqb_neq in Hself.
    split; [congruence|]. split; [done|]. split; [done|].
    apply not_true_is_false. rewrite Hman. simpl. congruence.
  - intros [= <-]. split; [done|]. split; [done|]. split; [done|].
    apply not_true_is_false. by rewrite Hman.
Qed.

End employee_methods.

Lemma aggregate_methods_are_atomic_witness :
  (Employee.UpdateSalary Testing.noon (-5) Testing.john).1 = Testing.john.
Proof.
  destruct (Employee.UpdateSalary Testing.noon (-5) Testing.john)
    as [e' [err|]] eqn:Hcall; [|vm_compute in Hcall; discriminate].
  destruct (@aggregate_methods_are_atomic Testing.runtime Testing.noon
              Testing.john e' err) as (_ & Hsalary & _).
  by apply (Hsalary (-5)%float).
Defined.

Lemma SetManager_then_CanBeManagedBy_witness :
  Employee.CanBeManagedBy
    (Employee.SetManager Testing.noon (Some 3%N) Testing.john).1 3%N = true.
Proof.
  destruct (SetManager_then_CanBeManagedBy Testing.noon (Some 3%N) Testing.john
              (Employee.SetManager Testing.noon (Some 3%N) Testing.john).1
              eq_refl) as (_ & _ & Hm & _).
  by apply Hm.
Defined.

Section roles.

Lemma has_permission_spec permissions permission :
  UserRole.has_permission permissions permission = true
  ↔ permission ∈ permissions.
Proof.
  induction permissions as [|p rest IH]; simpl.
  - split; [done | by intros ?%elem_of_nil].
  - rewrite elem_of_cons. destruct (String.eqb_spec p permission) as [->|Hne].
    + tauto.
    + rewrite IH. intuition congruence.
Qed.

Ltac role_cases r :=
  unfold UserRole.HasPermission, UserRole.GetPermissions, UserRole.IsValid,
    UserRole.CanDeleteEmployees, UserRole.CanManageUsers,
    UserRole.CanAccessSalary, UserRole.CanViewAuditLogs;
  destruct (String.eqb_spec r UserRoleAdmin) as [->|?];
    [reflexivity|];
  destruct (String.eqb_spec r UserRoleManager) as [->|?];
    [reflexivity|];
  destruct (String.eqb_spec r UserRoleViewer) as [->|?];
    reflexivity.

(** The permissions of the roles are nested: a viewer's are a manager's,
    and a manager's are an administrator's; a role that is not valid has no
    permission. [CanDeleteEmployees], [CanManageUsers] and
    [CanAccessSalary] agree, on every role, with holding "employee:delete",
    "user:write" and "employee:write"; [CanViewAuditLogs] holds of every
    role, valid or not, while "audit:read" is held by the valid ones
    only. *)
Theorem role_permissions_are_nested :
  (∀ p, UserRole.HasPermission UserRoleViewer p = true →
        UserRole.HasPermission UserRoleManager p = true)
  ∧ (∀ p, UserRole.HasPermission UserRoleManager p = true →
          UserRole.HasPermission UserRoleAdmin p = true)
  ∧ (∀ r p, UserRole.IsValid r = false → UserRole.HasPermission r p = false)
  ∧ (∀ r, UserRole.CanDeleteEmployees r
          = UserRole.HasPermission r "employee:delete")
  ∧ (∀ r, UserRole.CanManageUsers r = UserRole.HasPermission r "user:write")
  ∧ (∀ r, UserRole.CanAccessSalary r
          = UserRole.HasPermission r "employee:write")
  ∧ (∀ r, UserRole.CanViewAuditLogs r = true
          ∧ UserRole.HasPermission r "audit:read" = UserRole.IsValid r).
Proof.
  split; [|split; [|split; [|split; [|split; [|split]]]]].
  - intros p. unfold UserRole.HasPermission. rewrite !has_permission_spec.
    simpl. set_solver.
  - intros p. unfold UserRole.HasPermission. rewrite !has_permission_spec.
    simpl. set_solver.
  - intros r p. unfold UserRole.HasPermission, UserRole.GetPermissions,
      UserRole.IsValid.
    destruct (r =? UserRoleAdmin), (r =? UserRoleManager),
      (r =? UserRoleViewer); simpl; congruence.
  - intros r. role_cases r.
  - intros r. role_cases r.
  - intros r. role_cases r.
  - intros r. split; [done|]. role_cases r.
Qed.

(** [HasAllPermissions] holds exactly when the user has every permission
    of the list, and [HasAnyPermission] exactly when the user has one of
    them. *)
Lemma HasAllPermissions_spec (u : User.t) (permissions : list string) :
  (User.HasAllPermissions u permissions = true
   ↔ ∀ p, p ∈ permissions → User.HasPermission u p = true)
  ∧ (User.HasAnyPermission u permissions = true
     ↔ ∃ p, p ∈ permissions ∧ User.HasPermission u p = true).
Proof.
  induction permissions as [|p rest [IHall IHany]]; simpl.
  - split; split; try done.
    + by intros _ ? ?%elem_of_nil.
    + by intros (? & ?%elem_of_nil & _).
  - destruct (User.HasPermission u p) eqn:Hp; simpl.
    + rewrite IHall. split.
      * split; [|set_solver]. intros Hrest q [->|?]%elem_of_cons; auto.
      * split; [|done]. intros _. exists p. set_solver.
    + split.
      * split; [done|]. intros Hall. rewrite Hall in Hp; [done|set_solver].
      * rewrite IHany. split.
        -- intros (q & ? & ?). exists q. set_solver.
        -- intros (q & [->|?]%elem_of_cons & ?); [congruence|eauto].
Qed.

(** Whatever a user may do, an administrator may do: when a user of any
    role has one or all of the permissions of a list, so does every user
    whose role is ADMIN. *)
Theorem administrator_has_every_permission (u admin : User.t)
    (permissions : list string) :
  User.Role admin = UserRoleAdmin →
  (∀ p, User.HasPermission u p = true → User.HasPermission admin p = true)
  ∧ (User.HasAnyPermission u permissions = true →
     User.HasAnyPermission admin permissions = true)
  ∧ (User.HasAllPermissions u permissions = true →
     User.HasAllPermissions admin permissions = true).
Proof.
  intros Hadmin.
  assert (∀ p, User.HasPermission u p = true →
               User.HasPermission admin p = true) as Hsub.
  { intros p. unfold User.HasPermission, UserRole.HasPermission,
      UserRole.GetPermissions.
    rewrite Hadmin, !has_permission_spec.
    destruct (User.Role u =? UserRoleAdmin); [done|].
    destruct (User.Role u =? UserRoleManager); [simpl; set_solver|].
    destruct (User.Role u =? UserRoleViewer); simpl; set_solver. }
  destruct (HasAllPermissions_spec u permissions) as [Hall_u Hany_u].
  destruct (HasAllPermissions_spec admin permissions) as [Hall_a Hany_a].
  split; [done|]. split.
  - intros Hany. apply Hany_a. apply Hany_u in Hany as (p & ? & ?). eauto.
  - intros Hall. apply Hall_a. intros p Hp. apply Hsub. by apply Hall_u.
Qed.

End roles.

Lemma administrator_has_every_permission_witness :
  User.HasAllPermissions (User.set_Role UserRoleAdmin Testing.jane)
    ["employee:read"; "audit:read"] = true.
Proof.
  destruct (administrator_has_every_permission Testing.jane
              (User.set_Role UserRoleAdmin Testing.jane)
              ["employee:read"; "audit:read"] eq_refl) as (_ & _ & Hall).
  apply Hall. reflexivity.
Defined.

(** ** User accounts and passwords *)

Section accounts.
Context `{GoRuntime} `{GoUnicode}.

(** [Deactivate] on an active user succeeds and locks the account: a
    second [Deactivate] fails, [Authenticate] rejects every password, the
    right one included, [ChangePassword] fails with "current password is
    incorrect" whatever the current password given, and no reset token is
    valid; [Activate] then gives back the user as it was before, but for
    the time of the last update. *)
Theorem Deactivate_locks_the_account now now' generated (u : User.t) :
  User.IsActive u = true →
  let u' := User.set_UpdatedAt now (User.set_IsActive false u) in
  User.Deactivate now u = (u', None)
  ∧ User.Deactivate now' u' = (u', Some (New "user is already inactive"))
  ∧ (∀ password, User.Authenticate u' password = false)
  ∧ (∀ currentPassword newPassword,
       ChangePassword now' generated currentPassword newPassword u'
       = (u', Some (New "current password is incorrect")))
  ∧ (∀ token expiry, User.ValidatePasswordResetToken u' token expiry = false)
  ∧ User.Activate now' u' = (User.set_UpdatedAt now' u, None).
Proof.
  intros Hactive u'.
  unfold User.Deactivate, User.Activate, ChangePassword, User.Authenticate,
    User.ValidatePasswordResetToken.
  rewrite Hactive. simpl.
  repeat split.
  - intros token expiry. apply andb_false_r.
  - destruct u. simpl in Hactive. subst. reflexivity.
Qed.

(** Whenever the hash that bcrypt generated for a password verifies that
    password, each of the three ways to set a password, [NewUser],
    [ResetPassword] and [ChangePassword], succeeds only with a password
    that [validatePasswordStrength] accepts, and leaves a user that (when
    active) authenticates with that password; [ChangePassword] succeeds
    only when the user authenticates with the current password. *)
Theorem passwords_are_checked_and_verify id now generated hash
    username email password role :
  generated = (hash, None) →
  bcrypt_matches hash password = true →
  (∀ u, NewUser id now generated username email password role = (Some u, None) →
        validatePasswordStrength password = None
        ∧ User.Authenticate u password = true)
  ∧ (∀ u u', ResetPassword now generated password u = (u', None) →
             validatePasswordStrength password = None
             ∧ (User.IsActive u = true → User.Authenticate u' password = true))
  ∧ (∀ u u' currentPassword,
       ChangePassword now generated currentPassword password u = (u', None) →
       validatePasswordStrength password = None
       ∧ User.Authenticate u currentPassword = true
       ∧ User.Authenticate u' password = true).
Proof.
  intros -> Hmatch. split; [|split].
  - intros u. unfold NewUser, HashPassword.
    destruct (User.Validate _); [discriminate|].
    destruct (validatePasswordStrength password); [discriminate|].
    intros [= <-]. split; [done|].
    unfold User.Authenticate, User.CheckPassword. simpl. done.
  - intros u u'. unfold ResetPassword, HashPassword.
    destruct (validatePasswordStrength password); [discriminate|].
    intros [= <-]. split; [done|]. intros Hactive.
    unfold User.Authenticate, User.CheckPassword. simpl. by rewrite Hactive.
  - intros u u' currentPassword. unfold ChangePassword, HashPassword.
    destruct (User.Authenticate u currentPassword) eqn:Hauth; [|discriminate].
    simpl.
    destruct (validatePasswordStrength password); [discriminate|].
    intros [= <-]. split; [done|]. split; [done|].
    unfold User.Authenticate, User.CheckPassword in *. simpl.
    destruct (User.IsActive u); [done|discriminate].
Qed.

End accounts.

Lemma Deactivate_locks_the_account_witness :
  @User.Authenticate Testing.runtime
    (User.Deactivate Testing.noon Testing.jane).1 "SecurePassword123!"
  = false.
Proof.
  destruct (@Deactivate_locks_the_account Testing.runtime Testing.unicode
              Testing.noon Testing.noon ("", None) Testing.jane eq_refl)
    as (Hcall & _ & Hauth & _).
  rewrite Hcall. apply Hauth.
Defined.

Lemma passwords_are_checked_and_verify_witness :
  ∃ u, @NewUser Testing.runtime Testing.unicode 11%N Testing.noon
         (Testing.testing_hash "SecurePassword123!", None)
         "johndoe" "john.doe@example.com" "SecurePassword123!" UserRoleViewer
       = (Some u, None)
       ∧ @User.Authenticate Testing.runtime u "SecurePassword123!" = true.
Proof.
  exists (User.set_Password (Testing.testing_hash "SecurePassword123!")
            {| User.ID := 11%N; User.Username := "johndoe";
               User.Email := "john.doe@example.com"; User.Password := "";
               User.Role := UserRoleViewer; User.IsActive := true;
               User.LastLogin := None; User.CreatedAt := Testing.noon;
               User.UpdatedAt := Testing.noon |}).
  assert (@NewUser Testing.runtime Testing.unicode 11%N Testing.noon
            (Testing.testing_hash "SecurePassword123!", None)
            "johndoe" "john.doe@example.com" "SecurePassword123!"
            UserRoleViewer
          = (Some (User.set_Password
                     (Testing.testing_hash "SecurePassword123!")
                     {| User.ID := 11%N; User.Username := "johndoe";
                        User.Email := "john.doe@example.com";
                        User.Password := "";
                        User.Role := UserRoleViewer; User.IsActive := true;
                        User.LastLogin := None;
                        User.CreatedAt := Testing.noon;
                        User.UpdatedAt := Testing.noon |}), None)) as Hnew
    by (vm_compute; reflexivity).
  split; [exact Hnew|].
  apply (@passwords_are_checked_and_verify Testing.runtime Testing.unicode
           11%N Testing.noon
           (Testing.testing_hash "SecurePassword123!", None)
           (Testing.testing_hash "SecurePassword123!")
           "johndoe" "john.doe@example.com"
           "SecurePassword123!" UserRoleViewer eq_refl eq_refl).
  exact Hnew.
Defined.

(** ** Summaries and field changes of audit logs *)

Section summaries.
Context `{GoRuntime}.

Lemma joinFields_loop_spec n i fields last result :
  (0 < i)%nat → (i + length fields + 1 = n)%nat →
  AuditLog.joinFields_loop n i (fields ++ [last]) result
  = result ++ after_commas fields ++ ", and " ++ last.
Proof.
  revert i result. induction fields as [|f fields IH]; intros i result Hi Hn.
  - simpl in *.
    assert ((0 <? i)%nat = true) as -> by (apply Nat.ltb_lt; lia).
    assert ((i =? n - 1)%nat = true) as -> by (apply Nat.eqb_eq; lia).
    by rewrite !string_app_assoc.
  - simpl in *.
    assert ((0 <? i)%nat = true) as -> by (apply Nat.ltb_lt; lia).
    assert ((i =? n - 1)%nat = false) as -> by (apply Nat.eqb_neq; lia).
    rewrite IH by lia. by rewrite !string_app_assoc.
Qed.

Lemma joinFields_long a b fields last :
  AuditLog.joinFields (a :: b :: fields ++ [last])
  = a ++ after_commas (b :: fields) ++ ", and " ++ last.
Proof.
  unfold AuditLog.joinFields.
  assert (length (a :: b :: fields ++ [last]) = 3 + length fields)%nat as Hlen.
  { simpl. rewrite length_app. simpl. lia. }
  rewrite Hlen. simpl Nat.eqb. cbv iota.
  change (a :: b :: fields ++ [last])%list
    with (a :: ((b :: fields) ++ [last]))%list.
  cbn [AuditLog.joinFields_loop Nat.ltb Nat.leb].
  replace (0 =? 3 + length fields - 1)%nat with false
    by (symmetry; apply Nat.eqb_neq; lia).
  rewrite (joinFields_loop_spec (3 + length fields) 1 (b :: fields) last)
    by (simpl; lia).
  reflexivity.
Qed.

(** [joinFields] gives the empty text for no field, the field itself for
    one, "a and b" for two, and for three or more the fields separated by
    ", " with ", and " before the last one. *)
Theorem joinFields_oxford_comma :
  AuditLog.joinFields [] = ""
  ∧ (∀ a, AuditLog.joinFields [a] = a)
  ∧ (∀ a b, AuditLog.joinFields [a; b] = a ++ " and " ++ b)
  ∧ (∀ a b fields last,
       AuditLog.joinFields (a :: b :: fields ++ [last])
       = a ++ after_commas (b :: fields) ++ ", and " ++ last).
Proof.
  repeat split; try reflexivity. apply joinFields_long.
Qed.

Lemma joinFields_three a b c :
  AuditLog.joinFields [a; b; c] = a ++ ", " ++ b ++ ", and " ++ c.
Proof.
  change [a; b; c] with (a :: b :: [] ++ [c])%list.
  rewrite joinFields_long. cbn [after_commas].
  by rewrite !string_app_assoc.
Qed.

Lemma summary_of_changes l :
  (if (length l =? 0)%nat then Done "no changes"
   else if (length l <=? 3)%nat then Done (AuditLog.joinFields l)
   else Done (AuditLog.joinFields (take 3 l) ++ " and "
              ++ pretty (length l - 3) ++ " more"))
  = Done (changes_text l).
Proof.
  destruct l as [|a [|b [|c [|d rest]]]]; try reflexivity.
  { cbn [length Nat.eqb Nat.leb changes_text]. by rewrite joinFields_three. }
  cbn [length Nat.eqb Nat.leb take changes_text].
  rewrite joinFields_three, !string_app_assoc.
  replace (S (S (S (S (length rest)))) - 3)%nat with (S (length rest)) by lia.
  reflexivity.
Qed.


End summaries.


Section field_changes.
Context `{GoRuntime}.

Lemma float_eqb_sym (x y : float) : (x =? y)%float = (y =? x)%float.
Proof.
  rewrite !FloatAxioms.eqb_spec. unfold SFeqb.
  rewrite (SFcompare_swap (Prim2SF x) (Prim2SF y)).
  by destruct (SFcompare (Prim2SF x) (Prim2SF y)) as [[]|].
Qed.

Lemma interface_eq_sym (a b : Value) : interface_eq a b = interface_eq b a.
Proof.
  destruct a, b; simpl; try reflexivity; f_equal.
  - apply String.eqb_sym.
  - by destruct b, b0.
  - apply float_eqb_sym.
  - apply N.eqb_sym.
  - apply Z.eqb_sym.
Qed.

Lemma valuesEqual_sym (a b : Value) :
  AuditLog.valuesEqual a b = AuditLog.valuesEqual b a.
Proof.
  unfold AuditLog.valuesEqual. rewrite (interface_eq_sym b a).
  destruct (interface_eq a b) as [[]|]; simpl; [done| |done].
  destruct a, b; simpl; try reflexivity; f_equal;
    try apply String.eqb_sym.
Qed.

Lemma valuesEqual_refl (a : Value) :
  (∀ msg, interface_eq a a ≠ Panic msg) → AuditLog.valuesEqual a a = Done true.
Proof.
  intros Hcmp. unfold AuditLog.valuesEqual.
  destruct a; simpl in *; try done.
  - by rewrite String.eqb_refl.
  - by destruct b.
  - destruct (f =? f)%float; simpl; [done|]. by rewrite String.eqb_refl.
  - by rewrite N.eqb_refl.
  - by rewrite Z.eqb_refl.
  - by destruct (Hcmp _ eq_refl).
  - by destruct (Hcmp _ eq_refl).
Qed.

(** [valuesEqual] does not depend on the order of its arguments, and every
    value that Go can compare is equal to itself, also a NaN, which [==]
    tells apart from itself and the comparison of the printed values makes
    equal again. So an audit log with the same old and new values, all
    comparable, has no changed field. *)
Theorem valuesEqual_is_reflexive_and_symmetric :
  (∀ a b, AuditLog.valuesEqual a b = AuditLog.valuesEqual b a)
  ∧ (∀ a, (∀ msg, interface_eq a a ≠ Panic msg) →
          AuditLog.valuesEqual a a = Done true)
  ∧ (interface_eq (VFloat64 nan) (VFloat64 nan) = Done false
     ∧ AuditLog.valuesEqual (VFloat64 nan) (VFloat64 nan) = Done true)
  ∧ (∀ a : AuditLog.t,
       AuditLog.OldValues a = AuditLog.NewValues a →
       (∀ k, ¬ uncomparable a k) →
       AuditLog.GetChangedFields a = Done []).
Proof.
  split; [exact valuesEqual_sym|]. split; [exact valuesEqual_refl|].
  split.
  - split; [reflexivity|]. by apply valuesEqual_refl.
  - intros a Hsame Hcmp.
    destruct (GetChangedFields_total a Hcmp) as [l Hl].
    destruct (GetChangedFields_returns a l Hl) as (_ & Hspec & _).
    rewrite Hl. f_equal. apply elem_of_nil_inv. intros k Hk.
    apply Hspec in Hk as [(o & n & Ho & Hn & Hdiff) | [Hnone [n Hn]]].
    + rewrite Hsame, Hn in Ho. injection Ho as <-.
      rewrite valuesEqual_refl in Hdiff; [done|].
      intros msg Hpanic. apply (Hcmp k). exists n, n, msg.
      by rewrite Hsame.
    + rewrite Hsame in Hnone. congruence.
Qed.

Lemma valuesEqual_returns_iff (o n : Value) :
  (∃ b, AuditLog.valuesEqual o n = Done b)
  ↔ ∀ msg, interface_eq o n ≠ Panic msg.
Proof.
  unfold AuditLog.valuesEqual. destruct (interface_eq o n) as [same|msg]; simpl.
  - split; [done|]. intros _. destruct same; [eauto|].
    destruct o, n; simpl; eauto.
  - split; [by intros [? ?] | intros Hno; by destruct (Hno msg)].
Qed.

(** When [GetChangedFields] returns, [GetFieldChange] returns for every
    field, with the values of the two maps, nil for a missing one. The two
    agree on the fields that the new values hold: such a field is listed
    exactly when [GetFieldChange] reports a change. They differ on a field
    that the old values hold and the new ones do not: [GetFieldChange]
    reports a change, and [GetChangedFields] does not list the field. *)
Theorem GetFieldChange_agrees_with_GetChangedFields (a : AuditLog.t) l field :
  AuditLog.GetChangedFields a = Done l →
  ∃ oldValue newValue changed,
    AuditLog.GetFieldChange a field = Done (oldValue, newValue, changed)
    ∧ oldValue = default VNil (AuditLog.OldValues a !! field)
    ∧ newValue = default VNil (AuditLog.NewValues a !! field)
    ∧ (field ∈ l
       ↔ changed = true ∧ is_Some (AuditLog.NewValues a !! field))
    ∧ (is_Some (AuditLog.OldValues a !! field) →
       AuditLog.NewValues a !! field = None →
       changed = true ∧ field ∉ l).
Proof.
  intros Hl.
  destruct (GetChangedFields_returns a l Hl) as (_ & Hspec & Hgone).
  unfold AuditLog.GetFieldChange.
  destruct (AuditLog.OldValues a !! field) as [o|] eqn:Ho,
           (AuditLog.NewValues a !! field) as [n|] eqn:Hn.
  - destruct (AuditLog.valuesEqual o n) as [equal|msg] eqn:Heq.
    + exists o, n, (negb equal). simpl.
      split; [done|]. split; [done|]. split; [done|]. split; [split|].
      * intros [(o' & n' & Ho' & Hn' & Hdiff) | [? _]]%Hspec; [|congruence].
        assert (o' = o ∧ n' = n) as [-> ->] by (split; congruence).
        rewrite Heq in Hdiff. injection Hdiff as ->. eauto.
      * intros [Hneg _]. apply Hspec. left. exists o, n.
        by destruct equal.
      * intros _ [=].
    + exfalso.
      assert (uncomparable a field) as Hunc.
      { exists o, n, msg. split; [done|]. split; [done|].
        unfold AuditLog.valuesEqual in Heq.
        destruct (interface_eq o n) as [[]|msg'] eqn:Hi; simpl in Heq;
          [discriminate| |congruence].
        destruct o, n; simpl in Heq; discriminate. }
      destruct (changed_values_panics a (range_keys (AuditLog.OldValues a))
                  [] field) as [msg' Hpanic];
        [apply elem_of_range_keys; eauto | done
        | by intros k'; apply elem_of_range_keys | ].
      unfold AuditLog.GetChangedFields in Hl. rewrite Hpanic in Hl. done.
  - exists o, VNil, true. simpl.
    split; [done|]. split; [done|]. split; [done|]. split; [split|].
    + by intros ?%Hgone.
    + by intros [_ [? ?]].
    + intros _ _. split; [done|]. by apply Hgone.
  - exists VNil, n, true. simpl.
    split; [done|]. split; [done|]. split; [done|]. split; [split|].
    + eauto.
    + intros _. apply Hspec. right. eauto.
    + by intros [? ?].
  - exists VNil, VNil, false. simpl.
    split; [done|]. split; [done|]. split; [done|]. split; [split|].
    + by intros ?%Hgone.
    + by intros [? _].
    + by intros [? ?].
Qed.

End field_changes.

Lemma GetFieldChange_agrees_with_GetChangedFields_witness :
  ∃ oldValue newValue,
    @AuditLog.GetFieldChange Testing.runtime Testing.salary_log "salary"
    = Done (oldValue, newValue, true).
Proof.
  destruct (@GetFieldChange_agrees_with_GetChangedFields Testing.runtime
              Testing.salary_log ["salary"] "salary"
              ltac:(vm_compute; reflexivity))
    as (o & n & changed & Hrun & _ & _ & Hin & _).
  exists o, n. rewrite Hrun.
  destruct (proj1 Hin) as [-> _]; [apply list_elem_of_here | reflexivity].
Defined.

(** ** Pagination and the parsing of statuses *)

Section pagination.
Import Pagination.

Lemma int_wrap_id z : (MinInt ≤ z ≤ MaxInt)%Z → int_wrap z = z.
Proof.
  unfold int_wrap, MinInt, MaxInt. intros Hz.
  rewrite Z.mod_small; lia.
Qed.

(** [NewPagination] turns a page below 1 into 1, a page size below 1 into
    10 and one above 100 into 100, and changes nothing in a pagination it
    has made; for a page of at most 92233720368547758 the offset is
    (page - 1) * size, computed without overflow, and is not negative. *)
Theorem NewPagination_is_clamped (page pageSize : int) :
  (page ≤ 92233720368547758)%Z →
  let p := NewPagination page pageSize in
  Page p = Z.max 1 page
  ∧ PageSize p = (if (pageSize <? 1)%Z then 10 else Z.min 100 pageSize)%Z
  ∧ (1 ≤ PageSize p ≤ 100)%Z
  ∧ IsCursorBased p = false
  ∧ NewPagination (Page p) (PageSize p) = p
  ∧ GetOffset p = ((Page p - 1) * PageSize p)%Z
  ∧ (0 ≤ GetOffset p)%Z.
Proof.
  intros Hpage p.
  assert (Page p = Z.max 1 page) as Hp.
  { unfold p, NewPagination. simpl. destruct (Z.ltb_spec page 1); lia. }
  assert (PageSize p = (if (pageSize <? 1)%Z then 10 else Z.min 100 pageSize)%Z)
    as Hs.
  { unfold p, NewPagination. simpl.
    destruct (Z.ltb_spec pageSize 1); [reflexivity|].
    destruct (Z.ltb_spec 100 pageSize); lia. }
  assert (1 ≤ PageSize p ≤ 100)%Z as Hbounds.
  { rewrite Hs. destruct (Z.ltb_spec pageSize 1); lia. }
  assert (GetOffset p = ((Page p - 1) * PageSize p)%Z) as Hoff.
  { unfold GetOffset. change (Cursor p) with (@None string).
    unfold int_mul, int_sub.
    rewrite (int_wrap_id (Page p - 1)) by (unfold MinInt, MaxInt; lia).
    apply int_wrap_id. unfold MinInt, MaxInt. nia. }
  split; [done|]. split; [done|]. split; [done|]. split; [done|].
  split; [|split; [done|]].
  - unfold NewPagination.
    assert ((Page p <? 1)%Z = false) as -> by (apply Z.ltb_ge; lia).
    assert ((PageSize p <? 1)%Z = false) as -> by (apply Z.ltb_ge; lia).
    assert ((100 <? PageSize p)%Z = false) as -> by (apply Z.ltb_ge; lia).
    done.
  - rewrite Hoff. nia.
Qed.

End pagination.

Lemma NewPagination_is_clamped_witness :
  Pagination.GetOffset (Pagination.NewPagination 3%Z 500%Z) = 200%Z
  ∧ Pagination.PageSize (Pagination.NewPagination 0%Z 0%Z) = 10%Z.
Proof.
  pose proof (NewPagination_is_clamped 3%Z 500%Z ltac:(lia)) as H3.
  pose proof (NewPagination_is_clamped 0%Z 0%Z ltac:(lia)) as H0.
  split.
  - destruct H3 as (_ & _ & _ & _ & _ & -> & _). reflexivity.
  - destruct H0 as (_ & -> & _). reflexivity.
Defined.

(** Beyond that bound the product wraps around. *)
Example GetOffset_overflows :
  Pagination.GetOffset (Pagination.NewPagination MaxInt 100%Z) = (-200)%Z.
Proof. reflexivity. Qed.

Section status.

(** [ParseEmployeeStatus] returns the text itself for the three statuses of
    [AllEmployeeStatuses], and for every other text, the empty one and the
    lower-case spellings included, the empty status and an error that
    quotes the text; [MustParseEmployeeStatus] panics with that error. *)
Theorem ParseEmployeeStatus_accepts_the_three_statuses (status : string) :
  (status ∈ EmployeeStatus.AllEmployeeStatuses →
     EmployeeStatus.IsValid status = true
     ∧ EmployeeStatus.ParseEmployeeStatus status = (status, None)
     ∧ EmployeeStatus.MustParseEmployeeStatus status = Done status)
  ∧ (status ∉ EmployeeStatus.AllEmployeeStatuses →
     EmployeeStatus.IsValid status = false
     ∧ EmployeeStatus.ParseEmployeeStatus status
       = ("", Some (New ("invalid employee status: " ++ status)))
     ∧ EmployeeStatus.MustParseEmployeeStatus status
       = Panic ("invalid employee status: " ++ status)).
Proof.
  unfold EmployeeStatus.MustParseEmployeeStatus,
    EmployeeStatus.ParseEmployeeStatus, EmployeeStatus.AllEmployeeStatuses.
  assert (EmployeeStatus.IsValid status = true
          ↔ status ∈ [EmployeeStatusActive; EmployeeStatusTerminated;
                       EmployeeStatusOnLeave]) as Hvalid.
  { unfold EmployeeStatus.IsValid.
    rewrite !orb_true_iff, !String.eqb_eq. set_solver. }
  split; intros Hin.
  - apply Hvalid in Hin. by rewrite Hin.
  - destruct (EmployeeStatus.IsValid status); [|done].
    destruct Hin. by apply Hvalid.
Qed.

End status.

Lemma ParseEmployeeStatus_accepts_the_three_statuses_witness :
  EmployeeStatus.ParseEmployeeStatus "ON_LEAVE" = ("ON_LEAVE", None)
  ∧ EmployeeStatus.MustParseEmployeeStatus "active"
    = Panic "invalid employee status: active".
Proof.
  split.
  - destruct (ParseEmployeeStatus_accepts_the_three_statuses "ON_LEAVE")
      as [Hin _].
    apply Hin.
    repeat first [ apply list_elem_of_here | apply list_elem_of_further ].
  - destruct (ParseEmployeeStatus_accepts_the_three_statuses "active")
      as [_ Hout].
    apply Hout. unfold EmployeeStatus.AllEmployeeStatuses.
    rewrite !elem_of_cons, elem_of_nil. intros [?|[?|[?|[]]]]; discriminate.
Defined.

(** ** Deleting an employee *)

Section employee_deletion.
Context {W : Type} `{GoRuntime}.
Variable c : Collaborators W.
Variable repos : Repositories W.
Variable d : EventDispatcher W.

Lemma snapshot_holds_id (e : Employee.t) :
  EmployeeService.createEmployeeSnapshot e !! "id"
  = Some (VUUID (Employee.ID e)).
Proof.
  unfold EmployeeService.createEmployeeSnapshot.
  destruct (Employee.ManagerID e), (Employee.Address e);
    repeat (rewrite lookup_insert_ne by done); by rewrite lookup_insert_eq.
Qed.

Lemma snapshot_not_empty (e : Employee.t) :
  (0 <? size (EmployeeService.createEmployeeSnapshot e))%nat = true.
Proof.
  apply size_positive. intros Hempty.
  pose proof (snapshot_holds_id e) as Hid.
  rewrite Hempty, lookup_empty in Hid. discriminate.
Qed.

Lemma NewAuditLog_fields id now employeeID operation userID oldValues
    newValues ipAddress userAgent a err :
  AuditLog.NewAuditLog id now employeeID operation userID oldValues newValues
    ipAddress userAgent = (Some a, err) →
  AuditLog.EmployeeID a = employeeID ∧ AuditLog.Operation a = operation.
Proof.
  unfold AuditLog.NewAuditLog.
  match goal with
  | |- context [AuditLog.Validate ?x] => destruct (AuditLog.Validate x)
  end; [discriminate|].
  by intros [= <- _].
Qed.


End employee_deletion.


(** ** Logging in *)

Section login.
Context {W : Type} `{GoRuntime}.
Variable c : Collaborators W.
Variable d : EventDispatcher W.

(** [AuthenticateUser] for an active user with the right password returns
    the user with the time of the login set to the present, asks the
    repository to record the login, and saves a [user.logged_in] event for
    that user; no event of another type is saved. *)
Theorem AuthenticateUser_success
    username password ipAddress userAgent (w w0 : W) u r s' :
  userRepo_FindByUsername c username w = ((Some u, None), w0) →
  User.IsActive u = true →
  User.CheckPassword password (User.Password u) = true →
  UserService.AuthenticateUser c d username password ipAddress userAgent
    (initial w) = (r, s') →
  (∃ p, r = Done (Some p, None)
        ∧ users s' !! p = Some (User.UpdateLastLogin (time_Now c w0) u))
  ∧ (∃ err, UserRepo_UpdateLastLogin (User.ID u) err ∈ trace s')
  ∧ (∃ base err,
       EventStore_SaveEvent
         (UserLoggedInEvent base (User.ID u) username ipAddress userAgent) err
       ∈ trace s')
  ∧ (∀ event err, EventStore_SaveEvent event err ∈ trace s' →
       GetType event = "user.logged_in").
Proof.
  intros Hfind Hactive Hpassword. wp_start. unfold_service.
  repeat wp_step;
    match goal with
    | Hc : userRepo_FindByUsername c username w = _ |- _ =>
        rewrite Hfind in Hc; injection Hc as ? ?; subst
    end;
    try discriminate;
    repeat match goal with
           | Hs : Some _ = Some _ |- _ => injection Hs as ?; subst
           end;
    unfold User.Authenticate in *;
    repeat match goal with
           | Hb : context [User.IsActive _] |- _ => rewrite Hactive in Hb
           | Hb : context [User.CheckPassword _ _] |- _ =>
               rewrite Hpassword in Hb
           end;
    try discriminate.
  split; [eexists; split; [reflexivity | by rewrite lookup_insert_eq]|].
  split; [eexists; trace_has|].
  split; [unfold NewUserLoggedInEvent; eexists _, _; trace_has|].
  intros event err Hin. in_trace Hin; try discriminate.
  by injection Hin as -> _.
Qed.

End login.

Lemma AuthenticateUser_success_witness :
  ∃ p, (@UserService.AuthenticateUser N Testing.runtime
          (Testing.collaborators Testing.script) Testing.dispatcher
          "janedoe" "SecurePassword123!" "192.168.1.1" "Mozilla/5.0"
          (initial 0%N)).1
       = Done (Some p, None)
       ∧ users (@UserService.AuthenticateUser N Testing.runtime
                  (Testing.collaborators Testing.script) Testing.dispatcher
                  "janedoe" "SecurePassword123!" "192.168.1.1" "Mozilla/5.0"
                  (initial 0%N)).2 !! p
         = Some (User.UpdateLastLogin Testing.noon Testing.jane).
Proof.
  destruct (@AuthenticateUser_success N Testing.runtime
              (Testing.collaborators Testing.script) Testing.dispatcher
              "janedoe" "SecurePassword123!" "192.168.1.1" "Mozilla/5.0"
              0%N 0%N Testing.jane _ _
              eq_refl eq_refl ltac:(vm_compute; reflexivity)
              (surjective_pairing _))
    as (Hp & _).
  exact Hp.
Defined.

(** ** The audit log of a salary change, and operations that fail *)

Section salary_changes.
Context {W : Type} `{GoRuntime}.
Variable c : Collaborators W.
Variable d : EventDispatcher W.

Lemma valuesEqual_floats (x y : float) :
  ∃ b, AuditLog.valuesEqual (VFloat64 x) (VFloat64 y) = Done b.
Proof.
  unfold AuditLog.valuesEqual. simpl. destruct (x =? y)%float; simpl; eauto.
Qed.

Lemma range_keys_singleton k (v : Value) : range_keys {[ k := v ]} = [k].
Proof. unfold range_keys. by rewrite map_to_list_singleton. Qed.

Lemma salary_log_changes (a : AuditLog.t) (x y : float) b :
  AuditLog.OldValues a = <[ "salary" := VFloat64 x ]> ∅ →
  AuditLog.NewValues a = <[ "salary" := VFloat64 y ]> ∅ →
  AuditLog.valuesEqual (VFloat64 x) (VFloat64 y) = Done b →
  AuditLog.IsUpdate a = true
  ∧ AuditLog.GetChangedFields a = Done (if b then [] else ["salary"])
  ∧ AuditLog.GetChangeSummary a
    = Done (if b then "Updated: no changes" else "Updated: salary").
Proof.
  intros Hold Hnew Heq.
  assert (AuditLog.GetChangedFields a = Done (if b then [] else ["salary"]))
    as Hfields.
  { unfold AuditLog.GetChangedFields. rewrite Hold, Hnew.
    change (<[ "salary" := VFloat64 x ]> ∅ : gmap string Value)
      with ({[ "salary" := VFloat64 x ]} : gmap string Value).
    change (<[ "salary" := VFloat64 y ]> ∅ : gmap string Value)
      with ({[ "salary" := VFloat64 y ]} : gmap string Value).
    rewrite !range_keys_singleton. simpl.
    rewrite Hnew, lookup_insert_eq, Hold, lookup_insert_eq. simpl.
    rewrite Heq. simpl.
    destruct b; simpl; rewrite ?Hold, ?lookup_insert_eq; reflexivity. }
  assert (AuditLog.IsUpdate a = true) as Hupdate.
  { unfold AuditLog.IsUpdate. rewrite Hold, Hnew.
    by rewrite !map_size_insert_None, map_size_empty by apply lookup_empty. }
  split; [done|]. split; [done|].
  unfold AuditLog.GetChangeSummary, AuditLog.getChangedFieldsSummary.
  unfold AuditLog.IsUpdate in Hupdate.
  apply andb_true_iff in Hupdate as [Ho Hn]. apply Nat.ltb_lt in Ho, Hn.
  assert ((size (AuditLog.OldValues a) =? 0)%nat = false) as ->
    by (apply Nat.eqb_neq; lia).
  assert ((size (AuditLog.NewValues a) =? 0)%nat = false) as ->
    by (apply Nat.eqb_neq; lia).
  unfold AuditLog.GetChangedFields in Hfields.
  destruct (AuditLog.changed_values _ _ _) as [l|]; [|discriminate].
  simpl in *. injection Hfields as ->. by destruct b.
Qed.

(** Every audit log that [UpdateEmployeeSalary] hands to the audit
    repository is an update log of the employee, made for the user of the
    call, whose old and new values hold the salary before and after the
    change and nothing else; the changed fields of the log are the salary,
    or nothing when the two salaries are equal, and the summary says so. *)
Theorem UpdateEmployeeSalary_audit_log
    id newSalary userID ipAddress userAgent (w w0 : W) e0 err0 r s' a aerr :
  employeeRepo_GetByID c id w = ((Some e0, err0), w0) →
  EmployeeService.UpdateEmployeeSalary c d id newSalary userID ipAddress
    userAgent (initial w) = (r, s') →
  AuditRepo_Create (Some a) aerr ∈ trace s' →
  AuditLog.Operation a = OperationUpdateSalary
  ∧ AuditLog.EmployeeID a = Employee.ID e0
  ∧ AuditLog.UserID a = userID
  ∧ AuditLog.OldValues a = <[ "salary" := VFloat64 (Employee.Salary e0) ]> ∅
  ∧ AuditLog.NewValues a = <[ "salary" := VFloat64 newSalary ]> ∅
  ∧ AuditLog.IsUpdate a = true
  ∧ ∃ same,
      AuditLog.valuesEqual (VFloat64 (Employee.Salary e0)) (VFloat64 newSalary)
      = Done same
      ∧ AuditLog.GetChangedFields a = Done (if same then [] else ["salary"])
      ∧ AuditLog.GetChangeSummary a
        = Done (if same then "Updated: no changes" else "Updated: salary").
Proof.
  intros Hget Hrun Hin.
  assert (AuditLog.Operation a = OperationUpdateSalary
          ∧ AuditLog.EmployeeID a = Employee.ID e0
          ∧ AuditLog.UserID a = userID
          ∧ AuditLog.OldValues a
            = <[ "salary" := VFloat64 (Employee.Salary e0) ]> ∅
          ∧ AuditLog.NewValues a = <[ "salary" := VFloat64 newSalary ]> ∅)
    as (Hop & Hemp & Huser & Hold & Hnew).
  { revert Hin. revert Hrun. wp_start. unfold_service.
    repeat wp_step;
      match goal with
      | Hc : employeeRepo_GetByID c id w = _ |- _ =>
          rewrite Hget in Hc; injection Hc as ? ?; subst
      end;
      try discriminate;
      repeat match goal with
             | Hs : Some _ = Some _ |- _ => injection Hs as ?; subst
             end;
      intros Hin; in_trace Hin; try discriminate;
      injection Hin as ? ?; subst; try discriminate;
      match goal with
      | Ha : AuditLog.NewAuditLog _ _ _ _ _ _ _ _ _ = (Some _, _) |- _ =>
          pose proof (NewAuditLog_fields _ _ _ _ _ _ _ _ _ _ _ Ha)
            as [Hemp Hop];
          apply NewAuditLog_values in Ha as (Hold & Hnew & Huser & _)
      end;
      match goal with
      | Hu : Employee.UpdateSalary _ _ ?e = (?e', None) |- _ =>
          assert (Employee.ID e' = Employee.ID e) as Hid;
          [ unfold Employee.UpdateSalary in Hu;
            destruct (validateSalary newSalary); [discriminate|];
            destruct (Employee.IsTerminated e); [discriminate|];
            by injection Hu as <-
          | rewrite Hid in Hemp; done ]
      end. }
  destruct (valuesEqual_floats (Employee.Salary e0) newSalary) as [same Hsame].
  destruct (salary_log_changes a _ _ same Hold Hnew Hsame) as (? & ? & ?).
  repeat split; try done. eauto.
Qed.

End salary_changes.

(** A read through a pointer that was allocated before others. *)
Ltac wp_older_pointers :=
  match goal with
  | |- match <[_ := _]> _ !! _ with _ => _ end =>
      repeat match goal with
             | Hf : <[_ := _]> _ !! _ = None |- _ =>
                 apply lookup_insert_None in Hf as [Hf ?]
             end;
      repeat (rewrite lookup_insert_ne by done);
      rewrite lookup_insert_eq; cbn beta iota
  end.

Section failures.
Context {W : Type} `{GoRuntime}.
Variable c : Collaborators W.
Variable d : EventDispatcher W.

(** When [CreateEmployee], [UpdateEmployee], [ChangeEmployeeStatus] or
    [UpdateEmployeeSalary] returns an error it returns no employee, and it
    has written no audit log and saved no event: the only writes that it
    may have attempted are those on the employee repository that failed. *)
Theorem service_errors_write_nothing (w : W) (s' : State W)
    (r : run (option loc * option error)) :
  let clean :=
    ∀ result err, r = Done (result, Some err) →
      result = None
      ∧ ∀ call, call ∈ trace s' →
          ∃ e err', call = EmployeeRepo_Create e (Some err')
                    ∨ call = EmployeeRepo_Update e (Some err') in
  (∀ firstName lastName email phone department position hireDate salary
     managerID address userID ipAddress userAgent,
     EmployeeService.CreateEmployee c d firstName lastName email phone
       department position hireDate salary managerID address
       userID ipAddress userAgent (initial w) = (r, s') → clean)
  ∧ (∀ id updates userID ipAddress userAgent,
       EmployeeService.UpdateEmployee c d id updates userID ipAddress
         userAgent (initial w) = (r, s') → clean)
  ∧ (∀ id newStatus userID ipAddress userAgent,
       EmployeeService.ChangeEmployeeStatus c d id newStatus userID ipAddress
         userAgent (initial w) = (r, s') → clean)
  ∧ (∀ id newSalary userID ipAddress userAgent,
       EmployeeService.UpdateEmployeeSalary c d id newSalary userID ipAddress
         userAgent (initial w) = (r, s') → clean).
Proof.
  intros clean. unfold clean. clear clean.
  split; [|split; [|split]]; intros *.
  - wp_start. unfold_service.
    repeat wp_step.
    all: try match goal with
           | |- context [auditLogCreatedData ?a] =>
               destruct (auditLogCreatedData a); cbn beta iota;
               repeat wp_step
           end.
    all: try (intros result err Hr; try discriminate; injection Hr as <- <-).
    all: try (split; [reflexivity|]).
    all: try (intros call Hin; in_trace Hin; try discriminate; subst; eauto).
  - wp_start. unfold_service.
    unfold EmployeeService.validateEmployeeUpdate,
      EmployeeService.validate_manager,
      EmployeeService.createAuditLogForUpdate.
    unfold_service.
    repeat first [ wp_step | wp_older_pointers ].
    all: try (intros result err Hr; try discriminate; injection Hr as <- <-).
    all: try (split; [reflexivity|]).
    all: try (intros call Hin; in_trace Hin; try discriminate; subst; eauto).
  - wp_start. unfold_service.
    repeat wp_step.
    all: try (intros result err Hr; try discriminate; injection Hr as <- <-).
    all: try (split; [reflexivity|]).
    all: try (intros call Hin; in_trace Hin; try discriminate; subst; eauto).
  - wp_start. unfold_service.
    repeat wp_step.
    all: try (intros result err Hr; try discriminate; injection Hr as <- <-).
    all: try (split; [reflexivity|]).
    all: try (intros call Hin; in_trace Hin; try discriminate; subst; eauto).
Qed.

End failures.

Lemma UpdateEmployeeSalary_audit_log_witness :
  ∃ a, AuditRepo_Create (Some a) None
       ∈ trace (@EmployeeService.UpdateEmployeeSalary N Testing.runtime
                  (Testing.collaborators Testing.script) Testing.dispatcher
                  7%N 80000 "admin" "192.168.1.1" "Mozilla/5.0"
                  (initial 0%N)).2
       ∧ AuditLog.GetChangedFields (H := Testing.runtime) a
         = Done ["salary"].
Proof.
  assert (∃ a, AuditRepo_Create (Some a) None
               ∈ trace (@EmployeeService.UpdateEmployeeSalary N
                          Testing.runtime
                          (Testing.collaborators Testing.script)
                          Testing.dispatcher 7%N 80000 "admin" "192.168.1.1"
                          "Mozilla/5.0" (initial 0%N)).2)
    as [a Hin] by (eexists; in_computed_trace).
  exists a. split; [done|].
  destruct (@UpdateEmployeeSalary_audit_log N Testing.runtime
              (Testing.collaborators Testing.script) Testing.dispatcher
              7%N 80000%float "admin" "192.168.1.1" "Mozilla/5.0" 0%N 0%N
              Testing.john None _ _ a None eq_refl (surjective_pairing _) Hin)
    as (_ & _ & _ & _ & _ & _ & same & Hsame & Hfields & _).
  vm_compute in Hsame. injection Hsame as <-. exact Hfields.
Defined.

(** ** Partial updates of an employee *)

Section partial_update.
Context `{GoRuntime}.

Lemma apply_updates_spec (l : list (string * Value)) e acc e' changed :
  NoDup l.*1 →
  EmployeeService.apply_updates l e acc = (e', (changed, None)) →
  e' = updated (Employee.UpdatedAt e) (list_to_map l) e
  ∧ changed
    = (acc ++ (filter (λ kv, update_applies kv.1 kv.2 = true) l).*1)%list.
Proof.
  revert e acc. induction l as [|[k v] rest IH]; intros e acc Hnodup Hrun.
  - simpl in Hrun. injection Hrun as <- <-.
    split; [by destruct e | by rewrite app_nil_r].
  - apply NoDup_cons in Hnodup as [Hk Hrest].
    assert ((list_to_map rest : gmap string Value) !! k = None) as Hnone
      by by apply not_elem_of_list_to_map_1.
    change (list_to_map ((k, v) :: rest) : gmap string Value)
      with (<[ k := v ]> (list_to_map rest) : gmap string Value).
    rewrite filter_cons. cbn [fst snd].
    cbn [EmployeeService.apply_updates] in Hrun.
    unfold update_applies.
    destruct (String.eqb_spec k "firstName") as [->|?];
      [|destruct (String.eqb_spec k "lastName") as [->|?];
      [|destruct (String.eqb_spec k "email") as [->|?];
      [|destruct (String.eqb_spec k "phone") as [->|?];
      [|destruct (String.eqb_spec k "department") as [->|?];
      [|destruct (String.eqb_spec k "position") as [->|?];
      [|destruct (String.eqb_spec k "salary") as [->|?];
      [|destruct (String.eqb_spec k "managerId") as [->|?];
      [|destruct (String.eqb_spec k "address") as [->|?]]]]]]]]];
      destruct v; cbn [orb String.eqb Ascii.eqb Bool.eqb] in *.
    all: try (rewrite decide_False by done).
    all: try (rewrite decide_True by done).
    all: repeat match type of Hrun with
           | context [if is_empty ?s then _ else _] =>
               destruct (is_empty s) eqn:Hempty
           | context [match uuid_Parse ?s with _ => _ end] =>
               destruct (uuid_Parse s) as [? [?|]] eqn:Hparse
           | context [match EmployeeService.parseAddress ?m with _ => _ end] =>
               destruct (EmployeeService.parseAddress m) as [? [?|]] eqn:Hparse
           end; try discriminate.
    all: apply IH in Hrun as [-> ->]; [|done].
    all: (split; [|by rewrite <- ?app_assoc]).
    all: unfold updated, updated_text; simpl.
    all: rewrite ?lookup_insert_eq.
    all: repeat (rewrite lookup_insert_ne by done).
    all: rewrite ?Hnone, ?Hempty, ?Hparse; reflexivity.
Qed.

(** The partial update of [UpdateEmployee], when it raises no error, gives
    each field that it knows the value of the map, when that value has the
    dynamic type of the field, whatever the order in which the map is
    traversed; it lists exactly those fields, each once; a field that it
    does not know, or a value of another type, is passed over in silence,
    and the identifier, the hire date, the status and the time of creation
    cannot be changed this way. *)
Theorem applyEmployeeUpdates_result now updates e e' changedFields :
  EmployeeService.applyEmployeeUpdates now updates e
  = (e', (changedFields, None)) →
  e' = updated now updates e
  ∧ NoDup changedFields
  ∧ (∀ field, field ∈ changedFields
              ↔ ∃ value, updates !! field = Some value
                         ∧ update_applies field value = true)
  ∧ Employee.ID e' = Employee.ID e
  ∧ Employee.HireDate e' = Employee.HireDate e
  ∧ Employee.Status e' = Employee.Status e
  ∧ Employee.CreatedAt e' = Employee.CreatedAt e
  ∧ Employee.UpdatedAt e' = now.
Proof.
  unfold EmployeeService.applyEmployeeUpdates.
  destruct (EmployeeService.apply_updates (map_to_list updates) e [])
    as [e1 [changed [err|]]] eqn:Hloop; [discriminate|].
  intros [= <- <-].
  apply apply_updates_spec in Hloop as [-> ->];
    [|apply NoDup_fst_map_to_list].
  rewrite list_to_map_to_list. simpl.
  split; [reflexivity|]. split; [|split; [|done]].
  - eapply sublist_NoDup; [apply (NoDup_fst_map_to_list updates)|].
    apply fmap_sublist, sublist_filter.
  - intros field. rewrite list_elem_of_fmap. split.
    + intros ([k v] & -> & [Happ Hin%elem_of_map_to_list]%list_elem_of_filter).
      eauto.
    + intros (value & Hin & Happ). exists (field, value). split; [done|].
      apply list_elem_of_filter. split; [done|].
      by apply elem_of_map_to_list.
Qed.

End partial_update.

Lemma applyEmployeeUpdates_result_witness :
  (@EmployeeService.applyEmployeeUpdates Testing.runtime Testing.noon
     Testing.pay_cut Testing.john).1
  = @updated Testing.runtime Testing.noon Testing.pay_cut Testing.john.
Proof.
  destruct (@applyEmployeeUpdates_result Testing.runtime Testing.noon
              Testing.pay_cut Testing.john
              (@EmployeeService.applyEmployeeUpdates Testing.runtime
                 Testing.noon Testing.pay_cut Testing.john).1
              ["salary"] ltac:(vm_compute; reflexivity))
    as (Hupdated & _).
  exact Hupdated.
Defined.

(** ** Partial updates of a user *)

Section profile_update.

Lemma apply_user_updates_spec (l : list (string * Value)) u acc u' changed err :
  NoDup l.*1 →
  UserService.apply_user_updates l u acc = (u', (changed, err)) →
  (err = None
   ↔ ∀ val, ("role", VString val) ∈ l → UserRole.IsValid val = true)
  ∧ (err = None →
       User.Username u'
       = updated_text (list_to_map l) "username" (User.Username u)
       ∧ User.Email u' = updated_text (list_to_map l) "email" (User.Email u)
       ∧ User.Role u' = updated_text (list_to_map l) "role" (User.Role u)
       ∧ User.ID u' = User.ID u ∧ User.Password u' = User.Password u
       ∧ User.IsActive u' = User.IsActive u
       ∧ User.LastLogin u' = User.LastLogin u
       ∧ User.CreatedAt u' = User.CreatedAt u
       ∧ User.UpdatedAt u' = User.UpdatedAt u
       ∧ changed
         = (acc ++ (filter (λ kv, profile_update_applies kv.1 kv.2 = true)
                      l).*1)%list)
  ∧ (err ≠ None → changed = []).
Proof.
  revert u acc. induction l as [|[k v] rest IH]; intros u acc Hnodup Hrun.
  - simpl in Hrun. injection Hrun as <- <- <-.
    split; [split; [by intros _ val ?%elem_of_nil|done]|].
    split; [|done]. intros _. rewrite app_nil_r. done.
  - apply NoDup_cons in Hnodup as [Hk Hrest].
    assert ((list_to_map rest : gmap string Value) !! k = None) as Hnone
      by by apply not_elem_of_list_to_map_1.
    assert (∀ x, (k, x) ∉ rest) as Hfresh.
    { intros x Hin. apply Hk. apply list_elem_of_fmap. by exists (k, x). }
    change (list_to_map ((k, v) :: rest) : gmap string Value)
      with (<[ k := v ]> (list_to_map rest) : gmap string Value).
    rewrite filter_cons. cbn [fst snd].
    cbn [UserService.apply_user_updates] in Hrun.
    unfold profile_update_applies, updated_text.
    destruct (String.eqb_spec k "username") as [->|?];
      [|destruct (String.eqb_spec k "email") as [->|?];
      [|destruct (String.eqb_spec k "role") as [->|?]]];
      destruct v; cbn [orb String.eqb Ascii.eqb Bool.eqb] in *.
    all: try (rewrite decide_False by done).
    all: try (rewrite decide_True by done).
    all: rewrite ?lookup_insert_eq.
    all: repeat (rewrite lookup_insert_ne by done).
    all: try match type of Hrun with
           | context [UserRole.ParseUserRole ?s] =>
               unfold UserRole.ParseUserRole in Hrun;
               destruct (UserRole.IsValid s) eqn:Hvalid; simpl in Hrun
           end.
    all: try (apply IH in Hrun as (Herr & Hok & Hfail); [|done];
              unfold updated_text in Hok; rewrite ?Hnone in Hok;
              split; [rewrite Herr; split; intros Hall val Hin;
                      [ apply elem_of_cons in Hin as [Heq|Hin];
                        [by simplify_eq | by apply Hall]
                      | apply Hall; by right ] |];
              split; [|done]; intros Hnil;
              destruct (Hok Hnil)
                as (-> & -> & -> & -> & -> & -> & -> & -> & -> & ->);
              simpl; rewrite ?Hnone, <- ?app_assoc; done).
    all: injection Hrun as <- <- <-.
    all: split; [split; [done|]|split; done].
    all: intros Hall; specialize (Hall _ (list_elem_of_here _ _)); congruence.
Qed.

Lemma applyUserUpdates_keeps_ID now updates u u' changedFields :
  UserService.applyUserUpdates now updates u = (u', (changedFields, None)) →
  User.ID u' = User.ID u.
Proof.
  unfold UserService.applyUserUpdates.
  destruct (UserService.apply_user_updates (map_to_list updates) u [])
    as [u1 [changed [err|]]] eqn:Hloop; [discriminate|].
  apply apply_user_updates_spec in Hloop as (_ & Hok & _);
    [|apply NoDup_fst_map_to_list].
  destruct (Hok eq_refl) as (_ & _ & _ & Hid & _).
  by intros [= <- _].
Qed.

(** The partial update of [UpdateUserProfile] fails exactly when the map
    gives the role a string that is not a role, whatever the order in which
    the map is traversed, and then it lists no field.  Otherwise the user
    name, the electronic address and the role take the strings of the map
    as they are, with no validation, the time of the update is the
    present, the other fields are kept, and the fields listed are exactly
    those three that the map gives a string, each once. *)
Theorem applyUserUpdates_result now updates u u' changedFields err :
  UserService.applyUserUpdates now updates u = (u', (changedFields, err)) →
  (err = None
   ↔ ∀ val, updates !! "role" = Some (VString val) →
            UserRole.IsValid val = true)
  ∧ (err = None →
       User.Username u' = updated_text updates "username" (User.Username u)
       ∧ User.Email u' = updated_text updates "email" (User.Email u)
       ∧ User.Role u' = updated_text updates "role" (User.Role u)
       ∧ User.UpdatedAt u' = now
       ∧ User.ID u' = User.ID u ∧ User.Password u' = User.Password u
       ∧ User.IsActive u' = User.IsActive u
       ∧ User.LastLogin u' = User.LastLogin u
       ∧ User.CreatedAt u' = User.CreatedAt u
       ∧ NoDup changedFields
       ∧ ∀ field, field ∈ changedFields
                  ↔ ∃ value, updates !! field = Some value
                             ∧ profile_update_applies field value = true)
  ∧ (err ≠ None → changedFields = []).
Proof.
  unfold UserService.applyUserUpdates.
  destruct (UserService.apply_user_updates (map_to_list updates) u [])
    as [u1 [changed err1]] eqn:Hloop.
  apply apply_user_updates_spec in Hloop as (Herr & Hok & Hfail);
    [|apply NoDup_fst_map_to_list].
  rewrite list_to_map_to_list in Hok.
  assert ((∀ val, ("role", VString val) ∈ map_to_list updates →
                  UserRole.IsValid val = true)
          ↔ (∀ val, updates !! "role" = Some (VString val) →
                    UserRole.IsValid val = true)) as Hsame.
  { split; intros Hall val Hin; apply Hall; by apply elem_of_map_to_list. }
  rewrite Hsame in Herr. clear Hsame.
  destruct err1 as [e|]; intros [= <- <- <-].
  - split; [by rewrite <- Herr|]. split; done.
  - split; [by rewrite <- Herr|]. split; [|done]. intros _.
    destruct (Hok eq_refl)
      as (Hname & Hemail & Hrole & Hid & Hpass & Hactive & Hlogin & Hcreated
          & _ & ->).
    simpl. repeat (split; [done|]). split.
    + eapply sublist_NoDup; [apply (NoDup_fst_map_to_list updates)|].
      apply fmap_sublist, sublist_filter.
    + intros field. rewrite list_elem_of_fmap. split.
      * intros ([k v] & -> &
                [Happ Hin%elem_of_map_to_list]%list_elem_of_filter).
        eauto.
      * intros (value & Hin & Happ). exists (field, value). split; [done|].
        apply list_elem_of_filter. split; [done|].
        by apply elem_of_map_to_list.
Qed.

End profile_update.

Lemma applyUserUpdates_result_witness :
  User.Email
    (UserService.applyUserUpdates Testing.noon
       (<[ "email" := VString "not an address" ]> ∅) Testing.jane).1
  = "not an address".
Proof.
  destruct (applyUserUpdates_result Testing.noon
              (<[ "email" := VString "not an address" ]> ∅) Testing.jane
              (UserService.applyUserUpdates Testing.noon
                 (<[ "email" := VString "not an address" ]> ∅)
                 Testing.jane).1
              ["email"] None)
    as (_ & Hok & _); [vm_compute; reflexivity|].
  destruct Hok as (_ & Hemail & _); [reflexivity|].
  exact Hemail.
Defined.

(** ** The operations on user accounts *)

Ltac unfold_user_service :=
  unfold UserService.CreateUser, UserService.UpdateUserProfile,
    UserService.DeactivateUser, UserService.ActivateUser,
    UserService.validateUserCreation, UserService.validateUserUpdate,
    UserService.validate_user_email,
    UserService.NewUser_ptr, UserService.user_method,
    UserService.userRepo_GetByID_ptr, UserService.userRepo_Create_ptr,
    UserService.userRepo_Update_ptr,
    UserService.createAuditLogForUserCreation,
    UserService.createAuditLogForUserUpdate,
    UserService.createAuditLogForUserDeactivation,
    UserService.createAuditLogForUserActivation,
    EmployeeService.new_audit_log,
    auditRepo_Create_log, eventStore_SaveEvent_log, new_event.

Section user_accounts.
Context {W : Type} `{GoRuntime} `{GoUnicode}.
Variable c : Collaborators W.
Variable repos : Repositories W.
Variable d : EventDispatcher W.

Lemma NewUser_returns id now generated username email password role u err :
  NewUser id now generated username email password role = (u, err) →
  match u, err with
  | Some u, None =>
      User.ID u = id ∧ User.Username u = username ∧ User.Email u = email
      ∧ User.Role u = role ∧ User.IsActive u = true
      ∧ User.LastLogin u = None ∧ User.Password u = generated.1
      ∧ generated.2 = None
      ∧ User.Validate u = None ∧ validatePasswordStrength password = None
  | None, Some _ => True
  | _, _ => False
  end.
Proof.
  unfold NewUser, HashPassword.
  match goal with
  | |- context [User.Validate ?x] => destruct (User.Validate x) eqn:Hv
  end; [by intros [= <- <-]|].
  destruct (validatePasswordStrength password) eqn:Hs; [by intros [= <- <-]|].
  destruct generated as [hash [e|]]; [by intros [= <- <-]|].
  intros [= <- <-]. simpl. repeat split; try done.
Qed.

(** [CreateUser] never panics, and when it returns an error it returns no
    user and has written no audit log and saved no event.  When it returns
    a user, the user is active, has the name, the address and the role of
    the call, passes [Validate], and the password passed the strength
    check; the event that is saved is a [user.logged_in] event for the new
    user, and no event of another type is saved; every audit log that is
    written is a creation log made for the user of the call that holds the
    identifier of the new user. *)
Theorem CreateUser_publishes_a_login_event
    username email password role userID ipAddress userAgent (w : W) r s' :
  UserService.CreateUser c repos d username email password role userID
    ipAddress userAgent (initial w) = (r, s') →
  (∃ res, r = Done res)
  ∧ (∀ result err, r = Done (result, Some err) →
       result = None ∧ trace s' = [])
  ∧ (∀ p, r = Done (Some p, None) →
       ∃ u, users s' !! p = Some u
            ∧ User.Username u = username ∧ User.Email u = email
            ∧ User.Role u = role ∧ User.IsActive u = true
            ∧ User.Validate u = None
            ∧ validatePasswordStrength password = None
            ∧ (∃ base err,
                 EventStore_SaveEvent
                   (UserLoggedInEvent base (User.ID u) username ipAddress
                      userAgent) err ∈ trace s')
            ∧ (∀ a err, AuditRepo_Create (Some a) err ∈ trace s' →
                 AuditLog.IsCreation a = true
                 ∧ AuditLog.Operation a = OperationCreateUser
                 ∧ AuditLog.UserID a = userID
                 ∧ AuditLog.NewValues a !! "id" = Some (VUUID (User.ID u))))
  ∧ (∀ event err, EventStore_SaveEvent event err ∈ trace s' →
       GetType event = "user.logged_in").
Proof.
  wp_start. unfold_user_service.
  repeat wp_step.
  all: try match goal with
           | Hv : User.Validate _ = Some _,
             Hn : NewUser _ _ _ _ _ _ _ = _ |- _ =>
               unfold NewUser in Hn; rewrite Hv in Hn;
               injection Hn as ? ?; subst; try discriminate
           | Hv : User.Validate _ = None,
             Hs : validatePasswordStrength _ = Some _,
             Hn : NewUser _ _ _ _ _ _ _ = _ |- _ =>
               unfold NewUser, HashPassword in Hn; rewrite Hv, Hs in Hn;
               injection Hn as ? ?; subst; try discriminate
           end.
  all: repeat match goal with
         | Hn : NewUser _ _ _ _ _ _ _ = _ |- _ =>
             apply NewUser_returns in Hn; simpl in Hn
         end; try done.
  all: split; [eauto|].
  all: split;
    [intros result err' Hr; try discriminate; by injection Hr as <- <-|].
  all: split;
    [|intros event err' Hin; in_trace Hin; try discriminate;
      by injection Hin as -> _].
  all: intros p' Hr; try discriminate; injection Hr as <-.
  all: match goal with
       | Hn : User.ID ?u = _ ∧ _ |- _ =>
           destruct Hn as (Hid & Hname & Hemail & Hrole & Hactive & _ & _ & _
                           & Hvalid & Hstrong);
           exists u
       end.
  all: split; [by rewrite lookup_insert_eq|].
  all: do 6 (split; [done|]).
  all: split; [unfold NewUserLoggedInEvent; eexists _, _; trace_has|].
  all: intros a' aerr Hin; in_trace Hin; try discriminate;
    injection Hin as ? ?; subst; try discriminate.
  all: match goal with
       | Ha : AuditLog.NewAuditLog _ _ _ _ _ _ _ _ _ = (Some _, _) |- _ =>
           pose proof (NewAuditLog_fields _ _ _ _ _ _ _ _ _ _ _ Ha)
             as [_ Hop];
           apply NewAuditLog_values in Ha as (Hold & Hnew & Huser & _)
       end.
  all: assert (AuditLog.NewValues a' !! "id" = Some (VUUID (User.ID t)))
         as Hlookup by (by rewrite Hnew, lookup_insert_eq).
  all: split; [|done].
  all: unfold AuditLog.IsCreation; rewrite Hold, map_size_empty; simpl.
  all: apply size_positive; intros Hempty;
    rewrite Hempty, lookup_empty in Hlookup; discriminate.
Qed.

End user_accounts.

Lemma CreateUser_publishes_a_login_event_witness :
  ∃ p u base err,
    (@UserService.CreateUser N Testing.runtime Testing.unicode
       (Testing.collaborators Testing.script) (Testing.repositories [])
       Testing.dispatcher "newuser" "new.user@example.com"
       "SecurePassword123!" "VIEWER" "admin" "192.168.1.1" "Mozilla/5.0"
       (initial 0%N)).1
    = Done (Some p, None)
    ∧ users (@UserService.CreateUser N Testing.runtime Testing.unicode
               (Testing.collaborators Testing.script)
               (Testing.repositories []) Testing.dispatcher "newuser"
               "new.user@example.com" "SecurePassword123!" "VIEWER" "admin"
               "192.168.1.1" "Mozilla/5.0" (initial 0%N)).2 !! p
      = Some u
    ∧ User.LastLogin u = None
    ∧ EventStore_SaveEvent
        (UserLoggedInEvent base (User.ID u) "newuser" "192.168.1.1"
           "Mozilla/5.0") err
      ∈ trace (@UserService.CreateUser N Testing.runtime Testing.unicode
                 (Testing.collaborators Testing.script)
                 (Testing.repositories []) Testing.dispatcher "newuser"
                 "new.user@example.com" "SecurePassword123!" "VIEWER" "admin"
                 "192.168.1.1" "Mozilla/5.0" (initial 0%N)).2.
Proof.
  assert (∃ p, (@UserService.CreateUser N Testing.runtime Testing.unicode
                  (Testing.collaborators Testing.script)
                  (Testing.repositories []) Testing.dispatcher "newuser"
                  "new.user@example.com" "SecurePassword123!" "VIEWER"
                  "admin" "192.168.1.1" "Mozilla/5.0" (initial 0%N)).1
               = Done (Some p, None))
    as [p Hp] by (eexists; vm_compute; reflexivity).
  destruct (@CreateUser_publishes_a_login_event N Testing.runtime
              Testing.unicode (Testing.collaborators Testing.script)
              (Testing.repositories []) Testing.dispatcher "newuser"
              "new.user@example.com" "SecurePassword123!" "VIEWER" "admin"
              "192.168.1.1" "Mozilla/5.0" 0%N _ _ (surjective_pairing _))
    as (_ & _ & Hcreated & _).
  destruct (Hcreated p Hp)
    as (u & Hu & _ & _ & _ & _ & _ & _ & (base & err & Hevent) & _).
  exists p, u, base, err. split; [done|]. split; [done|]. split; [|done].
  clear -Hp Hu. vm_compute in Hp. injection Hp as <-.
  vm_compute in Hu. by injection Hu as <-.
Defined.

Section account_switches.
Context {W : Type} `{GoRuntime} `{GoUnicode}.
Variable c : Collaborators W.
Variable repos : Repositories W.


End account_switches.


Section profiles.
Context {W : Type} `{GoRuntime} `{GoUnicode}.
Variable c : Collaborators W.
Variable repos : Repositories W.


End profiles.

